(** * Blacklight: driver, radiation-integrator construction, formula
      coefficients, top-level integration and z-turning counter

    A shallow embedding of the C++ sources into Rocq.  A C++ [double] is a
    primitive binary64 [float], so NaN, infinities and rounding are the
    machine's, each operation rounding on its own (no fused multiply-add);
    an [int] is a [Z] (no function here comes near the ends of its range);
    an exception is a value of an error type; the arrays of
    utils/array.hpp are flat lists with their dimensions. *)

From Stdlib Require Import ZArith Lia Bool List Sorted String Floats.
From stdpp Require Import base option list.
From Equations Require Import Equations.

(** ** Arrays *)

Module Array.

(** Modelled from the spec: utils/array.hpp is not among the sources.  The
    spec describes the arrays as multi-dimensional, indexed by (ray, step,
    component) and stored flat; [n1] is the fastest-running dimension.  A
    read outside the allocation (undefined in C++) yields the default the
    reader passes, a write outside it changes nothing. *)
Record t (A : Type) : Type := mk
  { data : list A; n3 : nat; n2 : nat; n1 : nat }.

Arguments mk {A} _ _ _ _.
Arguments data {A} _.
Arguments n3 {A} _.
Arguments n2 {A} _.
Arguments n1 {A} _.

Section Ops.
Context {A : Type}.

Definition Allocate2 (fill : A) (d2 d1 : nat) : t A :=
  mk (replicate (d2 * d1) fill) 1 d2 d1.

Definition index2 (a : t A) (i2 i1 : nat) : nat := i1 + n1 a * i2.

Definition index3 (a : t A) (i3 i2 i1 : nat) : nat :=
  i1 + n1 a * (i2 + n2 a * i3).

Definition get1 (d : A) (a : t A) (i1 : nat) : A :=
  default d (data a !! i1).

Definition get2 (d : A) (a : t A) (i2 i1 : nat) : A :=
  default d (data a !! index2 a i2 i1).

Definition get3 (d : A) (a : t A) (i3 i2 i1 : nat) : A :=
  default d (data a !! index3 a i3 i2 i1).

Definition set2 (a : t A) (i2 i1 : nat) (v : A) : t A :=
  mk (<[index2 a i2 i1 := v]> (data a)) (n3 a) (n2 a) (n1 a).

(** The array has the shape [Allocate2 _ d2 d1] gives it. *)
Definition shaped2 (a : t A) (d2 d1 : nat) : Prop :=
  n2 a = d2 /\ n1 a = d1 /\ length (data a) = d2 * d1.

Definition is_shaped2 (a : t A) (d2 d1 : nat) : bool :=
  (n2 a =? d2) && (n1 a =? d1) && (length (data a) =? d2 * d1).

End Ops.

End Array.

(** ** The C mathematical library *)

(** <cmath> is outside the repository: its functions are an interface the
    embedding is parametrised by. *)
Class CMath : Type :=
  { exp : float -> float;
    pow : float -> float -> float;
    sin : float -> float;
    cos : float -> float;
    atan : float -> float;
    atan2 : float -> float -> float }.

(** ** Signs of doubles *)

Module Sign.

Local Open Scope float_scope.

(** [x < 0] is false: [x] is NaN, a zero of either sign, or positive. *)
Definition not_negative (x : float) : Prop := (x <? 0) = false.

(** [x] is NaN, [+0] or positive: dividing by it cannot flip a sign. *)
Definition sign_clear (x : float) : Prop := (x <? 0) = false /\ x <> neg_zero.

(** The same two predicates on the IEEE 754 reading of a double. *)
Definition SFnn (f : spec_float) : Prop :=
  match f with
  | S754_infinity true | S754_finite true _ _ => False
  | _ => True
  end.

Definition SFsc (f : spec_float) : Prop :=
  match f with
  | S754_zero true | S754_infinity true | S754_finite true _ _ => False
  | _ => True
  end.

End Sign.

(** What ISO C promises of the signs of [exp] and [pow]: [exp] never
    returns a negative number, and neither does [pow] on a base that is
    [+0], positive or NaN. *)
Class CMathSigns (cmath : CMath) : Prop :=
  { exp_not_negative : forall x, Sign.not_negative (exp x);
    pow_not_negative :
      forall x y, Sign.sign_clear x -> Sign.not_negative (pow x y) }.

(** ** Driver (the main file, unnamed/part_000) *)

Module Driver.

(** What constructing [input_reader inputs(input_file)] does.
    read_input.hpp and exceptions.hpp are not among the sources, so the
    outcome of the constructor is an input of the model. *)
Inductive reader_outcome : Type :=
  | Constructed
  | Throws_ray_trace_exception (what : string)
  | Throws_other.

Record process_result : Type :=
  { standard_output : list string; exit_status : Z }.

Definition newline : string := String (Ascii.ascii_of_nat 10) EmptyString.

(** [main]: [argv] holds the program name and the arguments, [argc] is its
    length. *)
Definition main (argv : list string) (input_reader : string -> reader_outcome)
  : process_result :=
  let argc := Z.of_nat (length argv) in
  if negb (argc =? 2)%Z then
    {| standard_output := ["Error: Must give a single input file." ++ newline]%string;
       exit_status := 1 |}
  else
    let input_file := nth 1 argv EmptyString in
    match input_reader input_file with
    | Constructed => {| standard_output := []; exit_status := 0 |}
    | Throws_ray_trace_exception what =>
        {| standard_output := [what]; exit_status := 1 |}
    | Throws_other =>
        (* catch (...) prints and falls through to the end of the program *)
        {| standard_output := ["Error: Could not read input file." ++ newline]%string;
           exit_status := 0 |}
    end.

End Driver.

(** ** Formula radiative-transfer coefficients
       (radiation_integrator/formula_coefficients.cpp, lines 23-125) *)

Module FormulaCoefficients.

Local Open Scope float_scope.

(** The members of [RadiationIntegrator] that [CalculateFormulaCoefficients]
    reads or writes. *)
Record RadiationIntegrator : Type := mkRadiationIntegrator
  { first_time : bool;
    bh_m : float;
    bh_a : float;
    formula_r0 : float;
    formula_h : float;
    formula_l0 : float;
    formula_q : float;
    formula_nup : float;
    formula_cn0 : float;
    formula_alpha : float;
    formula_a : float;
    formula_beta : float;
    fallback_nan : bool;
    momentum_factor : float;
    camera_num_pix : Z;
    geodesic_num_steps : Z;
    sample_flags : Array.t bool;
    sample_num : Array.t Z;
    sample_pos : Array.t float;
    sample_dir : Array.t float;
    j_i : Array.t float;
    alpha_i : Array.t float }.

Definition with_coefficients (s : RadiationIntegrator)
    (j alpha : Array.t float) : RadiationIntegrator :=
  mkRadiationIntegrator (first_time s) (bh_m s) (bh_a s) (formula_r0 s)
    (formula_h s) (formula_l0 s) (formula_q s) (formula_nup s) (formula_cn0 s)
    (formula_alpha s) (formula_a s) (formula_beta s) (fallback_nan s)
    (momentum_factor s) (camera_num_pix s) (geodesic_num_steps s)
    (sample_flags s) (sample_num s) (sample_pos s) (sample_dir s) j alpha.

(** The local variables of one pass through the sample loop, under the
    names the source gives them. *)
Record sample_locals : Type := mkLocals
  { x : float; y : float; z : float;
    k_0 : float; k_1 : float; k_2 : float; k_3 : float;
    r : float; rr : float; cth : float; sth : float;
    ph : float; sph : float; cph : float;
    delta : float; sigma : float;
    gtt_bl : float; gtph_bl : float; grr_bl : float; gthth_bl : float;
    gphph_bl : float;
    ll : float;
    u_norm : float;
    u0 : float; u1 : float; u2 : float; u3 : float;
    n_n0_fluid : float;
    nu_fluid_cgs : float;
    j_nu_fluid_cgs : float;
    alpha_nu_fluid_cgs : float }.

Section Code.
Context {cmath : CMath}.

(** [RadiationIntegrator::RadialGeodesicCoordinate] is defined in a file
    that is not among the sources; it reads the object and a position. *)
Variable RadialGeodesicCoordinate :
  RadiationIntegrator -> float -> float -> float -> float.

(** What a freshly allocated cell holds; nothing below depends on it. *)
Variable uninitialized : float.

Definition quiet_NaN : float := nan.

(** Lines 55-120: the body of the sample loop up to the two stores. *)
Definition locals (s : RadiationIntegrator) (m n : nat) : sample_locals :=
  (* Extract geodesic position and momentum *)
  let x := Array.get3 uninitialized (sample_pos s) m n 1 in
  let y := Array.get3 uninitialized (sample_pos s) m n 2 in
  let z := Array.get3 uninitialized (sample_pos s) m n 3 in
  let k_0 := Array.get3 uninitialized (sample_dir s) m n 0 in
  let k_1 := Array.get3 uninitialized (sample_dir s) m n 1 in
  let k_2 := Array.get3 uninitialized (sample_dir s) m n 2 in
  let k_3 := Array.get3 uninitialized (sample_dir s) m n 3 in
  (* Calculate coordinates *)
  let r := RadialGeodesicCoordinate s x y z in
  let rr := sqrt (r * r - z * z) in
  let cth := z / r in
  let sth := sqrt (1.0 - cth * cth) in
  let ph := atan2 y x - atan (bh_a s / r) in
  let sph := sin ph in
  let cph := cos ph in
  (* Calculate metric *)
  let delta := r * r - 2.0 * bh_m s * r + bh_a s * bh_a s in
  let sigma := r * r + bh_a s * bh_a s * cth * cth in
  let gtt_bl :=
    - (1.0 + 2.0 * bh_m s * r * (r * r + bh_a s * bh_a s) / (delta * sigma)) in
  let gtph_bl := -2.0 * bh_m s * bh_a s * r / (delta * sigma) in
  let grr_bl := delta / sigma in
  let gthth_bl := 1.0 / sigma in
  let gphph_bl := (sigma - 2.0 * bh_m s * r) / (delta * sigma * sth * sth) in
  (* Calculate angular momentum (C 6) *)
  let ll := formula_l0 s / (1.0 + rr) * pow rr (1.0 + formula_q s) in
  (* Calculate 4-velocity (C 7-8) *)
  let u_norm :=
    1.0 / sqrt (- gtt_bl + 2.0 * gtph_bl * ll - gphph_bl * ll * ll) in
  let u_t_bl := - u_norm in
  let u_r_bl := 0.0 in
  let u_th_bl := 0.0 in
  let u_ph_bl := u_norm * ll in
  let ut_bl := gtt_bl * u_t_bl + gtph_bl * u_ph_bl in
  let ur_bl := grr_bl * u_r_bl in
  let uth_bl := gthth_bl * u_th_bl in
  let uph_bl := gtph_bl * u_t_bl + gphph_bl * u_ph_bl in
  let ut := ut_bl + 2.0 * bh_m s * r / delta * ur_bl in
  let ur := ur_bl in
  let uth := uth_bl in
  let uph := uph_bl + bh_a s / delta * ur_bl in
  let u0 := ut in
  let u1 :=
    sth * cph * ur + cth * (r * cph - bh_a s * sph) * uth
    + sth * (- r * sph - bh_a s * cph) * uph in
  let u2 :=
    sth * sph * ur + cth * (r * sph + bh_a s * cph) * uth
    + sth * (r * cph - bh_a s * sph) * uph in
  let u3 := cth * ur - r * sth * uth in
  (* Calculate fluid-frame number density (C 5) *)
  let n_n0_fluid :=
    exp (-0.5 * (r * r / (formula_r0 s * formula_r0 s)
                 + formula_h s * formula_h s * cth * cth)) in
  (* Calculate frequency in CGS units *)
  let nu_fluid_cgs :=
    - (u0 * k_0 + u1 * k_1 + u2 * k_2 + u3 * k_3) * momentum_factor s in
  (* Calculate emission coefficient in CGS units (C 9-10) *)
  let j_nu_fluid_cgs :=
    formula_cn0 s * n_n0_fluid
    * pow (nu_fluid_cgs / formula_nup s) (- formula_alpha s) in
  (* Calculate absorption coefficient in CGS units (C 11-12) *)
  let alpha_nu_fluid_cgs :=
    formula_a s * formula_cn0 s * n_n0_fluid
    * pow (nu_fluid_cgs / formula_nup s)
          (- formula_beta s - formula_alpha s) in
  mkLocals x y z k_0 k_1 k_2 k_3 r rr cth sth ph sph cph delta sigma
    gtt_bl gtph_bl grr_bl gthth_bl gphph_bl ll u_norm u0 u1 u2 u3
    n_n0_fluid nu_fluid_cgs j_nu_fluid_cgs alpha_nu_fluid_cgs.

(** The pair of coefficient arrays the loops update. *)
Definition coefficients : Type := (Array.t float * Array.t float)%type.

(** Lines 44-48: one pass of the NaN loop. *)
Definition store_nan (m : nat) (c : coefficients) (n : nat) : coefficients :=
  (Array.set2 (fst c) m n quiet_NaN, Array.set2 (snd c) m n quiet_NaN).

(** Lines 53-122: one pass of the sample loop. *)
Definition store_sample (s : RadiationIntegrator) (m : nat)
    (c : coefficients) (n : nat) : coefficients :=
  let l := locals s m n in
  (Array.set2 (fst c) m n
     (j_nu_fluid_cgs l / (nu_fluid_cgs l * nu_fluid_cgs l)),
   Array.set2 (snd c) m n (alpha_nu_fluid_cgs l * nu_fluid_cgs l)).

(** [for (int n = 0; n < bound; n++)] as the list of values [n] takes. *)
Definition upto (bound : Z) : list nat := seq 0 (Z.to_nat bound).

(** Lines 36-122: the body of the pixel loop. *)
Definition pixel (s : RadiationIntegrator) (c : coefficients) (m : nat)
    : coefficients :=
  (* Check number of steps *)
  let num_steps := Array.get1 0%Z (sample_num s) m in
  if (num_steps <=? 0)%Z then c
  (* Set pixel to NaN if ray has problem *)
  else if fallback_nan s && Array.get1 false (sample_flags s) m then
    fold_left (store_nan m) (upto num_steps) c
  (* Go through samples *)
  else fold_left (store_sample s m) (upto num_steps) c.

(** Lines 25-30: the arrays the pixel loop starts from. *)
Definition allocated (s : RadiationIntegrator) : coefficients :=
  if first_time s then
    (Array.Allocate2 uninitialized (Z.to_nat (camera_num_pix s))
       (Z.to_nat (geodesic_num_steps s)),
     Array.Allocate2 uninitialized (Z.to_nat (camera_num_pix s))
       (Z.to_nat (geodesic_num_steps s)))
  else (j_i s, alpha_i s).

(** Lines 23-125.  The pixel loop runs under [omp parallel for]; each pass
    writes only the cells of its own pixel, and the passes are taken here
    in index order (any other order leaves the same cells: lemma
    [pixel_order_irrelevant]). *)
Definition CalculateFormulaCoefficients (s : RadiationIntegrator)
    : RadiationIntegrator :=
  let c := fold_left (pixel s) (upto (camera_num_pix s)) (allocated s) in
  with_coefficients s (fst c) (snd c).

(** What the notes of the function assume of the object: coefficient
    arrays allocated on an earlier call have the shape the first call
    gives them, and no pixel has more samples than [geodesic_num_steps]
    (the spec's invariant on sample counts). *)
Definition well_formed (s : RadiationIntegrator) : bool :=
  (first_time s
   || (Array.is_shaped2 (j_i s) (Z.to_nat (camera_num_pix s))
         (Z.to_nat (geodesic_num_steps s))
       && Array.is_shaped2 (alpha_i s) (Z.to_nat (camera_num_pix s))
            (Z.to_nat (geodesic_num_steps s))))
  && forallb
       (fun m => (Array.get1 0 (sample_num s) m <=? geodesic_num_steps s)%Z)
       (upto (camera_num_pix s)).

(** [sample_num(m)] as a number of passes of the sample loop. *)
Definition num_samples (s : RadiationIntegrator) (m : nat) : nat :=
  Z.to_nat (Array.get1 0%Z (sample_num s) m).

(** The pixel loop seen on one array: pixel [m] writes [val m n] in the
    first [count m] cells of its row. *)
Definition row_writer (val : nat -> nat -> float) (count : nat -> nat)
    (a : Array.t float) (m : nat) : Array.t float :=
  fold_left (fun a n => Array.set2 a m n (val m n)) (seq 0 (count m)) a.

(** What the pixel loop leaves in cell [(m,n)] of [j_i] and of [alpha_i]
    when it writes that cell. *)
Definition stored_j (s : RadiationIntegrator) (m n : nat) : float :=
  if fallback_nan s && Array.get1 false (sample_flags s) m then quiet_NaN
  else let l := locals s m n in
       j_nu_fluid_cgs l / (nu_fluid_cgs l * nu_fluid_cgs l).

Definition stored_alpha (s : RadiationIntegrator) (m n : nat) : float :=
  if fallback_nan s && Array.get1 false (sample_flags s) m then quiet_NaN
  else let l := locals s m n in alpha_nu_fluid_cgs l * nu_fluid_cgs l.

End Code.

End FormulaCoefficients.

(** ** Construction of the radiation integrator
       (radiation_integrator/formula_coefficients.cpp, lines 151-592) *)

(** Modelled from the spec: blacklight.hpp, which declares the
    enumerations, is not among the sources.  The input-reader contract of
    the spec gives the model types, the plasma models and the types of a
    rendered feature. *)
Inductive ModelType : Type := simulation | formula.
Inductive PlasmaModel : Type := ti_te_beta | code_kappa.
Inductive RenderType : Type := fill | rise | fall.

(** Modelled from the spec: input_reader/input_reader.hpp is not among the
    sources.  By the input-reader contract every field is present or
    absent (a [std::optional]); the fields are those the constructor reads,
    [simulation_coord] an enumerator held by its value. *)
Module InputReader.

Record t : Type := mk
  { model_type : option ModelType;
    num_threads : option Z;
    simulation_a : option float;
    formula_spin : option float;
    checkpoint_sample_save : option bool;
    checkpoint_sample_load : option bool;
    checkpoint_sample_file : option string;
    formula_mass : option float;
    formula_r0 : option float;
    formula_h : option float;
    formula_l0 : option float;
    formula_q : option float;
    formula_nup : option float;
    formula_cn0 : option float;
    formula_alpha : option float;
    formula_a : option float;
    formula_beta : option float;
    simulation_coord : option Z;
    simulation_m_msun : option float;
    simulation_rho_cgs : option float;
    simulation_interp : option bool;
    simulation_block_interp : option bool;
    plasma_mu : option float;
    plasma_ne_ni : option float;
    plasma_model : option PlasmaModel;
    plasma_rat_low : option float;
    plasma_rat_high : option float;
    plasma_power_frac : option float;
    plasma_p : option float;
    plasma_gamma_min : option float;
    plasma_gamma_max : option float;
    plasma_kappa_frac : option float;
    plasma_kappa : option float;
    plasma_w : option float;
    plasma_sigma_max : option float;
    slow_light_on : option bool;
    slow_interp : option bool;
    slow_chunk_size : option Z;
    slow_t_start : option float;
    slow_dt : option float;
    fallback_nan : option bool;
    fallback_rho : option float;
    fallback_pgas : option float;
    fallback_kappa : option float;
    camera_r : option float;
    camera_resolution : option Z;
    image_light : option bool;
    image_frequency : option float;
    image_polarization : option bool;
    image_time : option bool;
    image_length : option bool;
    image_lambda : option bool;
    image_emission : option bool;
    image_tau : option bool;
    image_lambda_ave : option bool;
    image_emission_ave : option bool;
    image_tau_int : option bool;
    render_num_images : option Z;
    render_num_features : nat -> option Z;
    render_quantities : nat -> nat -> option Z;
    render_types : nat -> nat -> option RenderType;
    render_thresh_vals : nat -> nat -> option float;
    render_min_vals : nat -> nat -> option float;
    render_max_vals : nat -> nat -> option float;
    render_opacities : nat -> nat -> option float;
    render_tau_scales : nat -> nat -> option float;
    render_x_vals : nat -> nat -> option float;
    render_y_vals : nat -> nat -> option float;
    render_z_vals : nat -> nat -> option float;
    ray_flat : option bool;
    adaptive_max_level : option Z;
    adaptive_block_size : option Z;
    adaptive_val_frac : option float;
    adaptive_val_cut : option float;
    adaptive_abs_grad_frac : option float;
    adaptive_abs_grad_cut : option float;
    adaptive_rel_grad_frac : option float;
    adaptive_rel_grad_cut : option float;
    adaptive_abs_lapl_frac : option float;
    adaptive_abs_lapl_cut : option float;
    adaptive_rel_lapl_frac : option float;
    adaptive_rel_lapl_cut : option float }.

End InputReader.

(** Modelled from the spec: utils/exceptions.hpp is not among the sources.
    A configuration error is fatal at construction and unwinds to the
    driver: a thrown exception ends the computation, here with the
    warnings put out before it.  [bad_optional_access] is what
    [std::optional::value] throws on an absent field. *)
Module Exceptions.

Inductive exception : Type :=
  | BlacklightException (what : string)
  | bad_optional_access.

Definition M (A : Type) : Type := (list string * (exception + A))%type.

#[global] Instance M_ret : MRet M := fun A a => ([], inr a).

#[global] Instance M_bind : MBind M := fun A B f m =>
  match m with
  | (w, inl e) => (w, inl e)
  | (w, inr a) => let '(w', r) := f a in (w ++ w', r)
  end.

#[global] Instance M_throw : MThrow exception M := fun A e => ([], inl e).

Definition BlacklightWarning (message : string) : M unit :=
  ([message], inr tt).

(** [std::optional::value]. *)
Definition value {A : Type} (o : option A) : M A :=
  match o with
  | Some a => mret a
  | None => mthrow bad_optional_access
  end.

(** [o.has_value() and o.value()]. *)
Definition has_value_and_value (o : option bool) : bool :=
  match o with
  | Some b => b
  | None => false
  end.

(** [if (c) member = o.value();] *)
Definition value_if {A : Type} (c : bool) (o : option A) (unassigned : A) : M A :=
  if c then value o else mret unassigned.

(** [if (b) action;] *)
Definition when (b : bool) (action : M unit) : M unit :=
  if b then action else mret tt.

(** [for (n = 0; n < bound; n++)] collecting what each pass builds. *)
Fixpoint for_each {A : Type} (body : nat -> M A) (ns : list nat) : M (list A) :=
  match ns with
  | [] => mret []
  | n :: ns' => a ← body n; l ← for_each body ns'; mret (a :: l)
  end.

Definition upto (bound : Z) : list nat := seq 0 (Z.to_nat bound).

Definition thrown {A : Type} (m : M A) : option exception :=
  match snd m with
  | inl e => Some e
  | inr _ => None
  end.

Definition warnings {A : Type} (m : M A) : list string := fst m.

(** [fails m]: the statements end in an exception. *)
Definition fails {A : Type} (m : M A) : Prop := exists e, thrown m = Some e.

(** [fails_with P m]: the statements end in an exception that satisfies
    [P]. *)
Definition fails_with {A : Type} (P : exception -> Prop) (m : M A) : Prop :=
  exists e, thrown m = Some e /\ P e.

(** [throws_only P m]: an exception [m] ends in satisfies [P]. *)
Definition throws_only {A : Type} (P : exception -> Prop) (m : M A) : Prop :=
  forall e, thrown m = Some e -> P e.

End Exceptions.

Module Constructor.

Import Exceptions.

(** The members the constructor sets from the input, grouped as the
    constructor's comments group them.  radiation_integrator.hpp is not
    among the sources: a member the constructor leaves unassigned on some
    path holds a placeholder here ([false], [0], NaN, the empty string).
    The constructor reads no member it has not assigned on the same path. *)
Record GeneralParameters : Type :=
  { model_type : ModelType; num_threads : Z; bh_m : float; bh_a : float }.

Record CheckpointParameters : Type :=
  { checkpoint_sample_save : bool;
    checkpoint_sample_load : bool;
    checkpoint_sample_file : string }.

Record FormulaParameters : Type :=
  { formula_mass : float; formula_r0 : float; formula_h : float;
    formula_l0 : float; formula_q : float; formula_nup : float;
    formula_cn0 : float; formula_alpha : float; formula_a : float;
    formula_beta : float }.

Record SimulationParameters : Type :=
  { simulation_coord : Z;
    simulation_m_msun : float;
    simulation_rho_cgs : float;
    simulation_interp : bool;
    simulation_block_interp : bool }.

Record PlasmaParameters : Type :=
  { plasma_mu : float; plasma_ne_ni : float; plasma_model : PlasmaModel;
    plasma_rat_low : float; plasma_rat_high : float;
    plasma_power_frac : float; plasma_p : float;
    plasma_gamma_min : float; plasma_gamma_max : float;
    plasma_kappa_frac : float; plasma_kappa : float; plasma_w : float;
    plasma_thermal_frac : float; plasma_sigma_max : float }.

Record SlowLightParameters : Type :=
  { slow_light_on : bool; slow_interp : bool; slow_chunk_size : Z;
    slow_t_start : float; slow_dt : float }.

Record FallbackParameters : Type :=
  { fallback_nan : bool; fallback_rho : float; fallback_pgas : float;
    fallback_kappa : float }.

Record CameraParameters : Type :=
  { camera_r : float; camera_resolution : Z }.

Record ImageParameters : Type :=
  { image_light : bool; image_frequency : float; image_polarization : bool;
    image_time : bool; image_length : bool; image_lambda : bool;
    image_emission : bool; image_tau : bool; image_lambda_ave : bool;
    image_emission_ave : bool; image_tau_int : bool }.

(** One feature of one rendered image: entry [n_i][n_f] of the [render_*]
    arrays. *)
Record RenderFeature : Type :=
  { render_quantity : Z; render_type : RenderType;
    render_thresh_val : float; render_opacity : float;
    render_min_val : float; render_max_val : float;
    render_tau_scale : float;
    render_x_val : float; render_y_val : float; render_z_val : float }.

(** [render_num_features[n_i]] is the length of the image's list. *)
Record RenderingParameters : Type :=
  { render_num_images : Z; render_features : list (list RenderFeature) }.

Record AdaptiveParameters : Type :=
  { adaptive_max_level : Z; adaptive_block_size : Z;
    adaptive_val_frac : float; adaptive_val_cut : float;
    adaptive_abs_grad_frac : float; adaptive_abs_grad_cut : float;
    adaptive_rel_grad_frac : float; adaptive_rel_grad_cut : float;
    adaptive_abs_lapl_frac : float; adaptive_abs_lapl_cut : float;
    adaptive_rel_lapl_frac : float; adaptive_rel_lapl_cut : float }.

Record RadiationIntegrator : Type :=
  { general : GeneralParameters;
    checkpoint : CheckpointParameters;
    formula_parameters : FormulaParameters;
    simulation_parameters : SimulationParameters;
    plasma : PlasmaParameters;
    slow_light : SlowLightParameters;
    fallback : FallbackParameters;
    camera : CameraParameters;
    image : ImageParameters;
    rendering : RenderingParameters;
    ray_flat : bool;
    adaptive : AdaptiveParameters }.

Definition unassigned_bool : bool := false.
Definition unassigned_int : Z := 0%Z.
Definition unassigned_double : float := nan.
Definition unassigned_string : string := EmptyString.

Definition is_simulation (model_type : ModelType) : bool :=
  match model_type with simulation => true | formula => false end.

Definition is_formula (model_type : ModelType) : bool :=
  match model_type with simulation => false | formula => true end.

(** [x != y] on doubles. *)
Definition neqb (x y : float) : bool := negb (x =? y)%float.

(** Lines 155-174: general input data and the black-hole parameters. *)
Definition copy_general_input_data (p : InputReader.t) : M GeneralParameters :=
  model_type ← value (InputReader.model_type p);
  num_threads ← value (InputReader.num_threads p);
  bh_a ← match model_type with
         | simulation => value (InputReader.simulation_a p)
         | formula => value (InputReader.formula_spin p)
         end;
  mret {| model_type := model_type; num_threads := num_threads;
          bh_m := 1.0; bh_a := bh_a |}.

(** Lines 176-194. *)
Definition copy_checkpoint_parameters (p : InputReader.t)
    (model_type : ModelType) : M CheckpointParameters :=
  if is_simulation model_type then
    save ← value (InputReader.checkpoint_sample_save p);
    load ← value (InputReader.checkpoint_sample_load p);
    when (save && load)
      (mthrow (BlacklightException
                 "Cannot both save and load a sample checkpoint."));;
    file ← value_if (save || load) (InputReader.checkpoint_sample_file p)
             unassigned_string;
    mret {| checkpoint_sample_save := save; checkpoint_sample_load := load;
            checkpoint_sample_file := file |}
  else
    when (has_value_and_value (InputReader.checkpoint_sample_save p))
      (BlacklightWarning "Ignoring checkpoint_sample_save selection.");;
    when (has_value_and_value (InputReader.checkpoint_sample_load p))
      (BlacklightWarning "Ignoring checkpoint_sample_load selection.");;
    mret {| checkpoint_sample_save := unassigned_bool;
            checkpoint_sample_load := unassigned_bool;
            checkpoint_sample_file := unassigned_string |}.

(** Lines 196-209. *)
Definition copy_formula_parameters (p : InputReader.t)
    (model_type : ModelType) : M FormulaParameters :=
  let c := is_formula model_type in
  formula_mass ← value_if c (InputReader.formula_mass p) unassigned_double;
  formula_r0 ← value_if c (InputReader.formula_r0 p) unassigned_double;
  formula_h ← value_if c (InputReader.formula_h p) unassigned_double;
  formula_l0 ← value_if c (InputReader.formula_l0 p) unassigned_double;
  formula_q ← value_if c (InputReader.formula_q p) unassigned_double;
  formula_nup ← value_if c (InputReader.formula_nup p) unassigned_double;
  formula_cn0 ← value_if c (InputReader.formula_cn0 p) unassigned_double;
  formula_alpha ← value_if c (InputReader.formula_alpha p) unassigned_double;
  formula_a ← value_if c (InputReader.formula_a p) unassigned_double;
  formula_beta ← value_if c (InputReader.formula_beta p) unassigned_double;
  mret {| formula_mass := formula_mass; formula_r0 := formula_r0;
          formula_h := formula_h; formula_l0 := formula_l0;
          formula_q := formula_q; formula_nup := formula_nup;
          formula_cn0 := formula_cn0; formula_alpha := formula_alpha;
          formula_a := formula_a; formula_beta := formula_beta |}.

(** Lines 211-220. *)
Definition copy_simulation_parameters (p : InputReader.t)
    (model_type : ModelType) : M SimulationParameters :=
  let c := is_simulation model_type in
  simulation_coord ←
    value_if c (InputReader.simulation_coord p) unassigned_int;
  simulation_m_msun ←
    value_if c (InputReader.simulation_m_msun p) unassigned_double;
  simulation_rho_cgs ←
    value_if c (InputReader.simulation_rho_cgs p) unassigned_double;
  simulation_interp ←
    value_if c (InputReader.simulation_interp p) unassigned_bool;
  simulation_block_interp ←
    value_if (c && simulation_interp) (InputReader.simulation_block_interp p)
      unassigned_bool;
  mret {| simulation_coord := simulation_coord;
          simulation_m_msun := simulation_m_msun;
          simulation_rho_cgs := simulation_rho_cgs;
          simulation_interp := simulation_interp;
          simulation_block_interp := simulation_block_interp |}.

Definition outside_unit_interval (x : float) : bool :=
  ((x <? 0.0) || (1.0 <? x))%float.

Definition is_ti_te_beta (m : PlasmaModel) : bool :=
  match m with ti_te_beta => true | code_kappa => false end.

Definition is_code_kappa (m : PlasmaModel) : bool :=
  match m with ti_te_beta => false | code_kappa => true end.

(** Lines 222-254. *)
Definition copy_plasma_parameters (p : InputReader.t)
    (model_type : ModelType) : M PlasmaParameters :=
  let c := is_simulation model_type in
  plasma_mu ← value_if c (InputReader.plasma_mu p) unassigned_double;
  plasma_ne_ni ← value_if c (InputReader.plasma_ne_ni p) unassigned_double;
  plasma_model ← value_if c (InputReader.plasma_model p) ti_te_beta;
  plasma_rat_low ←
    value_if (c && is_ti_te_beta plasma_model) (InputReader.plasma_rat_low p)
      unassigned_double;
  plasma_rat_high ←
    value_if (c && is_ti_te_beta plasma_model) (InputReader.plasma_rat_high p)
      unassigned_double;
  plasma_power_frac ←
    value_if c (InputReader.plasma_power_frac p) unassigned_double;
  when (c && outside_unit_interval plasma_power_frac)
    (BlacklightWarning "Fraction of power-law electrons outside [0, 1].");;
  plasma_p ←
    value_if (c && neqb plasma_power_frac 0.0) (InputReader.plasma_p p)
      unassigned_double;
  plasma_gamma_min ←
    value_if (c && neqb plasma_power_frac 0.0) (InputReader.plasma_gamma_min p)
      unassigned_double;
  plasma_gamma_max ←
    value_if (c && neqb plasma_power_frac 0.0) (InputReader.plasma_gamma_max p)
      unassigned_double;
  plasma_kappa_frac ←
    value_if c (InputReader.plasma_kappa_frac p) unassigned_double;
  when (c && outside_unit_interval plasma_kappa_frac)
    (BlacklightWarning
       "Fraction of kappa-distribution electrons outside [0, 1].");;
  plasma_kappa ←
    value_if (c && neqb plasma_kappa_frac 0.0) (InputReader.plasma_kappa p)
      unassigned_double;
  plasma_w ←
    value_if (c && neqb plasma_kappa_frac 0.0) (InputReader.plasma_w p)
      unassigned_double;
  let plasma_thermal_frac :=
    if c then (1.0 - (plasma_power_frac + plasma_kappa_frac))%float
    else unassigned_double in
  when (c && outside_unit_interval plasma_thermal_frac)
    (BlacklightWarning "Fraction of thermal electrons outside [0, 1].");;
  plasma_sigma_max ←
    value_if c (InputReader.plasma_sigma_max p) unassigned_double;
  mret {| plasma_mu := plasma_mu; plasma_ne_ni := plasma_ne_ni;
          plasma_model := plasma_model; plasma_rat_low := plasma_rat_low;
          plasma_rat_high := plasma_rat_high;
          plasma_power_frac := plasma_power_frac; plasma_p := plasma_p;
          plasma_gamma_min := plasma_gamma_min;
          plasma_gamma_max := plasma_gamma_max;
          plasma_kappa_frac := plasma_kappa_frac;
          plasma_kappa := plasma_kappa; plasma_w := plasma_w;
          plasma_thermal_frac := plasma_thermal_frac;
          plasma_sigma_max := plasma_sigma_max |}.

(** Lines 256-269. *)
Definition copy_slow_light_parameters (p : InputReader.t)
    (model_type : ModelType) (checkpoint : CheckpointParameters)
    : M SlowLightParameters :=
  let c := is_simulation model_type in
  slow_light_on ← value_if c (InputReader.slow_light_on p) unassigned_bool;
  when (c && slow_light_on
        && (checkpoint_sample_save checkpoint
            || checkpoint_sample_load checkpoint))
    (mthrow (BlacklightException
               "Cannot use sample checkpoints with slow light."));;
  slow_interp ←
    value_if (c && slow_light_on) (InputReader.slow_interp p) unassigned_bool;
  slow_chunk_size ←
    value_if (c && slow_light_on) (InputReader.slow_chunk_size p)
      unassigned_int;
  slow_t_start ←
    value_if (c && slow_light_on) (InputReader.slow_t_start p)
      unassigned_double;
  slow_dt ←
    value_if (c && slow_light_on) (InputReader.slow_dt p) unassigned_double;
  mret {| slow_light_on := slow_light_on; slow_interp := slow_interp;
          slow_chunk_size := slow_chunk_size; slow_t_start := slow_t_start;
          slow_dt := slow_dt |}.

(** Lines 271-280. *)
Definition copy_fallback_parameters (p : InputReader.t)
    (model_type : ModelType) (plasma : PlasmaParameters)
    : M FallbackParameters :=
  fallback_nan ← value (InputReader.fallback_nan p);
  let c := is_simulation model_type && negb fallback_nan in
  fallback_rho ← value_if c (InputReader.fallback_rho p) unassigned_double;
  fallback_pgas ←
    value_if (c && is_ti_te_beta (plasma_model plasma))
      (InputReader.fallback_pgas p) unassigned_double;
  fallback_kappa ←
    value_if (c && is_code_kappa (plasma_model plasma))
      (InputReader.fallback_kappa p) unassigned_double;
  mret {| fallback_nan := fallback_nan; fallback_rho := fallback_rho;
          fallback_pgas := fallback_pgas; fallback_kappa := fallback_kappa |}.

(** Lines 282-284. *)
Definition copy_camera_parameters (p : InputReader.t) : M CameraParameters :=
  camera_r ← value (InputReader.camera_r p);
  camera_resolution ← value (InputReader.camera_resolution p);
  mret {| camera_r := camera_r; camera_resolution := camera_resolution |}.

(** Lines 298-302: the check of kappa for polarized transport. *)
Definition check_plasma_kappa (plasma_kappa : float) : M unit :=
  if ((plasma_kappa <? 3.5) || (5.0 <? plasma_kappa))%float then
    mthrow (BlacklightException
              "Polarized transport only supports kappa in [3.5, 5].")
  else if neqb plasma_kappa 3.5 && neqb plasma_kappa 4.0
          && neqb plasma_kappa 4.5 && neqb plasma_kappa 5.0 then
    BlacklightWarning
      "Polarized transport will interpolate formulas based on kappa."
  else mret tt.

(** Lines 286-331. *)
Definition copy_image_parameters (p : InputReader.t)
    (model_type : ModelType) (plasma : PlasmaParameters) : M ImageParameters :=
  image_light ← value (InputReader.image_light p);
  image_frequency ←
    value_if image_light (InputReader.image_frequency p) unassigned_double;
  image_polarization ←
    (if image_light then
       if is_simulation model_type then
         value (InputReader.image_polarization p)
       else
         when (has_value_and_value (InputReader.image_polarization p))
           (BlacklightWarning "Ignoring image_polarization selection.");;
         mret unassigned_bool
     else
       when (has_value_and_value (InputReader.image_polarization p))
         (BlacklightWarning "Ignoring image_polarization selection.");;
       mret unassigned_bool);
  when (image_light && is_simulation model_type && image_polarization
        && neqb (plasma_kappa_frac plasma) 0.0)
    (check_plasma_kappa (plasma_kappa plasma));;
  image_time ← value (InputReader.image_time p);
  image_length ← value (InputReader.image_length p);
  image_lambda ← value (InputReader.image_lambda p);
  image_emission ← value (InputReader.image_emission p);
  image_tau ← value (InputReader.image_tau p);
  image_lambda_ave ←
    (if is_simulation model_type then value (InputReader.image_lambda_ave p)
     else
       when (has_value_and_value (InputReader.image_lambda_ave p))
         (BlacklightWarning "Ignoring image_lambda_ave selection.");;
       mret false);
  image_emission_ave ←
    (if is_simulation model_type then value (InputReader.image_emission_ave p)
     else
       when (has_value_and_value (InputReader.image_emission_ave p))
         (BlacklightWarning "Ignoring image_emission_ave selection.");;
       mret false);
  image_tau_int ←
    (if is_simulation model_type then value (InputReader.image_tau_int p)
     else
       when (has_value_and_value (InputReader.image_tau_int p))
         (BlacklightWarning "Ignoring image_tau_int selection.");;
       mret false);
  mret {| image_light := image_light; image_frequency := image_frequency;
          image_polarization := image_polarization;
          image_time := image_time; image_length := image_length;
          image_lambda := image_lambda; image_emission := image_emission;
          image_tau := image_tau; image_lambda_ave := image_lambda_ave;
          image_emission_ave := image_emission_ave;
          image_tau_int := image_tau_int |}.

Definition is_rise_or_fall (t : RenderType) : bool :=
  match t with rise | fall => true | fill => false end.

Definition is_fill (t : RenderType) : bool :=
  match t with fill => true | rise | fall => false end.

(** Lines 374-390: one pass of the feature loop. *)
Definition copy_render_feature (p : InputReader.t) (n_i n_f : nat)
    : M RenderFeature :=
  quantity ← value (InputReader.render_quantities p n_i n_f);
  type ← value (InputReader.render_types p n_i n_f);
  thresh_val ←
    value_if (is_rise_or_fall type) (InputReader.render_thresh_vals p n_i n_f)
      unassigned_double;
  opacity ←
    value_if (is_rise_or_fall type) (InputReader.render_opacities p n_i n_f)
      unassigned_double;
  min_val ←
    value_if (is_fill type) (InputReader.render_min_vals p n_i n_f)
      unassigned_double;
  max_val ←
    value_if (is_fill type) (InputReader.render_max_vals p n_i n_f)
      unassigned_double;
  tau_scale ←
    value_if (is_fill type) (InputReader.render_tau_scales p n_i n_f)
      unassigned_double;
  x_val ← value (InputReader.render_x_vals p n_i n_f);
  y_val ← value (InputReader.render_y_vals p n_i n_f);
  z_val ← value (InputReader.render_z_vals p n_i n_f);
  mret {| render_quantity := quantity; render_type := type;
          render_thresh_val := thresh_val; render_opacity := opacity;
          render_min_val := min_val; render_max_val := max_val;
          render_tau_scale := tau_scale;
          render_x_val := x_val; render_y_val := y_val;
          render_z_val := z_val |}.

(** Lines 358-391: one pass of the image loop. *)
Definition copy_render_image (p : InputReader.t) (n_i : nat)
    : M (list RenderFeature) :=
  num_features ← value (InputReader.render_num_features p n_i);
  when (num_features <=? 0)%Z
    (mthrow (BlacklightException
       "Must have positive number of features for each rendered image."));;
  for_each (copy_render_feature p n_i) (upto num_features).

(** Lines 333-393. *)
Definition copy_rendering_parameters (p : InputReader.t)
    (model_type : ModelType) : M RenderingParameters :=
  render_num_images ←
    (if is_simulation model_type then value (InputReader.render_num_images p)
     else
       when (match InputReader.render_num_images p with
             | Some n => (0 <? n)%Z
             | None => false
             end)
         (BlacklightWarning "Ignoring request for rendering.");;
       mret 0%Z);
  features ←
    (if (0 <? render_num_images)%Z then
       for_each (copy_render_image p) (upto render_num_images)
     else mret []);
  mret {| render_num_images := render_num_images;
          render_features := features |}.

(** Lines 394-395: whether an image or a rendering is selected. *)
Definition selected (image : ImageParameters) (rendering : RenderingParameters)
    : bool :=
  image_light image || image_time image || image_length image
  || image_lambda image || image_emission image || image_tau image
  || image_lambda_ave image || image_emission_ave image
  || image_tau_int image || (0 <? render_num_images rendering)%Z.

(** Lines 394-396. *)
Definition check_selection (image : ImageParameters)
    (rendering : RenderingParameters) : M unit :=
  when (negb (selected image rendering))
    (mthrow (BlacklightException "No image or rendering selected.")).

(** Lines 407-411: the checks of the block size. *)
Definition check_adaptive_block_size (camera_resolution adaptive_block_size : Z)
    : M unit :=
  when (adaptive_block_size <=? 0)%Z
    (mthrow (BlacklightException "Must have positive adaptive_block_size."));;
  when (negb (Z.rem camera_resolution adaptive_block_size =? 0)%Z)
    (mthrow (BlacklightException
               "Must have adaptive_block_size divide camera_resolution.")).

(** [frac = o_frac.value(); if (frac >= 0.0) cut = o_cut.value();] *)
Definition copy_criterion (c : bool) (o_frac o_cut : option float)
    : M (float * float) :=
  frac ← value_if c o_frac unassigned_double;
  cut ← value_if (c && (0.0 <=? frac)%float) o_cut unassigned_double;
  mret (frac, cut).

(** Lines 401-427. *)
Definition copy_adaptive_parameters (p : InputReader.t)
    (image : ImageParameters) (camera : CameraParameters)
    : M AdaptiveParameters :=
  adaptive_max_level ← value (InputReader.adaptive_max_level p);
  let c := (0 <? adaptive_max_level)%Z in
  when (c && negb (image_light image))
    (mthrow (BlacklightException "Adaptive ray tracing requires image_light."));;
  adaptive_block_size ←
    value_if c (InputReader.adaptive_block_size p) unassigned_int;
  when c (check_adaptive_block_size (camera_resolution camera)
            adaptive_block_size);;
  val ← copy_criterion c (InputReader.adaptive_val_frac p)
          (InputReader.adaptive_val_cut p);
  abs_grad ← copy_criterion c (InputReader.adaptive_abs_grad_frac p)
               (InputReader.adaptive_abs_grad_cut p);
  rel_grad ← copy_criterion c (InputReader.adaptive_rel_grad_frac p)
               (InputReader.adaptive_rel_grad_cut p);
  abs_lapl ← copy_criterion c (InputReader.adaptive_abs_lapl_frac p)
               (InputReader.adaptive_abs_lapl_cut p);
  rel_lapl ← copy_criterion c (InputReader.adaptive_rel_lapl_frac p)
               (InputReader.adaptive_rel_lapl_cut p);
  mret {| adaptive_max_level := adaptive_max_level;
          adaptive_block_size := adaptive_block_size;
          adaptive_val_frac := fst val; adaptive_val_cut := snd val;
          adaptive_abs_grad_frac := fst abs_grad;
          adaptive_abs_grad_cut := snd abs_grad;
          adaptive_rel_grad_frac := fst rel_grad;
          adaptive_rel_grad_cut := snd rel_grad;
          adaptive_abs_lapl_frac := fst abs_lapl;
          adaptive_abs_lapl_cut := snd abs_lapl;
          adaptive_rel_lapl_frac := fst rel_lapl;
          adaptive_rel_lapl_cut := snd rel_lapl |}.

(** What the constructor has set when it reaches the check of the
    selection (line 394). *)
Record BeforeSelection : Type :=
  { bs_general : GeneralParameters;
    bs_checkpoint : CheckpointParameters;
    bs_formula : FormulaParameters;
    bs_simulation : SimulationParameters;
    bs_plasma : PlasmaParameters;
    bs_slow_light : SlowLightParameters;
    bs_fallback : FallbackParameters;
    bs_camera : CameraParameters;
    bs_image : ImageParameters;
    bs_rendering : RenderingParameters }.

(** Lines 155-393. *)
Definition before_selection (p : InputReader.t) : M BeforeSelection :=
  general ← copy_general_input_data p;
  checkpoint ← copy_checkpoint_parameters p (model_type general);
  formula_parameters ← copy_formula_parameters p (model_type general);
  simulation_parameters ← copy_simulation_parameters p (model_type general);
  plasma ← copy_plasma_parameters p (model_type general);
  slow_light ← copy_slow_light_parameters p (model_type general) checkpoint;
  fallback ← copy_fallback_parameters p (model_type general) plasma;
  camera ← copy_camera_parameters p;
  image ← copy_image_parameters p (model_type general) plasma;
  rendering ← copy_rendering_parameters p (model_type general);
  mret {| bs_general := general; bs_checkpoint := checkpoint;
          bs_formula := formula_parameters;
          bs_simulation := simulation_parameters; bs_plasma := plasma;
          bs_slow_light := slow_light; bs_fallback := fallback;
          bs_camera := camera; bs_image := image;
          bs_rendering := rendering |}.

(** The constructor, lines 151-427: everything it reads from the input
    reader, with every exception and warning it raises.  The rest of it
    (lines 429-592) copies data of the geodesic integrator, allocates the
    per-level arrays and numbers the image quantities; it reads no input,
    raises no [BlacklightException] and gives no warning, and is left out
    (so is a failure of [new]). *)
Definition new_RadiationIntegrator (p : InputReader.t) : M RadiationIntegrator :=
  b ← before_selection p;
  check_selection (bs_image b) (bs_rendering b);;
  ray_flat ← value (InputReader.ray_flat p);
  adaptive ← copy_adaptive_parameters p (bs_image b) (bs_camera b);
  mret {| general := bs_general b; checkpoint := bs_checkpoint b;
          formula_parameters := bs_formula b;
          simulation_parameters := bs_simulation b;
          plasma := bs_plasma b; slow_light := bs_slow_light b;
          fallback := bs_fallback b; camera := bs_camera b;
          image := bs_image b; rendering := bs_rendering b;
          ray_flat := ray_flat; adaptive := adaptive |}.

End Constructor.

(** ** The counter of z-turnings
       (radiation_integrator/formula_coefficients.cpp, lines 792-825) *)

Module ZTurnings.

Definition MIN_DIFF_N : Z := 10.

(** The members of [RadiationIntegrator] that [FindZTurnings] reads or
    writes; [sample_pos] and [image] hold one array per refinement level. *)
Record RadiationIntegrator : Type :=
  { adaptive_level : Z;
    cut_z_turnings : Z;
    image_offset_z_turnings : Z;
    sample_pos : list (Array.t float);
    image : list (Array.t float) }.

(** The variables of the loop: its counter and the two reference
    parameters of the function. *)
Record scan_state : Type :=
  { n : Z; n_start : Z; z_turnings_count : Z }.

(** [static_cast<double>] of an [int]. *)
Definition double_of_int (i : Z) : float :=
  if (i <? 0)%Z then (- of_uint63 (Uint63.of_Z (- i)))%float
  else of_uint63 (Uint63.of_Z i).

Section Loop.

(** [z k] is [sample_pos[adaptive_level](m, k, 3)]. *)
Variable z : Z -> float.
Variable cut : Z.

Definition find_1 (n : Z) : float :=
  ((z (n + 1) - z n) * (z n - z (n - 1)))%float.

Definition find_n (n : Z) : float :=
  ((z (n + MIN_DIFF_N) - z n) * (z n - z (n - MIN_DIFF_N)))%float.

(** Whether the pass at step [n] counts a turning. *)
Definition counts (n : Z) : bool :=
  (find_1 n <? 0)%float || ((find_1 n =? 0)%float && (find_n n <? 0)%float).

(** Lines 800-820 and the [n--] of the loop's header: one pass. *)
Definition pass (st : scan_state) : scan_state :=
  let n0 := n st in
  let '(n1, count) :=
    if (find_1 n0 <? 0)%float then
      (n0 - MIN_DIFF_N, z_turnings_count st + 1)%Z
    else if (find_1 n0 =? 0)%float then
      if (find_n n0 <? 0)%float then
        (n0 - MIN_DIFF_N, z_turnings_count st + 1)%Z
      else (n0, z_turnings_count st)
    else (n0, z_turnings_count st) in
  let n_start' :=
    if (0 <=? cut)%Z && (n_start st <? 0)%Z && (count =? cut + 1)%Z then n1
    else n_start st in
  {| n := (n1 - 1)%Z; n_start := n_start'; z_turnings_count := count |}.

Lemma pass_n st :
  n (pass st) = (n st - 1)%Z \/ n (pass st) = (n st - MIN_DIFF_N - 1)%Z.
Proof. unfold pass. repeat destruct (_ : bool); simpl; auto. Qed.

(** Lines 798-822: the loop.  It returns the variables at the exit and,
    beside them, the steps it has tested, in the order it tested them. *)
Equations? scan (st : scan_state) : scan_state * list Z
  by wf (Z.to_nat (n st - 9)) lt :=
  scan st with Z_le_gt_dec MIN_DIFF_N (n st) => {
    | left _ := let r := scan (pass st) in (fst r, n st :: snd r);
    | right _ := (st, []) }.
Proof.
  destruct (pass_n st) as [E|E]; rewrite E; unfold MIN_DIFF_N in *; lia.
Qed.

End Loop.

Section Code.

Variable uninitialized : float.

Definition level_array (arrays : list (Array.t float)) (level : Z)
    : Array.t float :=
  nth (Z.to_nat level) arrays (Array.mk [] 0 0 0).

Definition sample_z (s : RadiationIntegrator) (m k : Z) : float :=
  Array.get3 uninitialized (level_array (sample_pos s) (adaptive_level s))
    (Z.to_nat m) (Z.to_nat k) 3.

(** The variables on entry to the loop; [n_start0] and [count0] are what
    the reference parameters hold at the call. *)
Definition first_state (num_steps n_start0 count0 : Z) : scan_state :=
  {| n := (num_steps - MIN_DIFF_N - 1)%Z; n_start := n_start0;
     z_turnings_count := count0 |}.

(** The steps a call tests for a turning. *)
Definition tested_steps (s : RadiationIntegrator)
    (m num_steps n_start0 count0 : Z) : list Z :=
  snd (scan (sample_z s m) (cut_z_turnings s)
         (first_state num_steps n_start0 count0)).

(** [FindZTurnings]: the object after the call and the values left in the
    reference parameters [n_start] and [z_turnings_count]. *)
Definition FindZTurnings (s : RadiationIntegrator)
    (m num_steps n_start0 count0 : Z)
    : RadiationIntegrator * Z * Z :=
  let st :=
    fst (scan (sample_z s m) (cut_z_turnings s)
           (first_state num_steps n_start0 count0)) in
  ({| adaptive_level := adaptive_level s;
      cut_z_turnings := cut_z_turnings s;
      image_offset_z_turnings := image_offset_z_turnings s;
      sample_pos := sample_pos s;
      image :=
        alter
          (fun a =>
             Array.set2 a (Z.to_nat (image_offset_z_turnings s)) (Z.to_nat m)
               (double_of_int (z_turnings_count st)))
          (Z.to_nat (adaptive_level s)) (image s) |},
   n_start st, z_turnings_count st).

End Code.

End ZTurnings.

(** ** A platform and an object to evaluate the coefficients on *)

Module Platform.

Local Open Scope float_scope.

(** The values Annex F of ISO C fixes for the <cmath> functions at zeros,
    infinities, one and NaN.  At any other argument an implementation is
    free in the last digits; the table has no entry there and answers
    NaN.  The evaluations below call the functions at arguments of the
    table only. *)
Definition special_exp (x : float) : float :=
  if is_nan x then nan
  else if x =? 0 then 1
  else if x =? neg_infinity then 0
  else if x =? infinity then infinity
  else nan.

Definition special_pow (x y : float) : float :=
  if y =? 0 then 1
  else if x =? 1 then 1
  else if is_nan x || is_nan y then nan
  else if (x =? 0) && negb (get_sign x) then
    (if y <? 0 then infinity else 0)
  else nan.

Definition special_sin (x : float) : float :=
  if x =? 0 then x else nan.

Definition special_cos (x : float) : float :=
  if x =? 0 then 1 else nan.

Definition special_atan (x : float) : float :=
  if x =? 0 then x else nan.

Definition special_atan2 (y x : float) : float :=
  if (y =? 0) && (0 <? x) then y else nan.

Definition special_values : CMath :=
  {| exp := special_exp; pow := special_pow; sin := special_sin;
     cos := special_cos; atan := special_atan; atan2 := special_atan2 |}.

(** Modelled from the spec: [RadialGeodesicCoordinate] is defined in a file
    that is not among the sources.  Section 4.A gives the radial coordinate
    as the root [r >= 0] of [r^4 - (x^2+y^2+z^2-a^2) r^2 - a^2 z^2 = 0]. *)
Definition RadialGeodesicCoordinate
    (s : FormulaCoefficients.RadiationIntegrator) (x y z : float) : float :=
  let a2 := FormulaCoefficients.bh_a s * FormulaCoefficients.bh_a s in
  let rr2 := x * x + y * y + z * z in
  let r2 :=
    0.5 * (rr2 - a2 + sqrt ((rr2 - a2) * (rr2 - a2) + 4.0 * a2 * z * z)) in
  sqrt r2.

(** Two pixels of two steps each around a non-rotating hole, the samples
    on the x axis; a flat spectrum ([formula_alpha = formula_beta = 0]), no
    falloff of the density ([formula_r0] infinite) and [formula_q = -1], so
    that every <cmath> call is at an argument of the table.  Pixel 1 is
    flagged and [fallback_nan] is set. *)
Definition on_axis (cn0 a momentum_factor : float)
  : FormulaCoefficients.RadiationIntegrator :=
  {| FormulaCoefficients.first_time := true;
     FormulaCoefficients.bh_m := 1.0;
     FormulaCoefficients.bh_a := 0.0;
     FormulaCoefficients.formula_r0 := infinity;
     FormulaCoefficients.formula_h := 0.0;
     FormulaCoefficients.formula_l0 := 1.0;
     FormulaCoefficients.formula_q := -1.0;
     FormulaCoefficients.formula_nup := 2.0;
     FormulaCoefficients.formula_cn0 := cn0;
     FormulaCoefficients.formula_alpha := 0.0;
     FormulaCoefficients.formula_a := a;
     FormulaCoefficients.formula_beta := 0.0;
     FormulaCoefficients.fallback_nan := true;
     FormulaCoefficients.momentum_factor := momentum_factor;
     FormulaCoefficients.camera_num_pix := 2;
     FormulaCoefficients.geodesic_num_steps := 2;
     FormulaCoefficients.sample_flags := Array.mk [false; true] 1 1 2;
     FormulaCoefficients.sample_num := Array.mk [2%Z; 1%Z] 1 1 2;
     FormulaCoefficients.sample_pos :=
       Array.mk [0.0; 10.0; 0.0; 0.0;  1.0; 12.0; 0.0; 0.0;
                 0.0; 20.0; 0.0; 0.0;  0.0; 0.0; 0.0; 0.0] 2 2 4;
     FormulaCoefficients.sample_dir :=
       Array.mk [-1.0; 1.0; 0.0; 0.0;  -1.0; 1.0; 0.0; 0.0;
                 -1.0; 1.0; 0.0; 0.0;  0.0; 0.0; 0.0; 0.0] 2 2 4;
     FormulaCoefficients.j_i := Array.mk [] 0 0 0;
     FormulaCoefficients.alpha_i := Array.mk [] 0 0 0 |}.

Definition emitting : FormulaCoefficients.RadiationIntegrator :=
  on_axis 0.5 0.25 4.0.

(** No emission, and a frequency whose square underflows. *)
Definition dark_and_slow : FormulaCoefficients.RadiationIntegrator :=
  on_axis 0.0 0.25 0x1p-600.

Definition run (s : FormulaCoefficients.RadiationIntegrator)
  : FormulaCoefficients.RadiationIntegrator :=
  @FormulaCoefficients.CalculateFormulaCoefficients special_values
    RadialGeodesicCoordinate 0.0 s.

End Platform.

(** ** Input files to evaluate the constructor on *)

Module Inputs.

Definition no_features (n_i n_f : nat) : option float := None.

(** A simulation run of a 64 x 64 polarized image with kappa-distribution
    electrons; what the properties below vary is a parameter. *)
Definition simulation_input (slow_light_on checkpoint_sample_save : bool)
    (plasma_kappa : float) (adaptive_max_level adaptive_block_size : Z)
    : InputReader.t :=
  {| InputReader.model_type := Some simulation;
     InputReader.num_threads := Some 1%Z;
     InputReader.simulation_a := Some 0.9375%float;
     InputReader.formula_spin := None;
     InputReader.checkpoint_sample_save := Some checkpoint_sample_save;
     InputReader.checkpoint_sample_load := Some false;
     InputReader.checkpoint_sample_file := Some "sample.dat"%string;
     InputReader.formula_mass := None;
     InputReader.formula_r0 := None;
     InputReader.formula_h := None;
     InputReader.formula_l0 := None;
     InputReader.formula_q := None;
     InputReader.formula_nup := None;
     InputReader.formula_cn0 := None;
     InputReader.formula_alpha := None;
     InputReader.formula_a := None;
     InputReader.formula_beta := None;
     InputReader.simulation_coord := Some 0%Z;
     InputReader.simulation_m_msun := Some 6.5e9%float;
     InputReader.simulation_rho_cgs := Some 1.0%float;
     InputReader.simulation_interp := Some false;
     InputReader.simulation_block_interp := None;
     InputReader.plasma_mu := Some 0.5%float;
     InputReader.plasma_ne_ni := Some 1.0%float;
     InputReader.plasma_model := Some ti_te_beta;
     InputReader.plasma_rat_low := Some 1.0%float;
     InputReader.plasma_rat_high := Some 10.0%float;
     InputReader.plasma_power_frac := Some 0.0%float;
     InputReader.plasma_p := None;
     InputReader.plasma_gamma_min := None;
     InputReader.plasma_gamma_max := None;
     InputReader.plasma_kappa_frac := Some 0.5%float;
     InputReader.plasma_kappa := Some plasma_kappa;
     InputReader.plasma_w := Some 0.0625%float;
     InputReader.plasma_sigma_max := Some 1.0%float;
     InputReader.slow_light_on := Some slow_light_on;
     InputReader.slow_interp := Some false;
     InputReader.slow_chunk_size := Some 1%Z;
     InputReader.slow_t_start := Some 0.0%float;
     InputReader.slow_dt := Some 1.0%float;
     InputReader.fallback_nan := Some true;
     InputReader.fallback_rho := None;
     InputReader.fallback_pgas := None;
     InputReader.fallback_kappa := None;
     InputReader.camera_r := Some 100.0%float;
     InputReader.camera_resolution := Some 64%Z;
     InputReader.image_light := Some true;
     InputReader.image_frequency := Some 230e9%float;
     InputReader.image_polarization := Some true;
     InputReader.image_time := Some false;
     InputReader.image_length := Some false;
     InputReader.image_lambda := Some false;
     InputReader.image_emission := Some false;
     InputReader.image_tau := Some false;
     InputReader.image_lambda_ave := Some false;
     InputReader.image_emission_ave := Some false;
     InputReader.image_tau_int := Some false;
     InputReader.render_num_images := Some 0%Z;
     InputReader.render_num_features := fun _ => None;
     InputReader.render_quantities := fun _ _ => None;
     InputReader.render_types := fun _ _ => None;
     InputReader.render_thresh_vals := no_features;
     InputReader.render_min_vals := no_features;
     InputReader.render_max_vals := no_features;
     InputReader.render_opacities := no_features;
     InputReader.render_tau_scales := no_features;
     InputReader.render_x_vals := no_features;
     InputReader.render_y_vals := no_features;
     InputReader.render_z_vals := no_features;
     InputReader.ray_flat := Some false;
     InputReader.adaptive_max_level := Some adaptive_max_level;
     InputReader.adaptive_block_size := Some adaptive_block_size;
     InputReader.adaptive_val_frac := Some (-1.0)%float;
     InputReader.adaptive_val_cut := None;
     InputReader.adaptive_abs_grad_frac := Some (-1.0)%float;
     InputReader.adaptive_abs_grad_cut := None;
     InputReader.adaptive_rel_grad_frac := Some (-1.0)%float;
     InputReader.adaptive_rel_grad_cut := None;
     InputReader.adaptive_abs_lapl_frac := Some (-1.0)%float;
     InputReader.adaptive_abs_lapl_cut := None;
     InputReader.adaptive_rel_lapl_frac := Some (-1.0)%float;
     InputReader.adaptive_rel_lapl_cut := None |}.

(** A formula run; the input selects [image_light] and [image_lambda_ave]
    as given and nothing else. *)
Definition formula_input (image_light image_lambda_ave : bool)
    : InputReader.t :=
  {| InputReader.model_type := Some formula;
     InputReader.num_threads := Some 1%Z;
     InputReader.simulation_a := None;
     InputReader.formula_spin := Some 0.0%float;
     InputReader.checkpoint_sample_save := None;
     InputReader.checkpoint_sample_load := None;
     InputReader.checkpoint_sample_file := None;
     InputReader.formula_mass := Some 1.0%float;
     InputReader.formula_r0 := Some 10.0%float;
     InputReader.formula_h := Some 0.0%float;
     InputReader.formula_l0 := Some 0.0%float;
     InputReader.formula_q := Some 0.5%float;
     InputReader.formula_nup := Some 230e9%float;
     InputReader.formula_cn0 := Some 0.5%float;
     InputReader.formula_alpha := Some (-3.0)%float;
     InputReader.formula_a := Some 0.0%float;
     InputReader.formula_beta := Some 2.5%float;
     InputReader.simulation_coord := None;
     InputReader.simulation_m_msun := None;
     InputReader.simulation_rho_cgs := None;
     InputReader.simulation_interp := None;
     InputReader.simulation_block_interp := None;
     InputReader.plasma_mu := None;
     InputReader.plasma_ne_ni := None;
     InputReader.plasma_model := None;
     InputReader.plasma_rat_low := None;
     InputReader.plasma_rat_high := None;
     InputReader.plasma_power_frac := None;
     InputReader.plasma_p := None;
     InputReader.plasma_gamma_min := None;
     InputReader.plasma_gamma_max := None;
     InputReader.plasma_kappa_frac := None;
     InputReader.plasma_kappa := None;
     InputReader.plasma_w := None;
     InputReader.plasma_sigma_max := None;
     InputReader.slow_light_on := None;
     InputReader.slow_interp := None;
     InputReader.slow_chunk_size := None;
     InputReader.slow_t_start := None;
     InputReader.slow_dt := None;
     InputReader.fallback_nan := Some true;
     InputReader.fallback_rho := None;
     InputReader.fallback_pgas := None;
     InputReader.fallback_kappa := None;
     InputReader.camera_r := Some 100.0%float;
     InputReader.camera_resolution := Some 64%Z;
     InputReader.image_light := Some image_light;
     InputReader.image_frequency := Some 230e9%float;
     InputReader.image_polarization := None;
     InputReader.image_time := Some false;
     InputReader.image_length := Some false;
     InputReader.image_lambda := Some false;
     InputReader.image_emission := Some false;
     InputReader.image_tau := Some false;
     InputReader.image_lambda_ave := Some image_lambda_ave;
     InputReader.image_emission_ave := None;
     InputReader.image_tau_int := None;
     InputReader.render_num_images := None;
     InputReader.render_num_features := fun _ => None;
     InputReader.render_quantities := fun _ _ => None;
     InputReader.render_types := fun _ _ => None;
     InputReader.render_thresh_vals := no_features;
     InputReader.render_min_vals := no_features;
     InputReader.render_max_vals := no_features;
     InputReader.render_opacities := no_features;
     InputReader.render_tau_scales := no_features;
     InputReader.render_x_vals := no_features;
     InputReader.render_y_vals := no_features;
     InputReader.render_z_vals := no_features;
     InputReader.ray_flat := Some false;
     InputReader.adaptive_max_level := Some 0%Z;
     InputReader.adaptive_block_size := None;
     InputReader.adaptive_val_frac := None;
     InputReader.adaptive_val_cut := None;
     InputReader.adaptive_abs_grad_frac := None;
     InputReader.adaptive_abs_grad_cut := None;
     InputReader.adaptive_rel_grad_frac := None;
     InputReader.adaptive_rel_grad_cut := None;
     InputReader.adaptive_abs_lapl_frac := None;
     InputReader.adaptive_abs_lapl_cut := None;
     InputReader.adaptive_rel_lapl_frac := None;
     InputReader.adaptive_rel_lapl_cut := None |}.

End Inputs.

(** ** A trajectory to count the z-turnings of *)

Module Trajectory.

(** One ray of 60 samples whose height rises to step 30 and falls after
    it. *)
Definition height (k : nat) : float :=
  if (k <? 30)%nat then of_uint63 (Uint63.of_Z (Z.of_nat k))
  else of_uint63 (Uint63.of_Z (60 - Z.of_nat k)).

Definition samples : Array.t float :=
  Array.mk
    (flat_map (fun k => [0.0; 0.0; 0.0; height k]%float) (seq 0 60)) 1 60 4.

Definition integrator : ZTurnings.RadiationIntegrator :=
  {| ZTurnings.adaptive_level := 0;
     ZTurnings.cut_z_turnings := 0;
     ZTurnings.image_offset_z_turnings := 1;
     ZTurnings.sample_pos := [samples];
     ZTurnings.image := [Array.mk [0.0; 0.0]%float 1 2 1] |}.

End Trajectory.

(** ** An input file with a rendering *)

Module RenderingInput.

(** A simulation run that saves a sample checkpoint and asks for the
    image of the time and for one rendered image, each of its features a
    filled region; what the properties below vary is a parameter. *)
Definition input (checkpoint_sample_load image_light : bool)
    (num_features adaptive_max_level : Z) : InputReader.t :=
  {| InputReader.model_type := Some simulation;
     InputReader.num_threads := Some 1%Z;
     InputReader.simulation_a := Some 0.9375%float;
     InputReader.formula_spin := None;
     InputReader.checkpoint_sample_save := Some true;
     InputReader.checkpoint_sample_load := Some checkpoint_sample_load;
     InputReader.checkpoint_sample_file := Some "sample.dat"%string;
     InputReader.formula_mass := None;
     InputReader.formula_r0 := None;
     InputReader.formula_h := None;
     InputReader.formula_l0 := None;
     InputReader.formula_q := None;
     InputReader.formula_nup := None;
     InputReader.formula_cn0 := None;
     InputReader.formula_alpha := None;
     InputReader.formula_a := None;
     InputReader.formula_beta := None;
     InputReader.simulation_coord := Some 0%Z;
     InputReader.simulation_m_msun := Some 6.5e9%float;
     InputReader.simulation_rho_cgs := Some 1.0%float;
     InputReader.simulation_interp := Some false;
     InputReader.simulation_block_interp := None;
     InputReader.plasma_mu := Some 0.5%float;
     InputReader.plasma_ne_ni := Some 1.0%float;
     InputReader.plasma_model := Some ti_te_beta;
     InputReader.plasma_rat_low := Some 1.0%float;
     InputReader.plasma_rat_high := Some 10.0%float;
     InputReader.plasma_power_frac := Some 0.0%float;
     InputReader.plasma_p := None;
     InputReader.plasma_gamma_min := None;
     InputReader.plasma_gamma_max := None;
     InputReader.plasma_kappa_frac := Some 0.5%float;
     InputReader.plasma_kappa := Some 4.0%float;
     InputReader.plasma_w := Some 0.0625%float;
     InputReader.plasma_sigma_max := Some 1.0%float;
     InputReader.slow_light_on := Some false;
     InputReader.slow_interp := Some false;
     InputReader.slow_chunk_size := Some 1%Z;
     InputReader.slow_t_start := Some 0.0%float;
     InputReader.slow_dt := Some 1.0%float;
     InputReader.fallback_nan := Some true;
     InputReader.fallback_rho := None;
     InputReader.fallback_pgas := None;
     InputReader.fallback_kappa := None;
     InputReader.camera_r := Some 100.0%float;
     InputReader.camera_resolution := Some 64%Z;
     InputReader.image_light := Some image_light;
     InputReader.image_frequency := Some 230e9%float;
     InputReader.image_polarization := Some true;
     InputReader.image_time := Some true;
     InputReader.image_length := Some false;
     InputReader.image_lambda := Some false;
     InputReader.image_emission := Some false;
     InputReader.image_tau := Some false;
     InputReader.image_lambda_ave := Some false;
     InputReader.image_emission_ave := Some false;
     InputReader.image_tau_int := Some false;
     InputReader.render_num_images := Some 1%Z;
     InputReader.render_num_features := fun _ => Some num_features;
     InputReader.render_quantities := fun _ _ => Some 0%Z;
     InputReader.render_types := fun _ _ => Some fill;
     InputReader.render_thresh_vals := Inputs.no_features;
     InputReader.render_min_vals := fun _ _ => Some 0.0%float;
     InputReader.render_max_vals := fun _ _ => Some 1.0%float;
     InputReader.render_opacities := Inputs.no_features;
     InputReader.render_tau_scales := fun _ _ => Some 1.0%float;
     InputReader.render_x_vals := fun _ _ => Some 0.0%float;
     InputReader.render_y_vals := fun _ _ => Some 0.0%float;
     InputReader.render_z_vals := fun _ _ => Some 1.0%float;
     InputReader.ray_flat := Some false;
     InputReader.adaptive_max_level := Some adaptive_max_level;
     InputReader.adaptive_block_size := Some 16%Z;
     InputReader.adaptive_val_frac := Some (-1.0)%float;
     InputReader.adaptive_val_cut := None;
     InputReader.adaptive_abs_grad_frac := Some (-1.0)%float;
     InputReader.adaptive_abs_grad_cut := None;
     InputReader.adaptive_rel_grad_frac := Some (-1.0)%float;
     InputReader.adaptive_rel_grad_cut := None;
     InputReader.adaptive_abs_lapl_frac := Some (-1.0)%float;
     InputReader.adaptive_abs_lapl_cut := None;
     InputReader.adaptive_rel_lapl_frac := Some (-1.0)%float;
     InputReader.adaptive_rel_lapl_cut := None |}.

End RenderingInput.

(** ** The coefficients on a later call *)

Module Repeated.

(** [Integrate] ends each call with [first_time = false] (line 782); the
    next call of [CalculateFormulaCoefficients] then keeps the arrays it
    finds. *)
Definition clear_first_time (s : FormulaCoefficients.RadiationIntegrator)
  : FormulaCoefficients.RadiationIntegrator :=
  FormulaCoefficients.mkRadiationIntegrator false
    (FormulaCoefficients.bh_m s) (FormulaCoefficients.bh_a s)
    (FormulaCoefficients.formula_r0 s) (FormulaCoefficients.formula_h s)
    (FormulaCoefficients.formula_l0 s) (FormulaCoefficients.formula_q s)
    (FormulaCoefficients.formula_nup s) (FormulaCoefficients.formula_cn0 s)
    (FormulaCoefficients.formula_alpha s) (FormulaCoefficients.formula_a s)
    (FormulaCoefficients.formula_beta s) (FormulaCoefficients.fallback_nan s)
    (FormulaCoefficients.momentum_factor s)
    (FormulaCoefficients.camera_num_pix s)
    (FormulaCoefficients.geodesic_num_steps s)
    (FormulaCoefficients.sample_flags s) (FormulaCoefficients.sample_num s)
    (FormulaCoefficients.sample_pos s) (FormulaCoefficients.sample_dir s)
    (FormulaCoefficients.j_i s) (FormulaCoefficients.alpha_i s).

(** What the pixel loop reads of the object: every member but
    [first_time] and the two coefficient arrays. *)
Definition same_inputs (s1 s2 : FormulaCoefficients.RadiationIntegrator)
  : Prop :=
  FormulaCoefficients.with_coefficients (clear_first_time s1)
    (Array.mk [] 0 0 0) (Array.mk [] 0 0 0)
  = FormulaCoefficients.with_coefficients (clear_first_time s2)
      (Array.mk [] 0 0 0) (Array.mk [] 0 0 0).

End Repeated.

(** ** The end of the constructor: image quantities and adaptive blocks
       (radiation_integrator/formula_coefficients.cpp, lines 498-591) *)

Module Allocation.

Import Constructor.

(** The counter of the image quantities and the offsets of the
    quantities that come after the light. *)
Record ImageLayout : Type :=
  { image_num_quantities : Z;
    image_offset_time : Z;
    image_offset_length : Z;
    image_offset_lambda : Z;
    image_offset_emission : Z;
    image_offset_tau : Z;
    image_offset_lambda_ave : Z;
    image_offset_emission_ave : Z;
    image_offset_tau_int : Z }.

(** Lines 502-513. *)
Definition count_light (model_type : ModelType) (image : ImageParameters)
    (l : ImageLayout) : ImageLayout :=
  if image_light image then
    let q :=
      (image_num_quantities l
       + (if is_simulation model_type && image_polarization image then 4
          else 1))%Z in
    {| image_num_quantities := q; image_offset_time := q;
       image_offset_length := q; image_offset_lambda := q;
       image_offset_emission := q; image_offset_tau := q;
       image_offset_lambda_ave := q; image_offset_emission_ave := q;
       image_offset_tau_int := q |}
  else l.

(** Lines 514-524. *)
Definition count_time (image : ImageParameters) (l : ImageLayout)
    : ImageLayout :=
  if image_time image then
    let q := (image_num_quantities l + 1)%Z in
    {| image_num_quantities := q;
       image_offset_time := image_offset_time l;
       image_offset_length := q; image_offset_lambda := q;
       image_offset_emission := q; image_offset_tau := q;
       image_offset_lambda_ave := q; image_offset_emission_ave := q;
       image_offset_tau_int := q |}
  else l.

(** Lines 525-534. *)
Definition count_length (image : ImageParameters) (l : ImageLayout)
    : ImageLayout :=
  if image_length image then
    let q := (image_num_quantities l + 1)%Z in
    {| image_num_quantities := q;
       image_offset_time := image_offset_time l;
       image_offset_length := image_offset_length l;
       image_offset_lambda := q; image_offset_emission := q;
       image_offset_tau := q; image_offset_lambda_ave := q;
       image_offset_emission_ave := q; image_offset_tau_int := q |}
  else l.

(** Lines 535-543. *)
Definition count_lambda (image : ImageParameters) (l : ImageLayout)
    : ImageLayout :=
  if image_lambda image then
    let q := (image_num_quantities l + 1)%Z in
    {| image_num_quantities := q;
       image_offset_time := image_offset_time l;
       image_offset_length := image_offset_length l;
       image_offset_lambda := image_offset_lambda l;
       image_offset_emission := q; image_offset_tau := q;
       image_offset_lambda_ave := q; image_offset_emission_ave := q;
       image_offset_tau_int := q |}
  else l.

(** Lines 544-551. *)
Definition count_emission (image : ImageParameters) (l : ImageLayout)
    : ImageLayout :=
  if image_emission image then
    let q := (image_num_quantities l + 1)%Z in
    {| image_num_quantities := q;
       image_offset_time := image_offset_time l;
       image_offset_length := image_offset_length l;
       image_offset_lambda := image_offset_lambda l;
       image_offset_emission := image_offset_emission l;
       image_offset_tau := q; image_offset_lambda_ave := q;
       image_offset_emission_ave := q; image_offset_tau_int := q |}
  else l.

(** Lines 552-558. *)
Definition count_tau (image : ImageParameters) (l : ImageLayout)
    : ImageLayout :=
  if image_tau image then
    let q := (image_num_quantities l + 1)%Z in
    {| image_num_quantities := q;
       image_offset_time := image_offset_time l;
       image_offset_length := image_offset_length l;
       image_offset_lambda := image_offset_lambda l;
       image_offset_emission := image_offset_emission l;
       image_offset_tau := image_offset_tau l;
       image_offset_lambda_ave := q; image_offset_emission_ave := q;
       image_offset_tau_int := q |}
  else l.

(** Lines 559-564. *)
Definition count_lambda_ave (num_cell_values : Z) (image : ImageParameters)
    (l : ImageLayout) : ImageLayout :=
  if image_lambda_ave image then
    let q := (image_num_quantities l + num_cell_values)%Z in
    {| image_num_quantities := q;
       image_offset_time := image_offset_time l;
       image_offset_length := image_offset_length l;
       image_offset_lambda := image_offset_lambda l;
       image_offset_emission := image_offset_emission l;
       image_offset_tau := image_offset_tau l;
       image_offset_lambda_ave := image_offset_lambda_ave l;
       image_offset_emission_ave := q; image_offset_tau_int := q |}
  else l.

(** Lines 565-569. *)
Definition count_emission_ave (num_cell_values : Z) (image : ImageParameters)
    (l : ImageLayout) : ImageLayout :=
  if image_emission_ave image then
    let q := (image_num_quantities l + num_cell_values)%Z in
    {| image_num_quantities := q;
       image_offset_time := image_offset_time l;
       image_offset_length := image_offset_length l;
       image_offset_lambda := image_offset_lambda l;
       image_offset_emission := image_offset_emission l;
       image_offset_tau := image_offset_tau l;
       image_offset_lambda_ave := image_offset_lambda_ave l;
       image_offset_emission_ave := image_offset_emission_ave l;
       image_offset_tau_int := q |}
  else l.

(** Lines 570-571. *)
Definition count_tau_int (num_cell_values : Z) (image : ImageParameters)
    (l : ImageLayout) : ImageLayout :=
  if image_tau_int image then
    let q := (image_num_quantities l + num_cell_values)%Z in
    {| image_num_quantities := q;
       image_offset_time := image_offset_time l;
       image_offset_length := image_offset_length l;
       image_offset_lambda := image_offset_lambda l;
       image_offset_emission := image_offset_emission l;
       image_offset_tau := image_offset_tau l;
       image_offset_lambda_ave := image_offset_lambda_ave l;
       image_offset_emission_ave := image_offset_emission_ave l;
       image_offset_tau_int := image_offset_tau_int l |}
  else l.

(** Lines 501-571.  radiation_integrator.hpp and blacklight.hpp are not
    among the sources: what the nine members hold before line 502 and the
    constant [CellValues::num_cell_values] are parameters. *)
Definition number_image_quantities (num_cell_values : Z)
    (model_type : ModelType) (image : ImageParameters) (l : ImageLayout)
    : ImageLayout :=
  count_tau_int num_cell_values image
    (count_emission_ave num_cell_values image
       (count_lambda_ave num_cell_values image
          (count_tau image
             (count_emission image
                (count_lambda image
                   (count_length image
                      (count_time image
                         (count_light model_type image l)))))))).

(** The width of a quantity in the image: the number of planes it takes. *)
Definition width (selected : bool) (planes : Z) : Z :=
  if selected then planes else 0%Z.

(** The nine members before line 502 when all of them hold [first]; the
    light, which has no offset of its own, then starts at [first]. *)
Definition starting_at (first : Z) : ImageLayout :=
  {| image_num_quantities := first; image_offset_time := first;
     image_offset_length := first; image_offset_lambda := first;
     image_offset_emission := first; image_offset_tau := first;
     image_offset_lambda_ave := first; image_offset_emission_ave := first;
     image_offset_tau_int := first |}.

(** What lines 577-591 assign: the members of the adaptive refinement,
    the length of [refinement_flags[0]] and the dimensions of each array
    of [image_blocks]. *)
Record AdaptiveBlocks : Type :=
  { linear_root_blocks : Z;
    block_num_pix : Z;
    block_counts_0 : Z;
    refinement_flags_0 : Z;
    image_blocks : list (list Z) }.

(** An [int] of 32 bits; a product that does not fit is kept modulo
    [2^32] (the standard leaves the overflow undefined, and this is what
    the multiplication of the usual processors gives). *)
Definition wrap_int (i : Z) : Z := ((i + 2 ^ 31) mod 2 ^ 32 - 2 ^ 31)%Z.

Definition int_mul (i j : Z) : Z := wrap_int (i * j).

(** Lines 577-591; [int / int] truncates.  With [adaptive_max_level <= 0]
    the members stay unassigned. *)
Definition allocate_adaptive (s : RadiationIntegrator) : option AdaptiveBlocks :=
  if (0 <? adaptive_max_level (adaptive s))%Z then
    let size := adaptive_block_size (adaptive s) in
    let linear_root_blocks :=
      (camera_resolution (camera s) ÷ size)%Z in
    let block_counts_0 := int_mul linear_root_blocks linear_root_blocks in
    Some
      {| linear_root_blocks := linear_root_blocks;
         block_num_pix := int_mul size size;
         block_counts_0 := block_counts_0;
         refinement_flags_0 := block_counts_0;
       image_blocks :=
           map
             (fun thread =>
                if is_simulation (model_type (general s))
                   && image_polarization (image s)
                then [4%Z; size; size] else [size; size])
             (Exceptions.upto (num_threads (general s))) |}
  else None.

End Allocation.

(** ** The top-level function of the radiation integrator
       (radiation_integrator/formula_coefficients.cpp, lines 715-788) *)

Module Integration.

Import Constructor.

(** The members [Integrate] writes. *)
Record Progress : Type :=
  { first_time : bool; adaptive_level : Z; adaptive_num_levels : Z }.

(** The member functions [Integrate] calls; all but
    [CalculateFormulaCoefficients] are defined in files that are not among
    the sources.  A call is recorded in the order it is made; what it does
    to the arrays is not modelled, and it is taken to leave alone the
    members [Integrate] reads. *)
Inductive call : Type :=
  | ObtainGridData
  | CalculateSimulationSampling (snapshot : Z)
  | LoadSampling
  | SaveSampling
  | SampleSimulation
  | CalculateSimulationCoefficients
  | IntegratePolarizedRadiation
  | IntegrateUnpolarizedRadiation
  | Render
  | CalculateFormulaCoefficients
  | CheckAdaptiveRefinement.

(** What a call of [Integrate] leaves: the calls it made, the members it
    wrote, the two timers and the value it returned. *)
Record outcome : Type :=
  { calls : list call;
    progress : Progress;
    time_sample : float;
    time_integrate : float;
    returned : bool }.

(** [if (b) f();] *)
Definition call_if (b : bool) (f : call) : list call :=
  if b then [f] else [].

(** Lines 727-742: the calls between the two readings of the clock. *)
Definition sample_calls (s : RadiationIntegrator) (pr : Progress)
    (snapshot : Z) : list call :=
  call_if (first_time pr) ObtainGridData
  ++ (if (0 <? adaptive_level pr)%Z then
        [CalculateSimulationSampling snapshot]
      else if first_time pr then
        (if checkpoint_sample_load (checkpoint s) then [LoadSampling]
         else [CalculateSimulationSampling snapshot])
        ++ call_if (checkpoint_sample_save (checkpoint s)) SaveSampling
      else call_if (slow_light_on (slow_light s))
             (CalculateSimulationSampling snapshot))
  ++ [SampleSimulation].

(** Lines 750-757. *)
Definition simulation_calls (s : RadiationIntegrator) : list call :=
  [CalculateSimulationCoefficients]
  ++ (if image_light (image s) && image_polarization (image s) then
        [IntegratePolarizedRadiation]
      else
        call_if
          (image_light (image s) || image_time (image s)
           || image_length (image s) || image_lambda (image s)
           || image_emission (image s) || image_tau (image s)
           || image_lambda_ave (image s) || image_emission_ave (image s)
           || image_tau_int (image s))
          IntegrateUnpolarizedRadiation)
  ++ call_if (0 <? render_num_images (rendering s))%Z Render.

(** Lines 715-788.  [time_sample] and [time_integrate] are what the two
    pointers hold at the call; [omp_get_wtime k] is the [k]-th reading of
    the clock in the call and [adaptive_check] what
    [CheckAdaptiveRefinement] returns when it is called. *)
Definition Integrate (s : RadiationIntegrator) (pr : Progress)
    (snapshot : Z) (time_sample time_integrate : float)
    (omp_get_wtime : nat -> float) (adaptive_check : bool) : outcome :=
  let simulation_model := is_simulation (model_type (general s)) in
  (* Prepare timers; sample simulation data *)
  let time_sample_start :=
    if simulation_model then omp_get_wtime 0 else 0.0%float in
  let time_sample_end :=
    if simulation_model then omp_get_wtime 1 else 0.0%float in
  (* Integrate according to simulation data or to formula *)
  let time_integrate_start :=
    if simulation_model then time_sample_end else omp_get_wtime 0 in
  let model_calls :=
    if simulation_model then
      sample_calls s pr snapshot ++ simulation_calls s
    else [CalculateFormulaCoefficients; IntegrateUnpolarizedRadiation] in
  (* Check for adaptive refinement *)
  let adaptive_complete :=
    if (0 <? adaptive_max_level (adaptive s))%Z then adaptive_check
    else true in
  let time_integrate_end :=
    omp_get_wtime (if simulation_model then 2 else 1) in
  {| calls :=
       model_calls
       ++ call_if (0 <? adaptive_max_level (adaptive s))%Z
            CheckAdaptiveRefinement;
     progress :=
       {| first_time := false;
          adaptive_level :=
            if adaptive_complete then 0%Z else (adaptive_level pr + 1)%Z;
          adaptive_num_levels :=
            if adaptive_complete then adaptive_level pr
            else adaptive_num_levels pr |};
     time_sample :=
       (time_sample + (time_sample_end - time_sample_start))%float;
     time_integrate :=
       (time_integrate + (time_integrate_end - time_integrate_start))%float;
     returned := adaptive_complete |}.

(** Calls of [Integrate] one after the other on one snapshot, each passed
    the timers the one before left; [clocks] and [checks] give each call
    its readings of the clock and the answer of
    [CheckAdaptiveRefinement]. *)
Fixpoint Integrate_each (s : RadiationIntegrator) (pr : Progress)
    (snapshot : Z) (time_sample time_integrate : float)
    (clocks : list (nat -> float)) (checks : list bool) : list outcome :=
  match clocks, checks with
  | clock :: clocks', check :: checks' =>
      let o := Integrate s pr snapshot time_sample time_integrate clock check in
      o :: Integrate_each s (progress o) snapshot (Integration.time_sample o)
             (Integration.time_integrate o) clocks' checks'
  | _, _ => []
  end.

End Integration.

(** ** Rays that rise or fall all the way *)

Module Heights.

Local Open Scope float_scope.

(** [x > 0] is false of the IEEE 754 reading of a double: it is NaN, a
    zero of either sign, or negative. *)
Definition SFnp (f : spec_float) : Prop :=
  match f with
  | S754_infinity false | S754_finite false _ _ => False
  | _ => True
  end.

(** The heights [z 0 .. z (num_steps - 1)] never go down, or never go up
    (by [<=] on doubles, so that none of them is NaN). *)
Definition non_decreasing (z : Z -> float) (num_steps : Z) : Prop :=
  forall j k, (0 <= j)%Z -> (j <= k)%Z -> (k < num_steps)%Z ->
    (z j <=? z k) = true.

Definition non_increasing (z : Z -> float) (num_steps : Z) : Prop :=
  forall j k, (0 <= j)%Z -> (j <= k)%Z -> (k < num_steps)%Z ->
    (z k <=? z j) = true.

(** The same of a given ray, by comparing every pair of its heights. *)
Definition is_non_decreasing (z : Z -> float) (num_steps : Z) : bool :=
  forallb
    (fun j =>
       forallb (fun k => z (Z.of_nat j) <=? z (Z.of_nat k))
         (seq j (Z.to_nat num_steps - j)))
    (seq 0 (Z.to_nat num_steps)).

(** One ray of 25 samples whose height rises by one at every step. *)
Definition rising_samples : Array.t float :=
  Array.mk
    (flat_map
       (fun k => [0.0; 0.0; 0.0; of_uint63 (Uint63.of_Z (Z.of_nat k))])
       (seq 0 25)) 1 25 4.

Definition rising : ZTurnings.RadiationIntegrator :=
  {| ZTurnings.adaptive_level := 0;
     ZTurnings.cut_z_turnings := 0;
     ZTurnings.image_offset_z_turnings := 1;
     ZTurnings.sample_pos := [rising_samples];
     ZTurnings.image := [Array.mk [0.0; 0.0] 1 2 1] |}.

End Heights.

(** ** Parts of the constructor that give no warning *)

Module Warnings.

(** The statements [m] give no warning when they run to their end. *)
Definition silent {A : Type} (m : Exceptions.M A) : Prop :=
  forall w a, m = (w, inr a) -> w = [].

End Warnings.

(** ** The options a formula run reads *)

Module FormulaOptions.

(** Two inputs give the same value, or both none, to every option the
    constructor reads for the formula model other than to warn that it
    ignores it. *)
Definition same (p q : InputReader.t) : Prop :=
  InputReader.model_type p = InputReader.model_type q
  /\ InputReader.num_threads p = InputReader.num_threads q
  /\ InputReader.formula_spin p = InputReader.formula_spin q
  /\ InputReader.formula_mass p = InputReader.formula_mass q
  /\ InputReader.formula_r0 p = InputReader.formula_r0 q
  /\ InputReader.formula_h p = InputReader.formula_h q
  /\ InputReader.formula_l0 p = InputReader.formula_l0 q
  /\ InputReader.formula_q p = InputReader.formula_q q
  /\ InputReader.formula_nup p = InputReader.formula_nup q
  /\ InputReader.formula_cn0 p = InputReader.formula_cn0 q
  /\ InputReader.formula_alpha p = InputReader.formula_alpha q
  /\ InputReader.formula_a p = InputReader.formula_a q
  /\ InputReader.formula_beta p = InputReader.formula_beta q
  /\ InputReader.fallback_nan p = InputReader.fallback_nan q
  /\ InputReader.camera_r p = InputReader.camera_r q
  /\ InputReader.camera_resolution p = InputReader.camera_resolution q
  /\ InputReader.image_light p = InputReader.image_light q
  /\ InputReader.image_frequency p = InputReader.image_frequency q
  /\ InputReader.image_time p = InputReader.image_time q
  /\ InputReader.image_length p = InputReader.image_length q
  /\ InputReader.image_lambda p = InputReader.image_lambda q
  /\ InputReader.image_emission p = InputReader.image_emission q
  /\ InputReader.image_tau p = InputReader.image_tau q
  /\ InputReader.ray_flat p = InputReader.ray_flat q
  /\ InputReader.adaptive_max_level p = InputReader.adaptive_max_level q
  /\ InputReader.adaptive_block_size p = InputReader.adaptive_block_size q
  /\ InputReader.adaptive_val_frac p = InputReader.adaptive_val_frac q
  /\ InputReader.adaptive_val_cut p = InputReader.adaptive_val_cut q
  /\ InputReader.adaptive_abs_grad_frac p = InputReader.adaptive_abs_grad_frac q
  /\ InputReader.adaptive_abs_grad_cut p = InputReader.adaptive_abs_grad_cut q
  /\ InputReader.adaptive_rel_grad_frac p = InputReader.adaptive_rel_grad_frac q
  /\ InputReader.adaptive_rel_grad_cut p = InputReader.adaptive_rel_grad_cut q
  /\ InputReader.adaptive_abs_lapl_frac p = InputReader.adaptive_abs_lapl_frac q
  /\ InputReader.adaptive_abs_lapl_cut p = InputReader.adaptive_abs_lapl_cut q
  /\ InputReader.adaptive_rel_lapl_frac p = InputReader.adaptive_rel_lapl_frac q
  /\ InputReader.adaptive_rel_lapl_cut p = InputReader.adaptive_rel_lapl_cut q.

(** What the constructor ends in, the warnings left aside: an exception
    or the object. *)
Definition outcome {A : Type} (m : Exceptions.M A)
  : Exceptions.exception + A := snd m.

End FormulaOptions.

(** ** What the driver prints *)

Module Output.

(** The characters [main] has put on [std::cout] when it ends: its
    messages one after the other. *)
Definition printed (r : Driver.process_result) : string :=
  String.concat EmptyString (Driver.standard_output r).

End Output.

(** ** The formula model at one sample, from its inputs *)

Module FormulaModel.
Import FormulaCoefficients.

Local Open Scope float_scope.

Section Code.
Context {cmath : CMath}.
Variable RadialGeodesicCoordinate :
  RadiationIntegrator -> float -> float -> float -> float.

(** Lines 64-103 of [CalculateFormulaCoefficients]: the components
    [u0], [u1], [u2], [u3] of the four-velocity of the fluid at the
    position [(x, y, z)], from the Boyer-Lindquist metric and the angular
    momentum of the formula. *)
Definition four_velocity (s : RadiationIntegrator) (x y z : float)
  : float * float * float * float :=
  (* Calculate coordinates *)
  let r := RadialGeodesicCoordinate s x y z in
  let rr := sqrt (r * r - z * z) in
  let cth := z / r in
  let sth := sqrt (1.0 - cth * cth) in
  let ph := atan2 y x - atan (bh_a s / r) in
  let sph := sin ph in
  let cph := cos ph in
  (* Calculate metric *)
  let delta := r * r - 2.0 * bh_m s * r + bh_a s * bh_a s in
  let sigma := r * r + bh_a s * bh_a s * cth * cth in
  let gtt_bl :=
    - (1.0 + 2.0 * bh_m s * r * (r * r + bh_a s * bh_a s) / (delta * sigma)) in
  let gtph_bl := -2.0 * bh_m s * bh_a s * r / (delta * sigma) in
  let grr_bl := delta / sigma in
  let gthth_bl := 1.0 / sigma in
  let gphph_bl := (sigma - 2.0 * bh_m s * r) / (delta * sigma * sth * sth) in
  (* Calculate angular momentum (C 6) *)
  let ll := formula_l0 s / (1.0 + rr) * pow rr (1.0 + formula_q s) in
  (* Calculate 4-velocity (C 7-8) *)
  let u_norm :=
    1.0 / sqrt (- gtt_bl + 2.0 * gtph_bl * ll - gphph_bl * ll * ll) in
  let u_t_bl := - u_norm in
  let u_r_bl := 0.0 in
  let u_th_bl := 0.0 in
  let u_ph_bl := u_norm * ll in
  let ut_bl := gtt_bl * u_t_bl + gtph_bl * u_ph_bl in
  let ur_bl := grr_bl * u_r_bl in
  let uth_bl := gthth_bl * u_th_bl in
  let uph_bl := gtph_bl * u_t_bl + gphph_bl * u_ph_bl in
  let ut := ut_bl + 2.0 * bh_m s * r / delta * ur_bl in
  let ur := ur_bl in
  let uth := uth_bl in
  let uph := uph_bl + bh_a s / delta * ur_bl in
  let u0 := ut in
  let u1 :=
    sth * cph * ur + cth * (r * cph - bh_a s * sph) * uth
    + sth * (- r * sph - bh_a s * cph) * uph in
  let u2 :=
    sth * sph * ur + cth * (r * sph + bh_a s * cph) * uth
    + sth * (r * cph - bh_a s * sph) * uph in
  let u3 := cth * ur - r * sth * uth in
  (u0, u1, u2, u3).

(** Lines 64 and 66, then 106-107: the fluid-frame number density
    [n_n0_fluid] at the position [(x, y, z)] (C 5). *)
Definition number_density (s : RadiationIntegrator) (x y z : float) : float :=
  let r := RadialGeodesicCoordinate s x y z in
  let cth := z / r in
  exp (-0.5 * (r * r / (formula_r0 s * formula_r0 s)
               + formula_h s * formula_h s * cth * cth)).

(** Lines 113-114: the fluid-frame emissivity in CGS units
    [j_nu_fluid_cgs] at the position [(x, y, z)] and the fluid-frame
    frequency [nu] (C 9-10). *)
Definition emissivity (s : RadiationIntegrator) (x y z nu : float) : float :=
  formula_cn0 s * number_density s x y z
  * pow (nu / formula_nup s) (- formula_alpha s).

(** Lines 118-119: the fluid-frame absorptivity in CGS units
    [alpha_nu_fluid_cgs] at the position [(x, y, z)] and the fluid-frame
    frequency [nu] (C 11-12). *)
Definition absorptivity (s : RadiationIntegrator) (x y z nu : float) : float :=
  formula_a s * formula_cn0 s * number_density s x y z
  * pow (nu / formula_nup s) (- formula_beta s - formula_alpha s).

End Code.

End FormulaModel.

(** * Properties *)

(** ** Arrays: reading back what was written *)

Section ArrayFacts.
Context {A : Type}.
Implicit Types (a : Array.t A) (dflt v : A).

Lemma shaped2_set2 a i2 i1 v d2 d1 :
  Array.shaped2 a d2 d1 -> Array.shaped2 (Array.set2 a i2 i1 v) d2 d1.
Proof.
  unfold Array.shaped2, Array.set2; simpl.
  rewrite length_insert. tauto.
Qed.

Lemma shaped2_Allocate2 (fill : A) d2 d1 :
  Array.shaped2 (Array.Allocate2 fill d2 d1) d2 d1.
Proof.
  unfold Array.shaped2, Array.Allocate2; simpl.
  rewrite length_replicate. auto.
Qed.

Lemma index2_in_range a d2 d1 i2 i1 :
  Array.shaped2 a d2 d1 -> i2 < d2 -> i1 < d1 ->
  Array.index2 a i2 i1 < length (Array.data a).
Proof.
  intros (H2 & H1 & Hlen) Hi2 Hi1. unfold Array.index2.
  rewrite Hlen, H1. nia.
Qed.

Lemma index2_inj a i2 i1 j2 j1 :
  i1 < Array.n1 a -> j1 < Array.n1 a ->
  Array.index2 a i2 i1 = Array.index2 a j2 j1 -> i2 = j2 /\ i1 = j1.
Proof.
  unfold Array.index2. intros Hi Hj E.
  assert (i2 = j2) by nia. subst. split; [reflexivity | lia].
Qed.

Lemma get2_set2_same dflt a d2 d1 i2 i1 v :
  Array.shaped2 a d2 d1 -> i2 < d2 -> i1 < d1 ->
  Array.get2 dflt (Array.set2 a i2 i1 v) i2 i1 = v.
Proof.
  intros Hs Hi2 Hi1. unfold Array.get2, Array.set2; simpl.
  change (Array.index2 (Array.mk _ _ _ _) i2 i1) with (Array.index2 a i2 i1).
  rewrite list_lookup_insert_eq; [reflexivity|].
  eapply index2_in_range; eauto.
Qed.

Lemma get2_set2_other dflt a d2 d1 i2 i1 j2 j1 v :
  Array.shaped2 a d2 d1 -> i1 < d1 -> j1 < d1 ->
  (i2, i1) <> (j2, j1) ->
  Array.get2 dflt (Array.set2 a i2 i1 v) j2 j1 = Array.get2 dflt a j2 j1.
Proof.
  intros (H2 & H1 & Hlen) Hi1 Hj1 Hne. unfold Array.get2, Array.set2; simpl.
  change (Array.index2 (Array.mk _ _ _ _) j2 j1) with (Array.index2 a j2 j1).
  rewrite list_lookup_insert_ne; [reflexivity|].
  intros E. apply index2_inj in E; [|lia..].
  destruct E; subst; congruence.
Qed.

Lemma shaped2_row_loop (f : nat -> A) m (l : list nat) : forall a d2 d1,
  Array.shaped2 a d2 d1 ->
  Array.shaped2 (fold_left (fun a n => Array.set2 a m n (f n)) l a) d2 d1.
Proof.
  induction l as [|x l IH]; intros a d2 d1 Hs; simpl; [assumption|].
  apply IH. now apply shaped2_set2.
Qed.

(** A loop [for (n = 0; n < k; n++) a(m,n) = f n] leaves [f n] in the
    first [k] cells of row [m] and every other cell as it was. *)
Lemma get2_row_loop dflt (f : nat -> A) m k : forall a d2 d1 m' n',
  Array.shaped2 a d2 d1 -> m < d2 -> k <= d1 -> n' < d1 ->
  Array.get2 dflt
    (fold_left (fun a n => Array.set2 a m n (f n)) (seq 0 k) a) m' n'
  = if decide (m' = m /\ n' < k) then f n' else Array.get2 dflt a m' n'.
Proof.
  induction k as [|k IH]; intros a d2 d1 m' n' Hs Hm Hk Hn'.
  - cbn [seq fold_left]. case_decide; [lia | reflexivity].
  - rewrite seq_S, fold_left_app. cbn [fold_left Nat.add].
    pose proof (shaped2_row_loop f m (seq 0 k) a d2 d1 Hs) as Hs'.
    destruct (decide (m' = m /\ n' = k)) as [[-> ->]|Hne].
    + rewrite (get2_set2_same dflt _ d2 d1) by (assumption || lia).
      case_decide; [reflexivity | lia].
    + rewrite (get2_set2_other dflt _ d2 d1); [ | assumption | lia | lia | ].
      * rewrite (IH a d2 d1) by (assumption || lia).
        repeat case_decide; try reflexivity; exfalso; lia.
      * intros E. inversion E; subst. apply Hne; tauto.
Qed.

End ArrayFacts.

(** ** Signs of products and quotients of doubles *)

Section FloatSigns.
Import Sign.
Local Open Scope float_scope.

Lemma round_sign s m e l :
  let r := binary_round_aux prec emax s m e l in
  r = S754_nan \/ r = S754_zero s \/ r = S754_infinity s
  \/ exists m' e', r = S754_finite s m' e'.
Proof.
  unfold binary_round_aux.
  destruct (shr_fexp prec emax m e l) as [mrs' e'].
  destruct (shr_fexp prec emax _ e' loc_Exact) as [mrs'' e''].
  destruct (shr_m mrs'') as [|p|p]; auto.
  destruct (e'' <=? emax - prec)%Z; eauto 6.
Qed.

Lemma round_SFsc m e l : SFsc (binary_round_aux prec emax false m e l).
Proof.
  destruct (round_sign false m e l) as [E|[E|[E|(m' & e' & E)]]];
    rewrite E; exact I.
Qed.

Lemma SFsc_SFnn f : SFsc f -> SFnn f.
Proof. destruct f as [[]|[]| |[] ? ?]; simpl; tauto. Qed.

Lemma SFmul_SFsc x y : SFsc x -> SFsc y -> SFsc (SF64mul x y).
Proof.
  destruct x as [[]|[]| |[] mx ex], y as [[]|[]| |[] my ey];
    simpl; try tauto; intros _ _; apply round_SFsc.
Qed.

Lemma SFmul_SFnn x y : SFnn x -> SFnn y -> SFnn (SF64mul x y).
Proof.
  destruct x as [[]|[]| |[] mx ex], y as [[]|[]| |[] my ey];
    simpl; try tauto; intros _ _; apply SFsc_SFnn, round_SFsc.
Qed.

Lemma SFdiv_SFsc x y : SFsc x -> SFsc y -> SFsc (SF64div x y).
Proof.
  destruct x as [[]|[]| |[] mx ex], y as [[]|[]| |[] my ey];
    simpl; try tauto; intros _ _.
  destruct (SFdiv_core_binary _ _ _ _ _ _) as [[mz ez] lz]. apply round_SFsc.
Qed.

Lemma SFdiv_SFnn x y : SFnn x -> SFsc y -> SFnn (SF64div x y).
Proof.
  destruct x as [[]|[]| |[] mx ex], y as [[]|[]| |[] my ey];
    simpl; try tauto; intros _ _.
  destruct (SFdiv_core_binary _ _ _ _ _ _) as [[mz ez] lz].
  apply SFsc_SFnn, round_SFsc.
Qed.

Lemma not_negative_spec x : not_negative x <-> SFnn (Prim2SF x).
Proof.
  unfold not_negative. rewrite ltb_spec.
  change (Prim2SF 0) with (S754_zero false).
  destruct (Prim2SF x) as [[]|[]| |[] m e]; cbv; intuition congruence.
Qed.

Lemma sign_clear_spec x : sign_clear x <-> SFsc (Prim2SF x).
Proof.
  unfold sign_clear. fold (not_negative x). rewrite not_negative_spec. split.
  - intros [Hnn Hz]. destruct (Prim2SF x) as [[]|[]| |[] m e] eqn:E; simpl in *; auto.
    apply Hz. apply Prim2SF_inj. rewrite E. reflexivity.
  - intros Hsc. split; [now apply SFsc_SFnn|].
    intros ->. exact Hsc.
Qed.
Lemma positive_sign_clear x : (0 <? x) = true -> sign_clear x.
Proof.
  rewrite sign_clear_spec, ltb_spec. change (Prim2SF 0) with (S754_zero false).
  destruct (Prim2SF x) as [[]|[]| |[] m e]; cbv; try tauto; discriminate.
Qed.

Lemma nonnegative_not_negative x : (0 <=? x) = true -> not_negative x.
Proof.
  rewrite not_negative_spec, leb_spec. change (Prim2SF 0) with (S754_zero false).
  destruct (Prim2SF x) as [[]|[]| |[] m e]; cbv; try tauto; discriminate.
Qed.

Lemma not_negative_cases x :
  not_negative x -> is_nan x = true \/ (0 <=? x) = true.
Proof.
  rewrite not_negative_spec. unfold is_nan.
  rewrite leb_spec, FloatAxioms.eqb_spec. change (Prim2SF 0) with (S754_zero false).
  destruct (Prim2SF x) as [[]|[]| |[] m e]; cbv; auto; tauto.
Qed.

Lemma mul_not_negative x y :
  not_negative x -> not_negative y -> not_negative (x * y).
Proof. rewrite !not_negative_spec, mul_spec. apply SFmul_SFnn. Qed.

Lemma mul_sign_clear x y : sign_clear x -> sign_clear y -> sign_clear (x * y).
Proof. rewrite !sign_clear_spec, mul_spec. apply SFmul_SFsc. Qed.

Lemma div_sign_clear x y : sign_clear x -> sign_clear y -> sign_clear (x / y).
Proof. rewrite !sign_clear_spec, div_spec. apply SFdiv_SFsc. Qed.

Lemma div_not_negative x y :
  not_negative x -> sign_clear y -> not_negative (x / y).
Proof. rewrite !not_negative_spec, sign_clear_spec, div_spec. apply SFdiv_SFnn. Qed.

End FloatSigns.

(** ** Formula coefficients: what the loops leave in the arrays *)

Section PixelLoop.
Import FormulaCoefficients.
Context {cmath : CMath}.
Variable RadialGeodesicCoordinate :
  RadiationIntegrator -> float -> float -> float -> float.
Variable uninitialized : float.

Local Abbreviation locals := (locals RadialGeodesicCoordinate uninitialized).
Local Abbreviation pixel := (pixel RadialGeodesicCoordinate uninitialized).
Local Abbreviation stored_j := (stored_j RadialGeodesicCoordinate uninitialized).
Local Abbreviation stored_alpha :=
  (stored_alpha RadialGeodesicCoordinate uninitialized).

Lemma fst_store_nan m l : forall c,
  fst (fold_left (store_nan m) l c)
  = fold_left (fun a n => Array.set2 a m n quiet_NaN) l (fst c).
Proof. induction l as [|n l IH]; intros c; simpl; [|rewrite IH]; reflexivity. Qed.

Lemma snd_store_nan m l : forall c,
  snd (fold_left (store_nan m) l c)
  = fold_left (fun a n => Array.set2 a m n quiet_NaN) l (snd c).
Proof. induction l as [|n l IH]; intros c; simpl; [|rewrite IH]; reflexivity. Qed.

Lemma fst_store_sample s m l : forall c,
  fst (fold_left (store_sample RadialGeodesicCoordinate uninitialized s m) l c)
  = fold_left
      (fun a n => Array.set2 a m n
         (j_nu_fluid_cgs (locals s m n)
          / (nu_fluid_cgs (locals s m n) * nu_fluid_cgs (locals s m n)))%float)
      l (fst c).
Proof. induction l as [|n l IH]; intros c; simpl; [|rewrite IH]; reflexivity. Qed.

Lemma snd_store_sample s m l : forall c,
  snd (fold_left (store_sample RadialGeodesicCoordinate uninitialized s m) l c)
  = fold_left
      (fun a n => Array.set2 a m n
         (alpha_nu_fluid_cgs (locals s m n) * nu_fluid_cgs (locals s m n))%float)
      l (snd c).
Proof. induction l as [|n l IH]; intros c; simpl; [|rewrite IH]; reflexivity. Qed.

Lemma fst_pixel s c m :
  fst (pixel s c m) = row_writer (stored_j s) (num_samples s) (fst c) m.
Proof.
  unfold FormulaCoefficients.pixel, row_writer, num_samples,
    FormulaCoefficients.stored_j.
  destruct (Z.leb_spec (Array.get1 0%Z (sample_num s) m) 0) as [Hk|Hk].
  - replace (Z.to_nat _) with 0%nat by lia. reflexivity.
  - destruct (fallback_nan s && Array.get1 false (sample_flags s) m).
    + apply fst_store_nan.
    + apply fst_store_sample.
Qed.

Lemma snd_pixel s c m :
  snd (pixel s c m) = row_writer (stored_alpha s) (num_samples s) (snd c) m.
Proof.
  unfold FormulaCoefficients.pixel, row_writer, num_samples,
    FormulaCoefficients.stored_alpha.
  destruct (Z.leb_spec (Array.get1 0%Z (sample_num s) m) 0) as [Hk|Hk].
  - replace (Z.to_nat _) with 0%nat by lia. reflexivity.
  - destruct (fallback_nan s && Array.get1 false (sample_flags s) m).
    + apply snd_store_nan.
    + apply snd_store_sample.
Qed.

Lemma fst_pixels s l : forall c,
  fst (fold_left (pixel s) l c)
  = fold_left (row_writer (stored_j s) (num_samples s)) l (fst c).
Proof.
  induction l as [|m l IH]; intros c; simpl; [reflexivity|].
  now rewrite IH, fst_pixel.
Qed.

Lemma snd_pixels s l : forall c,
  snd (fold_left (pixel s) l c)
  = fold_left (row_writer (stored_alpha s) (num_samples s)) l (snd c).
Proof.
  induction l as [|m l IH]; intros c; simpl; [reflexivity|].
  now rewrite IH, snd_pixel.
Qed.

Lemma shaped2_row_writers val count (l : list nat) : forall a d2 d1,
  Array.shaped2 a d2 d1 ->
  Array.shaped2 (fold_left (row_writer val count) l a) d2 d1.
Proof.
  induction l as [|m l IH]; intros a d2 d1 Hs; simpl; [assumption|].
  apply IH. unfold row_writer. now apply shaped2_row_loop.
Qed.

(** After the pixel passes of [order], in whatever order they come, cell
    [(m,n)] holds what pixel [m] stored there, or what it held before when
    no pass wrote it. *)
Lemma get2_row_writers_in_order dflt val count (order : list nat) :
  forall a d2 d1 m n,
  Array.shaped2 a d2 d1 ->
  (forall m', m' ∈ order -> m' < d2 /\ count m' <= d1) -> n < d1 ->
  Array.get2 dflt (fold_left (row_writer val count) order a) m n
  = if decide (m ∈ order /\ n < count m) then val m n
    else Array.get2 dflt a m n.
Proof.
  induction order as [|x order IH]; intros a d2 d1 m n Hs Hcount Hn.
  - cbn [fold_left]. case_decide as H; [|reflexivity].
    destruct H as [H _]. now apply elem_of_nil in H.
  - cbn [fold_left].
    assert (x < d2 /\ count x <= d1) as [Hx Hcx]
      by (apply Hcount; apply elem_of_cons; now left).
    rewrite (IH _ d2 d1);
      [ | unfold row_writer; now apply shaped2_row_loop
        | intros; apply Hcount; apply elem_of_cons; now right
        | assumption ].
    unfold row_writer at 1.
    rewrite (get2_row_loop dflt _ x (count x) a d2 d1) by assumption.
    repeat case_decide; try reflexivity;
      repeat match goal with
             | H : _ /\ _ |- _ => destruct H
             end; subst; try reflexivity; exfalso;
      match goal with
      | H : ~ (_ ∈ _ :: _ /\ _) |- _ =>
          apply H; split; [apply elem_of_cons; auto | assumption]
      | H : _ ∈ _ :: _ |- _ =>
          apply elem_of_cons in H as [->|H]; tauto
      end.
Qed.

(** After the pixel loop over [0 .. p-1], cell [(m,n)] holds what pixel
    [m] stored there, or what it held before when no pixel wrote it. *)
Lemma get2_row_writers dflt val count p : forall a d2 d1 m n,
  Array.shaped2 a d2 d1 -> p <= d2 ->
  (forall m', m' < p -> count m' <= d1) -> n < d1 ->
  Array.get2 dflt (fold_left (row_writer val count) (seq 0 p) a) m n
  = if decide (m < p /\ n < count m) then val m n
    else Array.get2 dflt a m n.
Proof.
  intros a d2 d1 m n Hs Hp Hcount Hn.
  rewrite (get2_row_writers_in_order dflt val count (seq 0 p) a d2 d1);
    [ | assumption
      | intros m' Hm'; apply elem_of_seq in Hm'; split; [lia | apply Hcount; lia]
      | assumption ].
  repeat case_decide; try reflexivity; exfalso;
    match goal with
    | H : ~ _ |- _ => apply H
    end;
    match goal with
    | H : _ /\ _ |- _ => destruct H as [H1 H2]
    end; split; try assumption.
  - apply elem_of_seq in H1. lia.
  - apply elem_of_seq. lia.
Qed.

Lemma is_shaped2_correct (a : Array.t float) d2 d1 :
  Array.is_shaped2 a d2 d1 = true -> Array.shaped2 a d2 d1.
Proof.
  unfold Array.is_shaped2, Array.shaped2.
  rewrite !andb_true_iff, !Nat.eqb_eq. tauto.
Qed.

Lemma well_formed_allocated s :
  well_formed s = true ->
  Array.shaped2 (fst (allocated uninitialized s))
    (Z.to_nat (camera_num_pix s)) (Z.to_nat (geodesic_num_steps s))
  /\ Array.shaped2 (snd (allocated uninitialized s))
       (Z.to_nat (camera_num_pix s)) (Z.to_nat (geodesic_num_steps s)).
Proof.
  unfold well_formed, allocated. rewrite andb_true_iff. intros [H _].
  destruct (first_time s); simpl in *.
  - split; apply shaped2_Allocate2.
  - apply andb_true_iff in H. destruct H. split; now apply is_shaped2_correct.
Qed.

Lemma well_formed_num_samples s m :
  well_formed s = true -> m < Z.to_nat (camera_num_pix s) ->
  num_samples s m <= Z.to_nat (geodesic_num_steps s).
Proof.
  unfold well_formed, num_samples. rewrite andb_true_iff. intros [_ H] Hm.
  rewrite forallb_forall in H.
  specialize (H m). rewrite Z.leb_le in H.
  assert (In m (upto (camera_num_pix s))) as Hin by (apply in_seq; lia).
  specialize (H Hin). lia.
Qed.

(** The two arrays after the call, cell by cell. *)
Lemma coefficients_after dflt s m n :
  well_formed s = true -> n < Z.to_nat (geodesic_num_steps s) ->
  let s' := CalculateFormulaCoefficients RadialGeodesicCoordinate uninitialized s in
  Array.get2 dflt (j_i s') m n
  = (if decide (m < Z.to_nat (camera_num_pix s) /\ n < num_samples s m)
     then stored_j s m n
     else Array.get2 dflt (fst (allocated uninitialized s)) m n)
  /\ Array.get2 dflt (alpha_i s') m n
    = (if decide (m < Z.to_nat (camera_num_pix s) /\ n < num_samples s m)
       then stored_alpha s m n
       else Array.get2 dflt (snd (allocated uninitialized s)) m n).
Proof.
  intros Hwf Hn. cbn zeta.
  destruct (well_formed_allocated s Hwf) as [Hj Ha].
  unfold CalculateFormulaCoefficients, with_coefficients; cbn [j_i alpha_i].
  rewrite fst_pixels, snd_pixels. unfold upto. split.
  - eapply get2_row_writers; eauto.
    intros; now apply well_formed_num_samples.
  - eapply get2_row_writers; eauto.
    intros; now apply well_formed_num_samples.
Qed.

(** X6.  The pixel loop runs in parallel: its passes may come in any
    order.  Every order of them leaves in each cell of both arrays what
    the index order leaves. *)
Lemma pixel_order_irrelevant dflt s (order : list nat) m n :
  well_formed s = true ->
  order ≡ₚ upto (camera_num_pix s) ->
  n < Z.to_nat (geodesic_num_steps s) ->
  let c := fold_left (pixel s) order (allocated uninitialized s) in
  let s' := CalculateFormulaCoefficients RadialGeodesicCoordinate uninitialized s in
  Array.get2 dflt (fst c) m n = Array.get2 dflt (j_i s') m n
  /\ Array.get2 dflt (snd c) m n = Array.get2 dflt (alpha_i s') m n.
Proof.
  intros Hwf Hperm Hn. cbn zeta.
  destruct (coefficients_after dflt s m n Hwf Hn) as [Ej Ea].
  rewrite Ej, Ea. clear Ej Ea.
  destruct (well_formed_allocated s Hwf) as [Hj Ha].
  rewrite fst_pixels, snd_pixels.
  assert (forall m', m' ∈ order <-> m' < Z.to_nat (camera_num_pix s)) as Hin.
  { intros m'. rewrite Hperm. unfold upto. rewrite elem_of_seq. lia. }
  assert (forall m', m' ∈ order ->
            m' < Z.to_nat (camera_num_pix s)
            /\ num_samples s m' <= Z.to_nat (geodesic_num_steps s)) as Hcount.
  { intros m' Hm'. apply Hin in Hm'. split; [assumption|].
    now apply well_formed_num_samples. }
  rewrite (get2_row_writers_in_order dflt _ _ order _ _ _ m n Hj Hcount Hn).
  rewrite (get2_row_writers_in_order dflt _ _ order _ _ _ m n Ha Hcount Hn).
  split; repeat case_decide; try reflexivity; exfalso;
    match goal with
    | H : ~ _ |- _ => apply H
    end;
    match goal with
    | H : _ /\ _ |- _ => destruct H as [H1 H2]
    end; split; try assumption; now apply Hin.
Qed.

End PixelLoop.

Section FormulaClaims.
Import FormulaCoefficients.
Context {cmath : CMath}.
Variable RadialGeodesicCoordinate :
  RadiationIntegrator -> float -> float -> float -> float.
Variable uninitialized : float.

Local Abbreviation locals := (locals RadialGeodesicCoordinate uninitialized).
Local Abbreviation Calculate :=
  (CalculateFormulaCoefficients RadialGeodesicCoordinate uninitialized).

(** C2.  A pixel with samples whose ray has a problem, when [fallback_nan]
    is set, gets NaN in [j_i] and [alpha_i] at each of its [sample_num(m)]
    steps (the cell read back is a NaN of IEEE 754: [is_nan] holds of it),
    and nothing else is computed for it: the rest of its row is what the
    arrays held when the pixel loop began. *)
Theorem flagged_pixel_is_nan (s : RadiationIntegrator) (m : nat) (dflt : float) :
  well_formed s = true ->
  m < Z.to_nat (camera_num_pix s) ->
  (0 < Array.get1 0 (sample_num s) m)%Z ->
  fallback_nan s && Array.get1 false (sample_flags s) m = true ->
  (forall n, n < num_samples s m ->
     is_nan (Array.get2 dflt (j_i (Calculate s)) m n) = true
     /\ Prim2SF (Array.get2 dflt (j_i (Calculate s)) m n) = S754_nan
     /\ is_nan (Array.get2 dflt (alpha_i (Calculate s)) m n) = true
     /\ Prim2SF (Array.get2 dflt (alpha_i (Calculate s)) m n) = S754_nan)
  /\ (forall n, num_samples s m <= n < Z.to_nat (geodesic_num_steps s) ->
       Array.get2 dflt (j_i (Calculate s)) m n
       = Array.get2 dflt (fst (allocated uninitialized s)) m n
       /\ Array.get2 dflt (alpha_i (Calculate s)) m n
         = Array.get2 dflt (snd (allocated uninitialized s)) m n).
Proof.
  intros Hwf Hm Hnum Hflag.
  pose proof (well_formed_num_samples s m Hwf Hm) as Hle.
  split; intros n Hn.
  - destruct (coefficients_after RadialGeodesicCoordinate uninitialized
                dflt s m n Hwf) as [Ej Ea]; [lia|].
    rewrite Ej, Ea. rewrite !decide_True by lia.
    unfold stored_j, stored_alpha. rewrite Hflag. repeat split; reflexivity.
  - destruct (coefficients_after RadialGeodesicCoordinate uninitialized
                dflt s m n Hwf) as [Ej Ea]; [lia|].
    rewrite Ej, Ea. rewrite !decide_False by lia. split; reflexivity.
Qed.

(** What the call leaves at a sample it processes with the formula. *)
Lemma processed_sample_stored
    (s : RadiationIntegrator) (m n : nat) (dflt : float) :
  well_formed s = true ->
  m < Z.to_nat (camera_num_pix s) ->
  fallback_nan s && Array.get1 false (sample_flags s) m = false ->
  n < num_samples s m ->
  Array.get2 dflt (j_i (Calculate s)) m n
  = (j_nu_fluid_cgs (locals s m n)
     / (nu_fluid_cgs (locals s m n) * nu_fluid_cgs (locals s m n)))%float
  /\ Array.get2 dflt (alpha_i (Calculate s)) m n
    = (alpha_nu_fluid_cgs (locals s m n) * nu_fluid_cgs (locals s m n))%float.
Proof.
  intros Hwf Hm Hflag Hn.
  pose proof (well_formed_num_samples s m Hwf Hm) as Hle.
  destruct (coefficients_after RadialGeodesicCoordinate uninitialized
              dflt s m n Hwf) as [Ej Ea]; [lia|].
  rewrite Ej, Ea. rewrite !decide_True by lia.
  unfold stored_j, stored_alpha. rewrite Hflag.
  split; reflexivity.
Qed.

(** C3.  At every sample [(m,n)] the loop processes with the formula (the
    pixel has samples and is not replaced by NaN), with [k_mu] the four
    entries of [sample_dir(m,n,.)], [u^mu] the four-velocity of the fluid
    at the position held in [sample_pos(m,n,1..3)] and the fluid-frame
    frequency [nu = -(u^mu k_mu) * momentum_factor]: the cell of [j_i]
    holds the fluid-frame emissivity at that position and frequency
    divided by [nu * nu], and the cell of [alpha_i] holds the fluid-frame
    absorptivity there multiplied by [nu]. *)
Theorem stored_coefficients_normalized
    (s : RadiationIntegrator) (m n : nat) (dflt : float) :
  well_formed s = true ->
  m < Z.to_nat (camera_num_pix s) ->
  fallback_nan s && Array.get1 false (sample_flags s) m = false ->
  n < num_samples s m ->
  let k mu := Array.get3 uninitialized (sample_dir s) m n mu in
  let x := Array.get3 uninitialized (sample_pos s) m n 1 in
  let y := Array.get3 uninitialized (sample_pos s) m n 2 in
  let z := Array.get3 uninitialized (sample_pos s) m n 3 in
  forall u0 u1 u2 u3 : float,
  FormulaModel.four_velocity RadialGeodesicCoordinate s x y z
  = (u0, u1, u2, u3) ->
  let nu :=
    (- (u0 * k 0%nat + u1 * k 1%nat + u2 * k 2%nat + u3 * k 3%nat)
     * momentum_factor s)%float in
  Array.get2 dflt (j_i (Calculate s)) m n
  = (FormulaModel.emissivity RadialGeodesicCoordinate s x y z nu
     / (nu * nu))%float
  /\ Array.get2 dflt (alpha_i (Calculate s)) m n
    = (FormulaModel.absorptivity RadialGeodesicCoordinate s x y z nu
       * nu)%float.
Proof.
  intros Hwf Hm Hflag Hn k x y z u0 u1 u2 u3 Hu nu.
  destruct (processed_sample_stored s m n dflt Hwf Hm Hflag Hn) as [Ej Ea].
  rewrite Ej, Ea. clear Ej Ea.
  unfold FormulaModel.four_velocity in Hu.
  injection Hu as E0 E1 E2 E3.
  subst nu. rewrite <- E0, <- E1, <- E2, <- E3.
  split; reflexivity.
Qed.

(** C4, as the code has it.  With [formula_cn0 >= 0], [formula_a >= 0],
    [formula_nup > 0] and a positive, finite fluid-frame frequency, neither
    coefficient written for a sample processed with the formula is
    negative: each is [>= 0] or, when a product or quotient on the way is
    invalid (zero times infinity, zero over zero, a NaN parameter), NaN. *)
Theorem coefficients_never_negative `{!CMathSigns cmath}
    (s : RadiationIntegrator) (m n : nat) (dflt : float) :
  well_formed s = true ->
  m < Z.to_nat (camera_num_pix s) ->
  fallback_nan s && Array.get1 false (sample_flags s) m = false ->
  n < num_samples s m ->
  (0 <=? formula_cn0 s)%float = true ->
  (0 <=? formula_a s)%float = true ->
  (0 <? formula_nup s)%float = true ->
  (0 <? nu_fluid_cgs (locals s m n))%float = true ->
  (nu_fluid_cgs (locals s m n) <? infinity)%float = true ->
  let j := Array.get2 dflt (j_i (Calculate s)) m n in
  let alpha := Array.get2 dflt (alpha_i (Calculate s)) m n in
  (is_nan j = true \/ (0 <=? j)%float = true)
  /\ (is_nan alpha = true \/ (0 <=? alpha)%float = true).
Proof.
  intros Hwf Hm Hflag Hn Hcn0 Ha Hnup Hnu _ j alpha.
  destruct (processed_sample_stored s m n dflt Hwf Hm Hflag Hn) as [Ej Ea].
  subst j alpha. rewrite Ej, Ea. clear Ej Ea.
  apply nonnegative_not_negative in Hcn0, Ha.
  apply positive_sign_clear in Hnup, Hnu.
  set (l := locals s m n) in *.
  assert (Sign.sign_clear (nu_fluid_cgs l / formula_nup s)) as Hbase
    by now apply div_sign_clear.
  assert (Sign.not_negative (nu_fluid_cgs l)) as Hnu'
    by (apply not_negative_spec, SFsc_SFnn, sign_clear_spec, Hnu).
  split; apply not_negative_cases.
  - apply div_not_negative; [|now apply mul_sign_clear].
    change (j_nu_fluid_cgs l)
      with (formula_cn0 s * n_n0_fluid l
            * pow (nu_fluid_cgs l / formula_nup s) (- formula_alpha s))%float.
    repeat apply mul_not_negative; try assumption.
    + apply exp_not_negative.
    + now apply pow_not_negative.
  - apply mul_not_negative; [|assumption].
    change (alpha_nu_fluid_cgs l)
      with (formula_a s * formula_cn0 s * n_n0_fluid l
            * pow (nu_fluid_cgs l / formula_nup s)
                  (- formula_beta s - formula_alpha s))%float.
    repeat apply mul_not_negative; try assumption.
    + apply exp_not_negative.
    + now apply pow_not_negative.
Qed.

End FormulaClaims.

(** C2 at pixel 1 of the sample object. *)
Lemma flagged_pixel_is_nan_witness :
  (forall n, n < 1 ->
     is_nan (Array.get2 0%float
               (FormulaCoefficients.j_i (Platform.run Platform.emitting)) 1 n)
     = true
     /\ Prim2SF (Array.get2 0%float
                   (FormulaCoefficients.j_i (Platform.run Platform.emitting)) 1 n)
        = S754_nan
     /\ is_nan (Array.get2 0%float
                  (FormulaCoefficients.alpha_i (Platform.run Platform.emitting))
                  1 n)
        = true
     /\ Prim2SF (Array.get2 0%float
                   (FormulaCoefficients.alpha_i (Platform.run Platform.emitting))
                   1 n)
        = S754_nan)
  /\ (forall n, 1 <= n < 2 ->
       Array.get2 0%float (FormulaCoefficients.j_i (Platform.run Platform.emitting)) 1 n
       = Array.get2 0%float
           (fst (FormulaCoefficients.allocated 0%float Platform.emitting)) 1 n
       /\ Array.get2 0%float
            (FormulaCoefficients.alpha_i (Platform.run Platform.emitting)) 1 n
          = Array.get2 0%float
              (snd (FormulaCoefficients.allocated 0%float Platform.emitting)) 1 n).
Proof.
  apply (@flagged_pixel_is_nan Platform.special_values
           Platform.RadialGeodesicCoordinate 0%float Platform.emitting 1 0%float).
  - vm_compute; reflexivity.
  - vm_compute; lia.
  - vm_compute; reflexivity.
  - vm_compute; reflexivity.
Defined.

(** C3 at sample (0,1) of the sample object: the position is [x = 12] on
    the axis, [k = (-1, 1, 0, 0)] and [momentum_factor = 4]; the cells
    hold about 0.02604 and 0.54773. *)
Lemma stored_coefficients_normalized_witness :
  let s := Platform.emitting in
  let four_velocity :=
    @FormulaModel.four_velocity Platform.special_values
      Platform.RadialGeodesicCoordinate in
  let emissivity :=
    @FormulaModel.emissivity Platform.special_values
      Platform.RadialGeodesicCoordinate in
  let absorptivity :=
    @FormulaModel.absorptivity Platform.special_values
      Platform.RadialGeodesicCoordinate in
  let nu :=
    (- (0x1.187051fc25482p+0 * -1 + 0 * 1 + 0x1.7f81882f3dec8p-8 * 0 + 0 * 0)
     * 4)%float in
  four_velocity s 12%float 0%float 0%float
  = (0x1.187051fc25482p+0, 0, 0x1.7f81882f3dec8p-8, 0)%float
  /\ (Array.get2 0%float (FormulaCoefficients.j_i (Platform.run s)) 0 1
      = (emissivity s 12 0 0 nu / (nu * nu))%float
      /\ Array.get2 0%float (FormulaCoefficients.alpha_i (Platform.run s)) 0 1
         = (absorptivity s 12 0 0 nu * nu)%float)
  /\ Array.get2 0%float (FormulaCoefficients.j_i (Platform.run s)) 0 1
     = 0x1.aaa6ed2afe729p-6%float
  /\ Array.get2 0%float (FormulaCoefficients.alpha_i (Platform.run s)) 0 1
     = 0x1.187051fc25482p-1%float.
Proof.
  cbv zeta. split; [vm_compute; reflexivity|].
  split; [|vm_compute; split; reflexivity].
  apply (@stored_coefficients_normalized Platform.special_values
           Platform.RadialGeodesicCoordinate 0%float Platform.emitting
           0 1 0%float).
  - vm_compute; reflexivity.
  - vm_compute; lia.
  - vm_compute; reflexivity.
  - vm_compute; lia.
  - vm_compute; reflexivity.
Defined.

(** The table of special values keeps the promises on signs. *)
Lemma special_values_signs : CMathSigns Platform.special_values.
Proof.
  split.
  - intros x. unfold Sign.not_negative. cbn [exp Platform.special_values].
    unfold Platform.special_exp.
    repeat match goal with |- context [if ?b then _ else _] => destruct b end;
      reflexivity.
  - intros x y _. unfold Sign.not_negative. cbn [pow Platform.special_values].
    unfold Platform.special_pow.
    repeat match goal with |- context [if ?b then _ else _] => destruct b end;
      reflexivity.
Qed.

(** C4 as stated fails: with [formula_cn0 = 0] and a frequency small enough
    for its square to underflow, the hypotheses hold at sample (0,0) and
    the emission coefficient written there is [0/0], which is not [>= 0]. *)
Lemma coefficient_nan_despite_hypotheses :
  let s := Platform.dark_and_slow in
  let l := @FormulaCoefficients.locals Platform.special_values
             Platform.RadialGeodesicCoordinate 0%float s 0 0 in
  FormulaCoefficients.well_formed s = true
  /\ FormulaCoefficients.fallback_nan s
     && Array.get1 false (FormulaCoefficients.sample_flags s) 0 = false
  /\ 0 < FormulaCoefficients.num_samples s 0
  /\ (0 <=? FormulaCoefficients.formula_cn0 s)%float = true
  /\ (0 <=? FormulaCoefficients.formula_a s)%float = true
  /\ (0 <? FormulaCoefficients.formula_nup s)%float = true
  /\ (0 <? FormulaCoefficients.nu_fluid_cgs l)%float = true
  /\ (FormulaCoefficients.nu_fluid_cgs l <? infinity)%float = true
  /\ (0 <=? Array.get2 0%float (FormulaCoefficients.j_i (Platform.run s)) 0 0)%float
     = false.
Proof. vm_compute. repeat split; lia. Qed.

(** The amended C4 at sample (0,0) of the emitting object. *)
Lemma coefficients_never_negative_witness :
  let j := Array.get2 0%float
             (FormulaCoefficients.j_i (Platform.run Platform.emitting)) 0 0 in
  let alpha := Array.get2 0%float
                 (FormulaCoefficients.alpha_i (Platform.run Platform.emitting)) 0 0 in
  (is_nan j = true \/ (0 <=? j)%float = true)
  /\ (is_nan alpha = true \/ (0 <=? alpha)%float = true).
Proof.
  apply (@coefficients_never_negative Platform.special_values
           Platform.RadialGeodesicCoordinate 0%float special_values_signs
           Platform.emitting 0 0 0%float).
  - vm_compute; reflexivity.
  - vm_compute; lia.
  - vm_compute; reflexivity.
  - vm_compute; lia.
  - vm_compute; reflexivity.
  - vm_compute; reflexivity.
  - vm_compute; reflexivity.
  - vm_compute; reflexivity.
  - vm_compute; reflexivity.
Defined.

(** ** Exceptions: how a sequence of statements ends *)

Section ExceptionFacts.
Import Exceptions.

Lemma thrown_bind {A B : Type} (m : M A) (f : A -> M B) :
  thrown (m ≫= f)
  = match snd m with
    | inl e => Some e
    | inr a => thrown (f a)
    end.
Proof.
  destruct m as [w [e|a]]; unfold thrown; simpl; [reflexivity|].
  destruct (f a) as [w' r]. reflexivity.
Qed.

Lemma bind_thrown_inv {A B : Type} (m : M A) (f : A -> M B) e :
  thrown (m ≫= f) = Some e ->
  thrown m = Some e \/ exists w a, m = (w, inr a) /\ thrown (f a) = Some e.
Proof.
  rewrite thrown_bind. destruct m as [w [e'|a]]; simpl.
  - intros H. left. exact H.
  - intros H. right. eauto.
Qed.

Lemma bind_returned_inv {A B : Type} (m : M A) (f : A -> M B) w b :
  m ≫= f = (w, inr b) ->
  exists w1 a w2, m = (w1, inr a) /\ f a = (w2, inr b) /\ w = w1 ++ w2.
Proof.
  destruct m as [w1 [e|a]]; simpl; [discriminate|].
  destruct (f a) as [w2 r] eqn:E. intros H. inversion H; subst.
  exists w1, a, w2. auto.
Qed.

Lemma bind_returned {A B : Type} (m : M A) (f : A -> M B) w1 a w2 b :
  m = (w1, inr a) -> f a = (w2, inr b) -> m ≫= f = (w1 ++ w2, inr b).
Proof. intros -> E. simpl. now rewrite E. Qed.

Lemma fails_bind {A B : Type} (m : M A) (f : A -> M B) :
  (forall w a, m = (w, inr a) -> fails (f a)) -> fails (m ≫= f).
Proof.
  intros H. unfold fails. rewrite thrown_bind.
  destruct m as [w [e|a]]; simpl; [eauto|]. now apply (H w).
Qed.

Lemma fails_throw {A : Type} (e : exception) : fails (mthrow e : M A).
Proof. exists e. reflexivity. Qed.

Lemma value_returned {A : Type} (o : option A) w a :
  value o = (w, inr a) -> o = Some a /\ w = [].
Proof. destruct o; simpl; intros H; inversion H; auto. Qed.

Lemma value_if_returned {A : Type} (o : option A) (d : A) w a :
  value_if true o d = (w, inr a) -> o = Some a /\ w = [].
Proof. apply value_returned. Qed.

Lemma throws_only_ret {A : Type} P (a : A) : throws_only P (mret a : M A).
Proof. intros e H. discriminate. Qed.

Lemma throws_only_throw {A : Type} (P : exception -> Prop) e :
  P e -> throws_only P (mthrow e : M A).
Proof. intros H e' E. inversion E; subst. exact H. Qed.

Lemma throws_only_warning P s : throws_only P (BlacklightWarning s).
Proof. intros e H. discriminate. Qed.

Lemma throws_only_value {A : Type} (P : exception -> Prop) (o : option A) :
  P bad_optional_access -> throws_only P (value o).
Proof.
  intros H. destruct o; [apply throws_only_ret | now apply throws_only_throw].
Qed.

Lemma throws_only_value_if {A : Type} (P : exception -> Prop) c (o : option A) d :
  P bad_optional_access -> throws_only P (value_if c o d).
Proof.
  intros H. destruct c; [now apply throws_only_value | apply throws_only_ret].
Qed.

Lemma throws_only_when P b m :
  (b = true -> throws_only P m) -> throws_only P (when b m).
Proof. destruct b; simpl; [auto | intros _; apply throws_only_ret]. Qed.

Lemma throws_only_bind {A B : Type} P (m : M A) (f : A -> M B) :
  throws_only P m ->
  (forall w a, m = (w, inr a) -> throws_only P (f a)) ->
  throws_only P (m ≫= f).
Proof.
  intros Hm Hf e H. apply bind_thrown_inv in H.
  destruct H as [H | (w & a & E & H)]; [now apply Hm | now apply (Hf w a)].
Qed.

Lemma throws_only_for_each {A : Type} P (body : nat -> M A) ns :
  (forall n, throws_only P (body n)) -> throws_only P (for_each body ns).
Proof.
  intros Hb. induction ns as [|n ns IH]; simpl.
  - apply throws_only_ret.
  - apply throws_only_bind; [apply Hb|]. intros _ a _.
    apply throws_only_bind; [apply IH|]. intros _ l _. apply throws_only_ret.
Qed.

Lemma throws_only_weaken {A : Type} (P Q : exception -> Prop) (m : M A) :
  (forall e, P e -> Q e) -> throws_only P m -> throws_only Q m.
Proof. intros H Hm e E. auto. Qed.

End ExceptionFacts.

(** ** The constructor: which exceptions each part can throw *)

Ltac throws_only_step :=
  lazymatch goal with
  | |- Exceptions.throws_only _ (mret _) => apply throws_only_ret
  | |- Exceptions.throws_only _ (_ ≫= _) => apply throws_only_bind; [ | intros ? ? ? ]
  | |- Exceptions.throws_only _ (Exceptions.value _) => apply throws_only_value
  | |- Exceptions.throws_only _ (Exceptions.value_if _ _ _) => apply throws_only_value_if
  | |- Exceptions.throws_only _ (Exceptions.BlacklightWarning _) => apply throws_only_warning
  | |- Exceptions.throws_only _ (Exceptions.when _ _) => apply throws_only_when; intros ?
  | |- Exceptions.throws_only _ (mthrow _) => apply throws_only_throw
  | |- Exceptions.throws_only _ (Exceptions.for_each _ _) =>
      apply throws_only_for_each; intros ?
  | |- Exceptions.throws_only _ (if ?b then _ else _) => destruct b
  | |- Exceptions.throws_only _ (match ?x with _ => _ end) => destruct x
  end.

Ltac throws_only_tac := cbv zeta; repeat (throws_only_step; cbv zeta); try assumption.

Section ConstructorThrows.
Import Exceptions Constructor.
Variable P : exception -> Prop.
Hypothesis P_bad_optional_access : P bad_optional_access.

Lemma copy_general_input_data_throws p :
  throws_only P (copy_general_input_data p).
Proof. unfold copy_general_input_data. throws_only_tac. Qed.

Lemma copy_checkpoint_parameters_throws p model_type :
  P (BlacklightException "Cannot both save and load a sample checkpoint.") ->
  throws_only P (copy_checkpoint_parameters p model_type).
Proof. intros H. unfold copy_checkpoint_parameters. throws_only_tac. Qed.

Lemma copy_formula_parameters_throws p model_type :
  throws_only P (copy_formula_parameters p model_type).
Proof. unfold copy_formula_parameters. throws_only_tac. Qed.

Lemma copy_simulation_parameters_throws p model_type :
  throws_only P (copy_simulation_parameters p model_type).
Proof. unfold copy_simulation_parameters. throws_only_tac. Qed.

Lemma copy_plasma_parameters_throws p model_type :
  throws_only P (copy_plasma_parameters p model_type).
Proof. unfold copy_plasma_parameters. throws_only_tac. Qed.

Lemma copy_slow_light_parameters_throws p model_type checkpoint :
  P (BlacklightException "Cannot use sample checkpoints with slow light.") ->
  throws_only P (copy_slow_light_parameters p model_type checkpoint).
Proof. intros H. unfold copy_slow_light_parameters. throws_only_tac. Qed.

Lemma copy_fallback_parameters_throws p model_type plasma :
  throws_only P (copy_fallback_parameters p model_type plasma).
Proof. unfold copy_fallback_parameters. throws_only_tac. Qed.

Lemma copy_camera_parameters_throws p :
  throws_only P (copy_camera_parameters p).
Proof. unfold copy_camera_parameters. throws_only_tac. Qed.

Lemma check_plasma_kappa_throws kappa :
  P (BlacklightException "Polarized transport only supports kappa in [3.5, 5].") ->
  throws_only P (check_plasma_kappa kappa).
Proof. intros H. unfold check_plasma_kappa. throws_only_tac. Qed.

Lemma copy_image_parameters_throws p model_type plasma :
  throws_only P (check_plasma_kappa (plasma_kappa plasma)) ->
  throws_only P (copy_image_parameters p model_type plasma).
Proof. intros H. unfold copy_image_parameters. throws_only_tac. Qed.

Lemma copy_render_feature_throws p n_i n_f :
  throws_only P (copy_render_feature p n_i n_f).
Proof. unfold copy_render_feature. throws_only_tac. Qed.

Lemma copy_rendering_parameters_throws p model_type :
  P (BlacklightException
       "Must have positive number of features for each rendered image.") ->
  throws_only P (copy_rendering_parameters p model_type).
Proof.
  intros H. unfold copy_rendering_parameters, copy_render_image.
  throws_only_tac. apply copy_render_feature_throws.
Qed.

Lemma check_selection_throws image rendering :
  (selected image rendering = false ->
   P (BlacklightException "No image or rendering selected.")) ->
  throws_only P (check_selection image rendering).
Proof.
  intros H. unfold check_selection. throws_only_tac.
  apply H. now apply negb_true_iff.
Qed.

Lemma check_adaptive_block_size_throws camera_resolution adaptive_block_size :
  ((adaptive_block_size <= 0)%Z ->
   P (BlacklightException "Must have positive adaptive_block_size.")) ->
  ((0 < adaptive_block_size)%Z ->
   Z.rem camera_resolution adaptive_block_size <> 0%Z ->
   P (BlacklightException
        "Must have adaptive_block_size divide camera_resolution.")) ->
  throws_only P (check_adaptive_block_size camera_resolution adaptive_block_size).
Proof.
  intros H1 H2. unfold check_adaptive_block_size.
  apply throws_only_bind.
  - apply throws_only_when. intros E. apply throws_only_throw, H1. lia.
  - intros w [] E. apply throws_only_when. intros E'.
    apply throws_only_throw, H2.
    + destruct (Z.leb_spec adaptive_block_size 0); [discriminate E | lia].
    + apply negb_true_iff, Z.eqb_neq in E'. exact E'.
Qed.

Lemma copy_criterion_throws c o_frac o_cut :
  throws_only P (copy_criterion c o_frac o_cut).
Proof. unfold copy_criterion. throws_only_tac. Qed.

Lemma copy_adaptive_parameters_throws p image camera :
  P (BlacklightException "Adaptive ray tracing requires image_light.") ->
  (forall adaptive_block_size,
     InputReader.adaptive_block_size p = Some adaptive_block_size ->
     throws_only P
       (check_adaptive_block_size (camera_resolution camera)
          adaptive_block_size)) ->
  throws_only P (copy_adaptive_parameters p image camera).
Proof.
  intros H1 H2. unfold copy_adaptive_parameters. cbv zeta.
  apply throws_only_bind; [throws_only_tac|]. intros w0 level _.
  apply throws_only_bind; [throws_only_tac|]. intros w1 [] _.
  apply throws_only_bind; [throws_only_tac|]. intros w2 size Hsize.
  apply throws_only_bind.
  - apply throws_only_when. intros Hc. rewrite Hc in Hsize.
    apply value_if_returned in Hsize as [Hsize _]. now apply H2.
  - intros w3 [] _.
    repeat (apply throws_only_bind; [apply copy_criterion_throws|]; intros ? ? _).
    apply throws_only_ret.
Qed.

End ConstructorThrows.

(** ** The constructor: what a part that returns has read *)

Ltac returned_inv H :=
  cbv zeta in H;
  repeat (let w1 := fresh "w" in
          let a := fresh "a" in
          let w2 := fresh "w" in
          let Hm := fresh "Hm" in
          let Hw := fresh "Hw" in
          apply bind_returned_inv in H as (w1 & a & w2 & Hm & H & Hw);
          cbv zeta in H).

Section ConstructorReturns.
Import Exceptions Constructor.

Lemma ret_returned {A : Type} (a b : A) w :
  (mret a : M A) = (w, inr b) -> a = b /\ w = [].
Proof. intros H. inversion H. auto. Qed.

Lemma copy_general_input_data_returned p w g :
  copy_general_input_data p = (w, inr g) ->
  InputReader.model_type p = Some (model_type g).
Proof.
  unfold copy_general_input_data. intros H. returned_inv H.
  apply ret_returned in H as [<- _]. cbn.
  match goal with
  | E : value (InputReader.model_type p) = _ |- _ =>
      now apply value_returned in E as [E _]
  end.
Qed.

Lemma copy_checkpoint_parameters_returned p w c :
  copy_checkpoint_parameters p simulation = (w, inr c) ->
  InputReader.checkpoint_sample_save p = Some (checkpoint_sample_save c)
  /\ InputReader.checkpoint_sample_load p = Some (checkpoint_sample_load c).
Proof.
  unfold copy_checkpoint_parameters. cbn [is_simulation]. intros H.
  returned_inv H. apply ret_returned in H as [<- _]. cbn.
  repeat match goal with
         | E : value _ = _ |- _ => apply value_returned in E as [E _]
         end.
  auto.
Qed.

Lemma copy_plasma_parameters_returned p w pl :
  copy_plasma_parameters p simulation = (w, inr pl) ->
  InputReader.plasma_kappa_frac p = Some (plasma_kappa_frac pl)
  /\ (neqb (plasma_kappa_frac pl) 0.0 = true ->
      InputReader.plasma_kappa p = Some (plasma_kappa pl)).
Proof.
  unfold copy_plasma_parameters. cbn [is_simulation andb]. intros H.
  returned_inv H. apply ret_returned in H as [<- _]. cbn.
  split.
  - match goal with
    | E : value_if true (InputReader.plasma_kappa_frac p) _ = _ |- _ =>
        now apply value_if_returned in E as [E _]
    end.
  - intros Hne.
    match goal with
    | E : value_if _ (InputReader.plasma_kappa p) _ = _ |- _ =>
        rewrite Hne in E; now apply value_if_returned in E as [E _]
    end.
Qed.

Lemma copy_plasma_parameters_kappa p model_type w pl :
  copy_plasma_parameters p model_type = (w, inr pl) ->
  InputReader.plasma_kappa p = Some (plasma_kappa pl)
  \/ plasma_kappa pl = unassigned_double.
Proof.
  unfold copy_plasma_parameters. intros H.
  returned_inv H. apply ret_returned in H as [<- _]. cbn.
  match goal with
  | E : value_if ?c (InputReader.plasma_kappa p) _ = _ |- _ =>
      destruct c;
      [ apply value_if_returned in E as [E _]; now left
      | apply ret_returned in E as [<- _]; now right ]
  end.
Qed.

Lemma copy_camera_parameters_returned p w c :
  copy_camera_parameters p = (w, inr c) ->
  InputReader.camera_resolution p = Some (camera_resolution c).
Proof.
  unfold copy_camera_parameters. intros H. returned_inv H.
  apply ret_returned in H as [<- _]. cbn.
  match goal with
  | E : value (InputReader.camera_resolution p) = _ |- _ =>
      now apply value_returned in E as [E _]
  end.
Qed.

End ConstructorReturns.

(** ** The constructor as a whole *)

Section ConstructorFacts.
Import Exceptions Constructor.

Lemma fails_with_fails {A : Type} (P : exception -> Prop) (m : M A) :
  fails_with P m -> fails m.
Proof. intros (e & H & _). now exists e. Qed.

Lemma fails_with_throw {A : Type} (P : exception -> Prop) e :
  P e -> fails_with P (mthrow e : M A).
Proof. intros H. exists e. split; [reflexivity | exact H]. Qed.

Lemma fails_with_bind {A B : Type} P (m : M A) (f : A -> M B) :
  throws_only P m ->
  (forall w a, m = (w, inr a) -> fails_with P (f a)) ->
  fails_with P (m ≫= f).
Proof.
  intros Hm Hf. unfold fails_with. rewrite thrown_bind.
  destruct m as [w [e|a]] eqn:E; simpl.
  - exists e. split; [reflexivity|]. apply Hm. reflexivity.
  - now apply (Hf w).
Qed.

Lemma fails_with_bind_l {A B : Type} P (m : M A) (f : A -> M B) :
  fails_with P m -> fails_with P (m ≫= f).
Proof.
  intros (e & H & HP). exists e. split; [|exact HP].
  rewrite thrown_bind. unfold thrown in H.
  destruct (snd m); [exact H | discriminate].
Qed.

Lemma fails_with_when P (m : M unit) :
  fails_with P m -> fails_with P (when true m).
Proof. auto. Qed.

(** What has returned when [before_selection] returns. *)
Lemma before_selection_returned p w b :
  before_selection p = (w, inr b) ->
  exists w1 w2 w3,
    copy_general_input_data p = (w1, inr (bs_general b))
    /\ copy_plasma_parameters p (model_type (bs_general b))
       = (w2, inr (bs_plasma b))
    /\ copy_camera_parameters p = (w3, inr (bs_camera b)).
Proof.
  unfold before_selection. intros H. returned_inv H.
  apply ret_returned in H as [<- _]. cbn. eauto 10.
Qed.

(** The warnings of the image part are among those of the whole. *)
Lemma before_selection_image_warnings p w b :
  before_selection p = (w, inr b) ->
  exists w',
    copy_image_parameters p (model_type (bs_general b)) (bs_plasma b)
    = (w', inr (bs_image b))
    /\ forall s, In s w' -> In s w.
Proof.
  unfold before_selection. intros H. returned_inv H.
  apply ret_returned in H as [<- _]. cbn.
  match goal with
  | E : copy_image_parameters _ _ _ = (?w', _) |- _ => exists w'
  end.
  split; [assumption|]. intros s Hs. subst.
  repeat (apply in_or_app; first [left; assumption | right]).
Qed.

Variable P : exception -> Prop.
Hypothesis P_bad_optional_access : P bad_optional_access.

Lemma check_plasma_kappa_unassigned :
  throws_only P (check_plasma_kappa unassigned_double).
Proof. intros e H. discriminate H. Qed.

Lemma before_selection_throws p :
  P (BlacklightException "Cannot both save and load a sample checkpoint.") ->
  P (BlacklightException "Cannot use sample checkpoints with slow light.") ->
  (forall kappa, InputReader.plasma_kappa p = Some kappa ->
     throws_only P (check_plasma_kappa kappa)) ->
  P (BlacklightException
       "Must have positive number of features for each rendered image.") ->
  throws_only P (before_selection p).
Proof.
  intros H1 H2 H3 H4. unfold before_selection.
  apply throws_only_bind; [now apply copy_general_input_data_throws|].
  intros w0 g _.
  apply throws_only_bind; [now apply copy_checkpoint_parameters_throws|].
  intros w1 c _.
  apply throws_only_bind; [now apply copy_formula_parameters_throws|].
  intros w2 f _.
  apply throws_only_bind; [now apply copy_simulation_parameters_throws|].
  intros w3 s _.
  apply throws_only_bind; [now apply copy_plasma_parameters_throws|].
  intros w4 pl Hpl.
  apply throws_only_bind; [now apply copy_slow_light_parameters_throws|].
  intros w5 sl _.
  apply throws_only_bind; [now apply copy_fallback_parameters_throws|].
  intros w6 fb _.
  apply throws_only_bind; [now apply copy_camera_parameters_throws|].
  intros w7 cam _.
  apply throws_only_bind.
  - apply copy_image_parameters_throws; [assumption|].
    destruct (copy_plasma_parameters_kappa _ _ _ _ Hpl) as [E|E].
    + now apply H3.
    + rewrite E. apply check_plasma_kappa_unassigned.
  - intros w8 im _.
    apply throws_only_bind; [now apply copy_rendering_parameters_throws|].
    intros w9 r _. apply throws_only_ret.
Qed.

(** Every exception the constructor can end in, each under the condition
    that lets it be thrown. *)
Lemma new_RadiationIntegrator_throws p :
  P (BlacklightException "Cannot both save and load a sample checkpoint.") ->
  P (BlacklightException "Cannot use sample checkpoints with slow light.") ->
  (forall kappa, InputReader.plasma_kappa p = Some kappa ->
     throws_only P (check_plasma_kappa kappa)) ->
  P (BlacklightException
       "Must have positive number of features for each rendered image.") ->
  (forall w b, before_selection p = (w, inr b) ->
     selected (bs_image b) (bs_rendering b) = false ->
     P (BlacklightException "No image or rendering selected.")) ->
  P (BlacklightException "Adaptive ray tracing requires image_light.") ->
  (forall resolution size,
     InputReader.camera_resolution p = Some resolution ->
     InputReader.adaptive_block_size p = Some size ->
     throws_only P (check_adaptive_block_size resolution size)) ->
  throws_only P (new_RadiationIntegrator p).
Proof.
  intros H1 H2 H3 H4 H5 H6 H7. unfold new_RadiationIntegrator.
  apply throws_only_bind; [now apply before_selection_throws|].
  intros w0 b Hb.
  apply throws_only_bind.
  - apply check_selection_throws. now apply (H5 w0 b).
  - intros w1 [] _.
    apply throws_only_bind; [now apply throws_only_value|].
    intros w2 flat _.
    apply throws_only_bind; [|intros; apply throws_only_ret].
    apply copy_adaptive_parameters_throws; [assumption.. |].
    intros size Hsize. apply H7; [|assumption].
    destruct (before_selection_returned p w0 b Hb) as (? & ? & w3 & _ & _ & Hc).
    now apply copy_camera_parameters_returned in Hc.
Qed.

End ConstructorFacts.

(** ** The constructor: the selections it keeps *)

Section SelectionFacts.
Import Exceptions Constructor.

Lemma copy_image_parameters_returned p model_type pl w im :
  copy_image_parameters p model_type pl = (w, inr im) ->
  InputReader.image_light p = Some (image_light im)
  /\ InputReader.image_time p = Some (image_time im)
  /\ InputReader.image_length p = Some (image_length im)
  /\ InputReader.image_lambda p = Some (image_lambda im)
  /\ InputReader.image_emission p = Some (image_emission im)
  /\ InputReader.image_tau p = Some (image_tau im)
  /\ match model_type with
     | simulation =>
         InputReader.image_lambda_ave p = Some (image_lambda_ave im)
         /\ InputReader.image_emission_ave p = Some (image_emission_ave im)
         /\ InputReader.image_tau_int p = Some (image_tau_int im)
     | formula =>
         image_lambda_ave im = false /\ image_emission_ave im = false
         /\ image_tau_int im = false
     end.
Proof.
  unfold copy_image_parameters. intros H. returned_inv H.
  apply ret_returned in H as [<- _]. cbn.
  repeat match goal with
         | E : value (InputReader.image_light p) = _ |- _ =>
             apply value_returned in E as [E _]
         | E : value (InputReader.image_time p) = _ |- _ =>
             apply value_returned in E as [E _]
         | E : value (InputReader.image_length p) = _ |- _ =>
             apply value_returned in E as [E _]
         | E : value (InputReader.image_lambda p) = _ |- _ =>
             apply value_returned in E as [E _]
         | E : value (InputReader.image_emission p) = _ |- _ =>
             apply value_returned in E as [E _]
         | E : value (InputReader.image_tau p) = _ |- _ =>
             apply value_returned in E as [E _]
         end.
  repeat (split; [assumption|]).
  destruct model_type; cbn [is_simulation] in *.
  - repeat match goal with
           | E : value _ = _ |- _ => apply value_returned in E as [E _]
           end.
    auto.
  - repeat match goal with
           | E : (when _ _ ≫= _) = _ |- _ =>
               apply bind_returned_inv in E as (? & ? & ? & _ & E & _);
               apply ret_returned in E as [<- _]
           end.
    auto.
Qed.

Lemma copy_rendering_parameters_returned p model_type w r :
  copy_rendering_parameters p model_type = (w, inr r) ->
  match model_type with
  | simulation =>
      InputReader.render_num_images p = Some (render_num_images r)
  | formula => render_num_images r = 0%Z
  end.
Proof.
  unfold copy_rendering_parameters. intros H. returned_inv H.
  apply ret_returned in H as [<- _]. cbn.
  destruct model_type; cbn [is_simulation] in *.
  - match goal with
    | E : value _ = _ |- _ => now apply value_returned in E as [E _]
    end.
  - match goal with
    | E : (when _ _ ≫= _) = _ |- _ =>
        apply bind_returned_inv in E as (? & ? & ? & _ & E & _);
        now apply ret_returned in E as [<- _]
    end.
Qed.

Lemma before_selection_selections p w b :
  before_selection p = (w, inr b) ->
  exists w1 w2,
    copy_image_parameters p (model_type (bs_general b)) (bs_plasma b)
    = (w1, inr (bs_image b))
    /\ copy_rendering_parameters p (model_type (bs_general b))
       = (w2, inr (bs_rendering b)).
Proof.
  unfold before_selection. intros H. returned_inv H.
  apply ret_returned in H as [<- _]. cbn. eauto.
Qed.

End SelectionFacts.

Section ConstructorClaims.
Import Exceptions Constructor.

Lemma throws_only_anything {A : Type} (m : M A) : throws_only (fun _ => True) m.
Proof. intros e _. exact I. Qed.

(** C6, as the code has it.  The constructor ends in the exception "No
    image or rendering selected." exactly when it reaches the check of
    the selection (nothing before it throws) and every selection it has
    kept is false; the selections it keeps are [image_light], [image_time],
    [image_length], [image_lambda], [image_emission] and [image_tau] as
    the input gives them and, for the simulation model, [image_lambda_ave],
    [image_emission_ave], [image_tau_int] and [render_num_images] as the
    input gives them, for the formula model [false] and [0] whatever the
    input gives. *)
Theorem no_selection_exception (p : InputReader.t) :
  (thrown (new_RadiationIntegrator p)
   = Some (BlacklightException "No image or rendering selected.")
   <-> exists w b, before_selection p = (w, inr b)
                   /\ selected (bs_image b) (bs_rendering b) = false)
  /\ (forall w b, before_selection p = (w, inr b) ->
      InputReader.image_light p = Some (image_light (bs_image b))
      /\ InputReader.image_time p = Some (image_time (bs_image b))
      /\ InputReader.image_length p = Some (image_length (bs_image b))
      /\ InputReader.image_lambda p = Some (image_lambda (bs_image b))
      /\ InputReader.image_emission p = Some (image_emission (bs_image b))
      /\ InputReader.image_tau p = Some (image_tau (bs_image b))
      /\ match model_type (bs_general b) with
         | simulation =>
             InputReader.image_lambda_ave p
             = Some (image_lambda_ave (bs_image b))
             /\ InputReader.image_emission_ave p
                = Some (image_emission_ave (bs_image b))
             /\ InputReader.image_tau_int p
                = Some (image_tau_int (bs_image b))
             /\ InputReader.render_num_images p
                = Some (render_num_images (bs_rendering b))
         | formula =>
             image_lambda_ave (bs_image b) = false
             /\ image_emission_ave (bs_image b) = false
             /\ image_tau_int (bs_image b) = false
             /\ render_num_images (bs_rendering b) = 0%Z
         end).
Proof.
  split; [split|].
  - intros H.
    refine (new_RadiationIntegrator_throws
              (fun e => e = BlacklightException "No image or rendering selected."
                        -> exists w b, before_selection p = (w, inr b)
                             /\ selected (bs_image b) (bs_rendering b) = false)
              _ p _ _ _ _ _ _ _ _ H eq_refl);
      try discriminate.
    + intros kappa _. apply check_plasma_kappa_throws; discriminate.
    + intros w b Hb Hsel _. eauto.
    + intros resolution size _ _.
      apply check_adaptive_block_size_throws; discriminate.
  - intros (w & b & Hb & Hsel).
    unfold new_RadiationIntegrator. rewrite thrown_bind, Hb. cbn [snd].
    rewrite thrown_bind. unfold check_selection. rewrite Hsel. reflexivity.
  - intros w b Hb.
    destruct (before_selection_selections p w b Hb) as (w1 & w2 & Him & Hr).
    apply copy_image_parameters_returned in Him.
    apply copy_rendering_parameters_returned in Hr.
    destruct Him as (? & ? & ? & ? & ? & ? & Hmodel).
    repeat (split; [assumption|]).
    destruct (model_type (bs_general b)); tauto.
Qed.

End ConstructorClaims.

(** C6 as stated fails both ways round.  A simulation input that selects
    [image_light] ends in an exception (of the adaptive block size); and a
    formula input that selects [image_lambda_ave] ends in "No image or
    rendering selected." *)
Lemma selection_is_not_the_only_check :
  InputReader.image_light (Inputs.simulation_input false false 4.0 1 0)
  = Some true
  /\ Exceptions.thrown
       (Constructor.new_RadiationIntegrator
          (Inputs.simulation_input false false 4.0 1 0))
     = Some (Exceptions.BlacklightException
               "Must have positive adaptive_block_size.")
  /\ InputReader.image_lambda_ave (Inputs.formula_input false true) = Some true
  /\ Exceptions.thrown
       (Constructor.new_RadiationIntegrator (Inputs.formula_input false true))
     = Some (Exceptions.BlacklightException "No image or rendering selected.").
Proof. vm_compute. repeat split; reflexivity. Qed.

(** ** The constructor: checks that end it *)

Section ConstructorChecks.
Import Exceptions Constructor.

Lemma fails_with_value {A B : Type} P (o : option A) (a : A) (f : A -> M B) :
  o = Some a -> fails_with P (f a) -> fails_with P (value o ≫= f).
Proof.
  intros -> H. unfold fails_with. rewrite thrown_bind. exact H.
Qed.

Lemma fails_with_value_if {A B : Type} P (o : option A) (a d : A)
    (f : A -> M B) :
  o = Some a -> fails_with P (f a) -> fails_with P (value_if true o d ≫= f).
Proof. apply fails_with_value. Qed.

Lemma fails_with_skip {B : Type} P (m : M unit) (f : unit -> M B) :
  fails_with P (f tt) -> fails_with P (when false m ≫= f).
Proof. intros H. unfold fails_with. rewrite thrown_bind. exact H. Qed.

Lemma copy_slow_light_parameters_fails (P : exception -> Prop) p c :
  P (BlacklightException "Cannot use sample checkpoints with slow light.") ->
  InputReader.slow_light_on p = Some true ->
  checkpoint_sample_save c || checkpoint_sample_load c = true ->
  fails_with P (copy_slow_light_parameters p simulation c).
Proof.
  intros HP Hon Hc. unfold copy_slow_light_parameters.
  cbn [is_simulation]. cbv zeta.
  apply (fails_with_value_if P _ true); [exact Hon|].
  rewrite Hc. cbn [andb].
  apply fails_with_bind_l, fails_with_when. now apply fails_with_throw.
Qed.

Lemma check_plasma_kappa_fails (P : exception -> Prop) kappa :
  P (BlacklightException "Polarized transport only supports kappa in [3.5, 5].") ->
  ((kappa <? 3.5) || (5.0 <? kappa))%float = true ->
  fails_with P (check_plasma_kappa kappa).
Proof.
  intros HP H. unfold check_plasma_kappa. rewrite H.
  now apply fails_with_throw.
Qed.

Lemma copy_image_parameters_fails p pl :
  InputReader.image_light p = Some true ->
  InputReader.image_polarization p = Some true ->
  neqb (plasma_kappa_frac pl) 0.0 = true ->
  ((plasma_kappa pl <? 3.5) || (5.0 <? plasma_kappa pl))%float = true ->
  fails_with (fun _ => True) (copy_image_parameters p simulation pl).
Proof.
  intros Hlight Hpol Hfrac Hkappa. unfold copy_image_parameters.
  apply (fails_with_value _ _ true); [exact Hlight|].
  apply fails_with_bind; [apply throws_only_anything|]. intros w0 freq _.
  cbn [is_simulation].
  apply (fails_with_value _ _ true); [exact Hpol|].
  rewrite Hfrac. cbn [andb].
  apply fails_with_bind_l, fails_with_when.
  now apply check_plasma_kappa_fails.
Qed.

Lemma check_adaptive_block_size_fails resolution size :
  (size <= 0)%Z \/ Z.rem resolution size <> 0%Z ->
  fails_with (fun _ => True) (check_adaptive_block_size resolution size).
Proof.
  intros H. unfold check_adaptive_block_size.
  destruct (Z.leb_spec size 0) as [Hle|Hgt].
  - apply fails_with_bind_l, fails_with_when. now apply fails_with_throw.
  - apply fails_with_skip.
    destruct H as [H|H]; [lia|].
    apply Z.eqb_neq in H. rewrite H. cbn [negb].
    apply fails_with_when. now apply fails_with_throw.
Qed.

Lemma copy_adaptive_parameters_fails p im cam level size :
  InputReader.adaptive_max_level p = Some level -> (0 < level)%Z ->
  InputReader.adaptive_block_size p = Some size ->
  (size <= 0)%Z \/ Z.rem (camera_resolution cam) size <> 0%Z ->
  fails_with (fun _ => True) (copy_adaptive_parameters p im cam).
Proof.
  intros Hlevel Hpos Hsize H. unfold copy_adaptive_parameters.
  apply (fails_with_value _ _ level); [exact Hlevel|]. cbv zeta.
  replace (0 <? level)%Z with true by (symmetry; now apply Z.ltb_lt).
  cbn [andb].
  destruct (image_light im); cbn [negb].
  - apply fails_with_skip.
    apply (fails_with_value_if _ _ size); [exact Hsize|].
    apply fails_with_bind_l, fails_with_when.
    now apply check_adaptive_block_size_fails.
  - apply fails_with_bind_l, fails_with_when. now apply fails_with_throw.
Qed.

(** C5.  With [adaptive_max_level > 0], the constructor ends in an
    exception whenever [adaptive_block_size <= 0] or [camera_resolution]
    is not a multiple of it, and when the block size is positive and
    divides the resolution neither exception of this check is thrown. *)
Theorem adaptive_block_size_enforced
    (p : InputReader.t) (level size resolution : Z) :
  InputReader.adaptive_max_level p = Some level -> (0 < level)%Z ->
  InputReader.adaptive_block_size p = Some size ->
  InputReader.camera_resolution p = Some resolution ->
  ((size <= 0)%Z \/ Z.rem resolution size <> 0%Z ->
   fails (new_RadiationIntegrator p))
  /\ ((0 < size)%Z /\ Z.rem resolution size = 0%Z ->
      thrown (new_RadiationIntegrator p)
      <> Some (BlacklightException "Must have positive adaptive_block_size.")
      /\ thrown (new_RadiationIntegrator p)
         <> Some (BlacklightException
                    "Must have adaptive_block_size divide camera_resolution.")).
Proof.
  intros Hlevel Hpos Hsize Hres. split.
  - intros H. apply (fails_with_fails (fun _ => True)).
    unfold new_RadiationIntegrator.
    apply fails_with_bind; [apply throws_only_anything|]. intros w0 b Hb.
    apply fails_with_bind; [apply throws_only_anything|]. intros w1 [] _.
    apply fails_with_bind; [apply throws_only_anything|]. intros w2 flat _.
    apply fails_with_bind_l.
    apply (copy_adaptive_parameters_fails p _ _ level size); try assumption.
    destruct (before_selection_returned p w0 b Hb) as (? & ? & w3 & _ & _ & Hc).
    apply copy_camera_parameters_returned in Hc.
    rewrite Hres in Hc. injection Hc as <-. exact H.
  - intros [Hsz Hrem].
    assert (throws_only
              (fun e =>
                 e <> BlacklightException "Must have positive adaptive_block_size."
                 /\ e <> BlacklightException
                           "Must have adaptive_block_size divide camera_resolution.")
              (new_RadiationIntegrator p)) as H.
    { apply new_RadiationIntegrator_throws;
        try (intros; split; discriminate).
      - intros kappa _. apply check_plasma_kappa_throws; split; discriminate.
      - intros resolution' size' Hres' Hsize'.
        rewrite Hres in Hres'. rewrite Hsize in Hsize'.
        injection Hres' as <-. injection Hsize' as <-.
        apply check_adaptive_block_size_throws; intros; lia. }
    split; intros E; apply H in E; destruct E; congruence.
Qed.

(** C9.  For the simulation model with [slow_light_on], a selection of
    [checkpoint_sample_save] or of [checkpoint_sample_load] ends the
    constructor in an exception: a missing option, "Cannot both save and
    load a sample checkpoint." or "Cannot use sample checkpoints with slow
    light." *)
Theorem slow_light_excludes_sample_checkpoints (p : InputReader.t) :
  InputReader.model_type p = Some simulation ->
  InputReader.slow_light_on p = Some true ->
  InputReader.checkpoint_sample_save p = Some true
  \/ InputReader.checkpoint_sample_load p = Some true ->
  fails_with
    (fun e =>
       e = bad_optional_access
       \/ e = BlacklightException "Cannot both save and load a sample checkpoint."
       \/ e = BlacklightException "Cannot use sample checkpoints with slow light.")
    (new_RadiationIntegrator p).
Proof.
  intros Hmodel Hslow Hcheckpoint.
  unfold new_RadiationIntegrator. apply fails_with_bind_l.
  unfold before_selection.
  apply fails_with_bind; [apply copy_general_input_data_throws; auto|].
  intros w0 g Hg.
  apply copy_general_input_data_returned in Hg. rewrite Hmodel in Hg.
  injection Hg as <-.
  apply fails_with_bind; [apply copy_checkpoint_parameters_throws; auto|].
  intros w1 c Hc.
  apply copy_checkpoint_parameters_returned in Hc as [Hsave Hload].
  apply fails_with_bind; [apply copy_formula_parameters_throws; auto|].
  intros w2 f _.
  apply fails_with_bind; [apply copy_simulation_parameters_throws; auto|].
  intros w3 s _.
  apply fails_with_bind; [apply copy_plasma_parameters_throws; auto|].
  intros w4 pl _.
  apply fails_with_bind_l.
  apply copy_slow_light_parameters_fails; [auto | assumption |].
  destruct Hcheckpoint as [H|H].
  - rewrite Hsave in H. injection H as ->. reflexivity.
  - rewrite Hload in H. injection H as ->. apply orb_true_r.
Qed.

End ConstructorChecks.

(** C5 at a 64 x 64 camera with blocks of 16, where the constructor
    returns. *)
Lemma adaptive_block_size_enforced_witness :
  (((16 <= 0)%Z \/ Z.rem 64 16 <> 0%Z ->
    Exceptions.fails
      (Constructor.new_RadiationIntegrator
         (Inputs.simulation_input false false 4.0 2 16)))
   /\ ((0 < 16)%Z /\ Z.rem 64 16 = 0%Z ->
       Exceptions.thrown
         (Constructor.new_RadiationIntegrator
            (Inputs.simulation_input false false 4.0 2 16))
       <> Some (Exceptions.BlacklightException
                  "Must have positive adaptive_block_size.")
       /\ Exceptions.thrown
            (Constructor.new_RadiationIntegrator
               (Inputs.simulation_input false false 4.0 2 16))
          <> Some (Exceptions.BlacklightException
                     "Must have adaptive_block_size divide camera_resolution.")))
  /\ Exceptions.thrown
       (Constructor.new_RadiationIntegrator
          (Inputs.simulation_input false false 4.0 2 16))
     = None.
Proof.
  split.
  - apply (adaptive_block_size_enforced
             (Inputs.simulation_input false false 4.0 2 16) 2 16 64).
    + reflexivity.
    + lia.
    + reflexivity.
    + reflexivity.
  - vm_compute. reflexivity.
Defined.

(** C9 at an input that sets slow light and saves a sample checkpoint. *)
Lemma slow_light_excludes_sample_checkpoints_witness :
  Exceptions.fails_with
    (fun e =>
       e = Exceptions.bad_optional_access
       \/ e = Exceptions.BlacklightException
                "Cannot both save and load a sample checkpoint."
       \/ e = Exceptions.BlacklightException
                "Cannot use sample checkpoints with slow light.")
    (Constructor.new_RadiationIntegrator
       (Inputs.simulation_input true true 4.0 0 0)).
Proof.
  apply (slow_light_excludes_sample_checkpoints
           (Inputs.simulation_input true true 4.0 0 0)).
  - reflexivity.
  - reflexivity.
  - left. reflexivity.
Defined.

(** ** Comparisons of doubles *)

Section FloatOrder.
Local Open Scope float_scope.

Lemma SFcompare_antisym a b :
  SFcompare b a = option_map CompOpp (SFcompare a b).
Proof.
  destruct a as [[]|[]| |[] m1 e1], b as [[]|[]| |[] m2 e2];
    try reflexivity; cbn [SFcompare option_map].
  - rewrite (Z.compare_antisym e1 e2).
    destruct (e1 ?= e2)%Z; cbn [CompOpp]; try reflexivity.
    change (PosDef.Pos.compare_cont Eq m2 m1) with (Pos.compare m2 m1).
    change (PosDef.Pos.compare_cont Eq m1 m2) with (Pos.compare m1 m2).
    now rewrite (Pos.compare_antisym m1 m2).
  - rewrite (Z.compare_antisym e1 e2).
    destruct (e1 ?= e2)%Z; cbn [CompOpp]; try reflexivity.
    change (PosDef.Pos.compare_cont Eq m2 m1) with (Pos.compare m2 m1).
    change (PosDef.Pos.compare_cont Eq m1 m2) with (Pos.compare m1 m2).
    now rewrite (Pos.compare_antisym m1 m2).
Qed.

Lemma leb_true_ltb_false (a b : float) : (a <=? b) = true -> (b <? a) = false.
Proof.
  rewrite leb_spec, ltb_spec. unfold SFleb, SFltb.
  rewrite (SFcompare_antisym (Prim2SF a) (Prim2SF b)).
  destruct (SFcompare (Prim2SF a) (Prim2SF b)) as [[]|]; simpl;
    congruence.
Qed.

End FloatOrder.

(** ** The constructor: kappa for polarized transport *)

Section KappaCheck.
Import Exceptions Constructor.

Lemma check_plasma_kappa_in_range kappa :
  ((3.5 <=? kappa) && (kappa <=? 5.0))%float = true ->
  neqb kappa 3.5 && neqb kappa 4.0 && neqb kappa 4.5 && neqb kappa 5.0 = true ->
  check_plasma_kappa kappa
  = BlacklightWarning
      "Polarized transport will interpolate formulas based on kappa.".
Proof.
  intros Hrange Hne. apply andb_true_iff in Hrange as [Hlow Hhigh].
  unfold check_plasma_kappa.
  rewrite (leb_true_ltb_false _ _ Hlow), (leb_true_ltb_false _ _ Hhigh).
  cbn [orb]. now rewrite Hne.
Qed.

Lemma copy_image_parameters_warns p pl w im :
  copy_image_parameters p simulation pl = (w, inr im) ->
  InputReader.image_light p = Some true ->
  InputReader.image_polarization p = Some true ->
  neqb (plasma_kappa_frac pl) 0.0 = true ->
  ((3.5 <=? plasma_kappa pl) && (plasma_kappa pl <=? 5.0))%float = true ->
  neqb (plasma_kappa pl) 3.5 && neqb (plasma_kappa pl) 4.0
  && neqb (plasma_kappa pl) 4.5 && neqb (plasma_kappa pl) 5.0 = true ->
  In "Polarized transport will interpolate formulas based on kappa."%string w.
Proof.
  unfold copy_image_parameters. intros H Hlight Hpol Hfrac Hrange Hne.
  apply bind_returned_inv in H as (w0 & light & w0' & Hm0 & H & ->).
  apply value_returned in Hm0 as [Hm0 ->]. rewrite Hlight in Hm0.
  injection Hm0 as <-.
  apply bind_returned_inv in H as (w1 & freq & w1' & _ & H & ->).
  cbn [is_simulation] in H.
  apply bind_returned_inv in H as (w2 & pol & w2' & Hm2 & H & ->).
  apply value_returned in Hm2 as [Hm2 ->]. rewrite Hpol in Hm2.
  injection Hm2 as <-.
  rewrite Hfrac in H. cbn [andb when] in H.
  rewrite (check_plasma_kappa_in_range _ Hrange Hne) in H.
  apply bind_returned_inv in H as (w3 & [] & w3' & Hm3 & _ & ->).
  injection Hm3 as <-.
  rewrite !in_app_iff. right. right. right. left. left. reflexivity.
Qed.

(** C10.  For a simulation input with [image_light], [image_polarization]
    and [plasma_kappa_frac != 0]: when [plasma_kappa] is below 3.5 or
    above 5 the constructor ends in an exception; when it lies in [3.5, 5]
    and is none of 3.5, 4, 4.5, 5 the check of kappa lets construction go
    on (the constructor never ends in the exception of that check) and
    all it gives is the warning of interpolation, which is among the
    warnings whenever the constructor returns. *)
Theorem kappa_checked_for_polarized_transport
    (p : InputReader.t) (frac kappa : float) :
  InputReader.model_type p = Some simulation ->
  InputReader.image_light p = Some true ->
  InputReader.image_polarization p = Some true ->
  InputReader.plasma_kappa_frac p = Some frac ->
  neqb frac 0.0 = true ->
  InputReader.plasma_kappa p = Some kappa ->
  (((kappa <? 3.5) || (5.0 <? kappa))%float = true ->
   fails (new_RadiationIntegrator p))
  /\ (((3.5 <=? kappa) && (kappa <=? 5.0))%float = true ->
      neqb kappa 3.5 && neqb kappa 4.0 && neqb kappa 4.5 && neqb kappa 5.0
      = true ->
      thrown (new_RadiationIntegrator p)
      <> Some (BlacklightException
                 "Polarized transport only supports kappa in [3.5, 5].")
      /\ (thrown (new_RadiationIntegrator p) = None ->
          In "Polarized transport will interpolate formulas based on kappa."%string
             (warnings (new_RadiationIntegrator p)))).
Proof.
  intros Hmodel Hlight Hpol Hfrac Hnonzero Hkappa. split.
  - intros Hout. apply (fails_with_fails (fun _ => True)).
    unfold new_RadiationIntegrator. apply fails_with_bind_l.
    unfold before_selection.
    apply fails_with_bind; [apply throws_only_anything|]. intros w0 g Hg.
    apply copy_general_input_data_returned in Hg. rewrite Hmodel in Hg.
    injection Hg as <-.
    do 3 (apply fails_with_bind; [apply throws_only_anything|]; intros ? ? _).
    apply fails_with_bind; [apply throws_only_anything|]. intros w4 pl Hpl.
    apply copy_plasma_parameters_returned in Hpl as [Hpl_frac Hpl_kappa].
    rewrite Hfrac in Hpl_frac. injection Hpl_frac as Hpl_frac.
    rewrite <- Hpl_frac in Hpl_kappa. specialize (Hpl_kappa Hnonzero).
    rewrite Hkappa in Hpl_kappa. injection Hpl_kappa as Hpl_kappa.
    do 3 (apply fails_with_bind; [apply throws_only_anything|]; intros ? ? _).
    apply fails_with_bind_l.
    apply copy_image_parameters_fails; try assumption.
    + now rewrite <- Hpl_frac.
    + now rewrite <- Hpl_kappa.
  - intros Hrange Hne. split.
    + intros E.
      refine (new_RadiationIntegrator_throws
                (fun e => e <> BlacklightException
                                 "Polarized transport only supports kappa in [3.5, 5].")
                _ p _ _ _ _ _ _ _ _ E eq_refl);
        try discriminate.
      * intros kappa' Hkappa'. rewrite Hkappa in Hkappa'.
        injection Hkappa' as <-.
        rewrite (check_plasma_kappa_in_range _ Hrange Hne).
        apply throws_only_warning.
      * intros resolution size _ _.
        apply check_adaptive_block_size_throws; discriminate.
    + unfold thrown, warnings.
      destruct (new_RadiationIntegrator p) as [w [e|obj]] eqn:Hnew;
        [discriminate|]. intros _. cbn [fst].
      unfold new_RadiationIntegrator in Hnew.
      apply bind_returned_inv in Hnew as (w0 & b & w0' & Hb & _ & ->).
      apply in_or_app. left.
      destruct (before_selection_image_warnings p w0 b Hb) as (w' & Him & Hin).
      apply Hin.
      destruct (before_selection_returned p w0 b Hb)
        as (w1 & w2 & w3 & Hg & Hpl & _).
      apply copy_general_input_data_returned in Hg. rewrite Hmodel in Hg.
      injection Hg as Hg. rewrite <- Hg in Him, Hpl.
      apply copy_plasma_parameters_returned in Hpl as [Hpl_frac Hpl_kappa].
      rewrite Hfrac in Hpl_frac. injection Hpl_frac as Hpl_frac.
      rewrite <- Hpl_frac in Hpl_kappa. specialize (Hpl_kappa Hnonzero).
      rewrite Hkappa in Hpl_kappa. injection Hpl_kappa as Hpl_kappa.
      apply (copy_image_parameters_warns p _ _ _ Him); try assumption.
      * now rewrite <- Hpl_frac.
      * now rewrite <- Hpl_kappa.
      * now rewrite <- Hpl_kappa.
Qed.

End KappaCheck.

(** C10 at kappa = 3.75, where the constructor returns with the
    warning. *)
Lemma kappa_checked_for_polarized_transport_witness :
  let p := Inputs.simulation_input false false 3.75 0 0 in
  ((((3.75 <? 3.5) || (5.0 <? 3.75))%float = true ->
    Exceptions.fails (Constructor.new_RadiationIntegrator p))
   /\ (((3.5 <=? 3.75) && (3.75 <=? 5.0))%float = true ->
       Constructor.neqb 3.75 3.5 && Constructor.neqb 3.75 4.0
       && Constructor.neqb 3.75 4.5 && Constructor.neqb 3.75 5.0 = true ->
       Exceptions.thrown (Constructor.new_RadiationIntegrator p)
       <> Some (Exceptions.BlacklightException
                  "Polarized transport only supports kappa in [3.5, 5].")
       /\ (Exceptions.thrown (Constructor.new_RadiationIntegrator p) = None ->
           In "Polarized transport will interpolate formulas based on kappa."%string
              (Exceptions.warnings (Constructor.new_RadiationIntegrator p)))))
  /\ Exceptions.thrown (Constructor.new_RadiationIntegrator p) = None.
Proof.
  split.
  - apply (kappa_checked_for_polarized_transport
             (Inputs.simulation_input false false 3.75 0 0) 0.5 3.75);
      reflexivity.
  - vm_compute. reflexivity.
Defined.

(** ** The counter of z-turnings *)

Section ZTurningsLoop.
Import ZTurnings.
Variable z : Z -> float.
Variable cut : Z.

Local Abbreviation pass := (pass z cut).
Local Abbreviation scan := (scan z cut).
Local Abbreviation counts := (counts z).

Lemma pass_counts st :
  n (pass st)
  = (if counts (n st) then n st - MIN_DIFF_N - 1 else n st - 1)%Z
  /\ z_turnings_count (pass st)
     = (z_turnings_count st + (if counts (n st) then 1 else 0))%Z.
Proof.
  unfold ZTurnings.pass, ZTurnings.counts.
  destruct (find_1 z (n st) <? 0)%float; [simpl; split; lia|].
  destruct (find_1 z (n st) =? 0)%float; [|simpl; split; lia].
  destruct (find_n z (n st) <? 0)%float; simpl; split; lia.
Qed.

Lemma scan_tested_bounds st k :
  In k (snd (scan st)) -> (MIN_DIFF_N <= k <= n st)%Z.
Proof.
  funelim (ZTurnings.scan z cut st); simpl; [|tauto].
  intros [<-|Hin]; [lia|].
  match goal with IH : forall k, In k _ -> _ |- _ => apply IH in Hin end.
  destruct (pass_n z cut st) as [E|E]; rewrite E in Hin;
    unfold MIN_DIFF_N in *; lia.
Qed.

Lemma scan_tested_skip st k j :
  In k (snd (scan st)) -> counts k = true ->
  (k - MIN_DIFF_N <= j < k)%Z -> ~ In j (snd (scan st)).
Proof.
  funelim (ZTurnings.scan z cut st); simpl; [|tauto].
  intros [<-|Hin] Hc Hj [E|Hin'].
  - lia.
  - apply scan_tested_bounds in Hin'.
    destruct (pass_counts st) as [En _]. rewrite Hc in En. lia.
  - subst j. apply scan_tested_bounds in Hin.
    destruct (pass_n z cut st) as [E|E]; rewrite E in Hin;
      unfold MIN_DIFF_N in *; lia.
  - match goal with
    | IH : forall k j, In k _ -> _ |- _ => now apply (IH k j)
    end.
Qed.

Lemma scan_count st :
  z_turnings_count (fst (scan st))
  = (z_turnings_count st
     + Z.of_nat (length (List.filter counts (snd (scan st)))))%Z.
Proof.
  funelim (ZTurnings.scan z cut st); simpl; [|lia].
  match goal with IH : z_turnings_count _ = _ |- _ => rewrite IH end.
  destruct (pass_counts st) as [_ ->].
  destruct (counts (n st)); simpl; lia.
Qed.

(** Each counted turning costs the loop eleven steps. *)
Lemma scan_count_bound st :
  (z_turnings_count st <= z_turnings_count (fst (scan st)))%Z
  /\ (11 * (z_turnings_count (fst (scan st)) - z_turnings_count st)
      <= Z.max 0 (n st + 1))%Z.
Proof.
  funelim (ZTurnings.scan z cut st); simpl; [|lia].
  destruct (pass_counts st) as [En Ec].
  destruct (counts (n st)); rewrite En, Ec in *;
    unfold MIN_DIFF_N in *; lia.
Qed.

(** The first step the loop tests is the one it is entered with, when
    that step passes the test of the header. *)
Lemma scan_tested_head st :
  head (snd (scan st))
  = if (MIN_DIFF_N <=? n st)%Z then Some (n st) else None.
Proof.
  funelim (ZTurnings.scan z cut st); simpl.
  - destruct (Z.leb_spec MIN_DIFF_N (n st)); [reflexivity | lia].
  - destruct (Z.leb_spec MIN_DIFF_N (n st)); [lia | reflexivity].
Qed.

(** The step tested after [a]: 11 below when the pass at [a] counted a
    turning, the one below [a] otherwise. *)
Lemma scan_tested_next st before a b after :
  snd (scan st) = before ++ a :: b :: after ->
  b = (if counts a then a - MIN_DIFF_N - 1 else a - 1)%Z.
Proof.
  revert before.
  funelim (ZTurnings.scan z cut st); simpl;
    [|intros [|? ?]; discriminate].
  intros [|x before] E; simpl in E; injection E as E1 E2.
  - subst a. pose proof (scan_tested_head (pass st)) as Hh.
    rewrite E2 in Hh. simpl in Hh.
    destruct (MIN_DIFF_N <=? n (pass st))%Z; [|discriminate].
    injection Hh as ->. apply pass_counts.
  - match goal with
    | IH : forall a b after before, _ = _ -> _ |- _ => now apply (IH a b after before)
    end.
Qed.

(** The loop stops at the test of its header: the step that would come
    after the last tested one is below [MIN_DIFF_N]. *)
Lemma scan_tested_last st before a :
  snd (scan st) = before ++ [a] ->
  ((if counts a then a - MIN_DIFF_N - 1 else a - 1) < MIN_DIFF_N)%Z.
Proof.
  revert before.
  funelim (ZTurnings.scan z cut st); simpl;
    [|intros [|? ?]; discriminate].
  intros [|x before] E; simpl in E; injection E as E1 E2.
  - subst a. pose proof (scan_tested_head (pass st)) as Hh.
    rewrite E2 in Hh. simpl in Hh.
    destruct (Z.leb_spec MIN_DIFF_N (n (pass st))); [discriminate|].
    destruct (pass_counts st) as [<- _]. assumption.
  - match goal with
    | IH : forall a before, _ = _ -> _ |- _ => now apply (IH a before)
    end.
Qed.

(** The loop runs to its end: it leaves [n] below the bound of its
    header. *)
Lemma scan_done st : (n (fst (scan st)) < MIN_DIFF_N)%Z.
Proof. funelim (ZTurnings.scan z cut st); simpl; [assumption | lia]. Qed.

End ZTurningsLoop.

(** ** Integers as doubles *)

Section IntToDouble.
Import ZTurnings.
Local Open Scope Z_scope.

Lemma iter_xO_value m d : Z.pos (Pos.iter xO m d) = Z.pos m * 2 ^ Z.pos d.
Proof.
  induction d as [|d IH] using Pos.peano_ind.
  - cbn [Pos.iter]. lia.
  - rewrite Pos.iter_succ, Pos2Z.inj_xO, IH, Pos2Z.inj_succ, Z.pow_succ_r by lia.
    ring.
Qed.

Lemma shl_align_value m e ez :
  ez <= e -> Z.pos (fst (shl_align m e ez)) = Z.pos m * 2 ^ (e - ez).
Proof.
  intros H. unfold shl_align.
  destruct (ez - e) as [|p|d] eqn:E.
  - replace (e - ez) with 0 by lia. cbn [fst]. lia.
  - lia.
  - cbn [fst]. change (PosDef.Pos.iter xO m d) with (Pos.iter xO m d).
    rewrite iter_xO_value. f_equal. f_equal. lia.
Qed.

Lemma digits2_pos_bounds m :
  2 ^ (Z.pos (digits2_pos m) - 1) <= Z.pos m < 2 ^ Z.pos (digits2_pos m).
Proof.
  induction m as [m IH|m IH|]; cbn [digits2_pos].
  - change (PosDef.Pos.succ (digits2_pos m)) with (Pos.succ (digits2_pos m)).
    rewrite Pos2Z.inj_succ, (Pos2Z.inj_xI m).
    replace (Z.succ (Z.pos (digits2_pos m)) - 1)
      with (Z.succ (Z.pos (digits2_pos m) - 1)) by lia.
    rewrite !Z.pow_succ_r by lia.
    destruct IH as [IH1 IH2]. revert IH1 IH2.
    generalize (2 ^ (Z.pos (digits2_pos m) - 1)) (2 ^ Z.pos (digits2_pos m)).
    lia.
  - change (PosDef.Pos.succ (digits2_pos m)) with (Pos.succ (digits2_pos m)).
    rewrite Pos2Z.inj_succ, (Pos2Z.inj_xO m).
    replace (Z.succ (Z.pos (digits2_pos m)) - 1)
      with (Z.succ (Z.pos (digits2_pos m) - 1)) by lia.
    rewrite !Z.pow_succ_r by lia.
    destruct IH as [IH1 IH2]. revert IH1 IH2.
    generalize (2 ^ (Z.pos (digits2_pos m) - 1)) (2 ^ Z.pos (digits2_pos m)).
    lia.
  - cbn. lia.
Qed.

Lemma SFopp_binary_round p e :
  SFopp (binary_round prec emax false p e) = binary_round prec emax true p e.
Proof.
  unfold binary_round. destruct (shl_align _ _ _) as [mz ez].
  unfold binary_round_aux.
  destruct (shr_fexp _ _ _ _ _) as [mrs e'].
  destruct (shr_fexp _ _ _ _ _) as [mrs' e''].
  destruct (shr_m mrs'); try reflexivity.
  destruct (_ <=? _)%Z; reflexivity.
Qed.

Lemma double_of_int_spec (i : Z) :
  (- 2 ^ 63 < i < 2 ^ 63)%Z ->
  Prim2SF (double_of_int i) = binary_normalize prec emax i 0 false.
Proof.
  intros Hi. unfold double_of_int.
  change (2 ^ 63)%Z with 9223372036854775808%Z in Hi.
  assert (Uint63.wB = 9223372036854775808%Z) as EwB by reflexivity.
  destruct (Z.ltb_spec i 0).
  - rewrite opp_spec, of_uint63_spec.
    rewrite Uint63.of_Z_spec, Z.mod_small by lia.
    destruct i as [|p|p]; try lia. simpl Z.opp.
    unfold binary_normalize. apply SFopp_binary_round.
  - rewrite of_uint63_spec.
    rewrite Uint63.of_Z_spec, Z.mod_small by lia.
    reflexivity.
Qed.

Lemma shl_align_exponent m e ez : ez <= e -> snd (shl_align m e ez) = ez.
Proof.
  intros H. unfold shl_align.
  destruct (ez - e) as [|p|d] eqn:E; cbn [snd]; lia.
Qed.

Lemma digits2_pos_unique m d :
  2 ^ (d - 1) <= Z.pos m < 2 ^ d -> 0 < d -> Z.pos (digits2_pos m) = d.
Proof.
  intros [Hlo Hhi] Hd.
  pose proof (digits2_pos_bounds m) as [Blo Bhi].
  set (d' := Z.pos (digits2_pos m)) in *.
  assert (0 < d') by (subst d'; lia).
  destruct (Z.lt_trichotomy d' d) as [Hlt|[E|Hgt]]; [|exact E|].
  - assert (2 ^ d' <= 2 ^ (d - 1)) by (apply Z.pow_le_mono_r; lia). lia.
  - assert (2 ^ d <= 2 ^ (d' - 1)) by (apply Z.pow_le_mono_r; lia). lia.
Qed.

(** An integer below [2^53] is a double: rounding does not change it. *)
Lemma binary_round_integer sx p :
  Z.pos p < 2 ^ 53 ->
  exists m e,
    binary_round prec emax sx p 0 = S754_finite sx m e
    /\ e <= 0 /\ Z.pos m = Z.pos p * 2 ^ (- e).
Proof.
  intros Hp.
  pose proof (digits2_pos_bounds p) as [Blo Bhi].
  set (d := Z.pos (digits2_pos p)) in *.
  assert (0 < d) as Hd0 by (subst d; lia).
  assert (d <= 53) as Hd.
  { destruct (Z.le_gt_cases d 53) as [|Hgt]; [assumption|].
    assert (2 ^ 53 <= 2 ^ (d - 1)) by (apply Z.pow_le_mono_r; lia). lia. }
  unfold binary_round. fold d.
  assert (fexp prec emax (d + 0) = d - 53) as ->.
  { unfold fexp, SpecFloat.emin. change IntDef.Z.max with Z.max.
    change prec with 53. change emax with 1024. lia. }
  pose proof (shl_align_value p 0 (d - 53)) as Hv.
  pose proof (shl_align_exponent p 0 (d - 53)) as He.
  destruct (shl_align p 0 (d - 53)) as [mz ez]. cbn [fst snd] in Hv, He.
  specialize (Hv ltac:(lia)). specialize (He ltac:(lia)). subst ez.
  replace (0 - (d - 53)) with (53 - d) in Hv by lia.
  assert (2 ^ 52 <= Z.pos mz < 2 ^ 53) as Hmz.
  { rewrite Hv.
    replace (2 ^ 52) with (2 ^ (d - 1) * 2 ^ (53 - d))
      by (rewrite <- Z.pow_add_r by lia; f_equal; lia).
    replace (2 ^ 53) with (2 ^ d * 2 ^ (53 - d))
      by (rewrite <- Z.pow_add_r by lia; f_equal; lia).
    assert (0 < 2 ^ (53 - d)) by (apply Z.pow_pos_nonneg; lia).
    split; [apply Z.mul_le_mono_nonneg_r | apply Z.mul_lt_mono_pos_r]; lia. }
  assert (Z.pos (digits2_pos mz) = 53) as Hdz
    by (apply digits2_pos_unique; [exact Hmz | lia]).
  assert (shr_fexp prec emax (Z.pos mz) (d - 53) loc_Exact
          = ({| shr_m := Z.pos mz; shr_r := false; shr_s := false |}, d - 53))
    as Hshr.
  { unfold shr_fexp. cbn [Zdigits2]. rewrite Hdz.
    assert (fexp prec emax (53 + (d - 53)) - (d - 53) = 0) as ->.
    { unfold fexp, SpecFloat.emin. change IntDef.Z.max with Z.max.
      change prec with 53. change emax with 1024. lia. }
    reflexivity. }
  unfold binary_round_aux. rewrite Hshr.
  cbn [shr_m loc_of_shr_record round_nearest_even]. rewrite Hshr.
  cbn [shr_m].
  exists mz, (d - 53).
  destruct (Z.leb_spec (d - 53) (emax - prec)) as [_|Hbad];
    [|change prec with 53 in Hbad; change emax with 1024 in Hbad; lia].
  split; [reflexivity|]. split; [lia|].
  rewrite Hv. f_equal. f_equal. lia.
Qed.

(** [static_cast<double>] of an [int] is exact. *)
Lemma double_of_int_exact (i : Z) :
  - 2 ^ 53 < i < 2 ^ 53 ->
  match Prim2SF (double_of_int i) with
  | S754_zero sign => sign = false /\ i = 0
  | S754_finite sign mant e =>
      e <= 0 /\ i * 2 ^ (- e) = (if sign then Z.neg mant else Z.pos mant)
  | _ => False
  end.
Proof.
  intros Hi. rewrite double_of_int_spec
    by (change (2 ^ 63) with 9223372036854775808;
        change (2 ^ 53) with 9007199254740992 in Hi; lia).
  destruct i as [|p|p]; cbn [binary_normalize].
  - auto.
  - destruct (binary_round_integer false p) as (m & e & -> & He & Hm); [lia|].
    split; [exact He|]. lia.
  - destruct (binary_round_integer true p) as (m & e & -> & He & Hm); [lia|].
    split; [exact He|]. lia.
Qed.

End IntToDouble.

Section ZTurningsClaim.
Import ZTurnings.
Variable uninitialized : float.

(** C8.  The stride is the constant 10, whatever the number of steps.
    For every ray: no step within 10 of either end of the trajectory is
    tested (a tested [n] has [10 <= n <= num_steps - 11]); the scan
    starts at step [num_steps - 11], goes from a tested step [n] to
    [n - 11] when the pass at [n] counted a turning (the 10 steps
    [n-10 .. n-1] are skipped) and to [n - 1] otherwise, and stops when
    the next step is below 10; the count returned is the count passed in
    plus the number of tested steps that counted; and the cell of the
    z-turnings channel of the image at the ray holds that count as a
    double: the IEEE 754 rounding of the integer, which is exact (the
    cell is [+0] for a count of 0 and otherwise a finite number
    [mant * 2^e] equal to the count), when the count stays an [int]. *)
Theorem z_turnings_stride (s : RadiationIntegrator)
    (m num_steps n_start0 count0 : Z)
    (level_image : Array.t float) (d2 d1 : nat) (dflt : float) :
  image s !! Z.to_nat (adaptive_level s) = Some level_image ->
  Array.shaped2 level_image d2 d1 ->
  Z.to_nat (image_offset_z_turnings s) < d2 ->
  Z.to_nat m < d1 ->
  (- 2 ^ 31 <= count0)%Z ->
  (count0 + Z.max 0 num_steps < 2 ^ 31)%Z ->
  let result := FindZTurnings uninitialized s m num_steps n_start0 count0 in
  let tested := tested_steps uninitialized s m num_steps n_start0 count0 in
  let counts := counts (sample_z uninitialized s m) in
  let cell :=
    Array.get2 dflt
      (level_array (image (fst (fst result))) (adaptive_level s))
      (Z.to_nat (image_offset_z_turnings s)) (Z.to_nat m) in
  (forall n, In n tested -> (10 <= n <= num_steps - 11)%Z)
  /\ head tested
     = (if (21 <=? num_steps)%Z then Some (num_steps - 11)%Z else None)
  /\ (forall before n n' after,
        tested = before ++ n :: n' :: after ->
        n' = if counts n then (n - 11)%Z else (n - 1)%Z)
  /\ (forall before n,
        tested = before ++ [n] ->
        ((if counts n then n - 11 else n - 1) < 10)%Z)
  /\ (forall n j, In n tested -> counts n = true ->
        (n - 10 <= j < n)%Z -> ~ In j tested)
  /\ snd result
     = (count0 + Z.of_nat (length (List.filter counts tested)))%Z
  /\ Prim2SF cell = binary_normalize prec emax (snd result) 0 false
  /\ match Prim2SF cell with
     | S754_zero sign => sign = false /\ snd result = 0%Z
     | S754_finite sign mant e =>
         (e <= 0)%Z
         /\ (snd result * 2 ^ (- e))%Z
            = (if sign then Z.neg mant else Z.pos mant)
     | _ => False
     end.
Proof.
  intros Himage Hshape Hoffset Hm Hlow Hhigh result tested counts cell.
  assert (cell = double_of_int (snd result)) as Ecell.
  { subst cell result. unfold FindZTurnings. cbn [fst snd image].
    unfold level_array.
    set (v := double_of_int _).
    rewrite (nth_lookup _ _ (Array.mk [] 0 0 0)).
    rewrite list_lookup_alter_eq, Himage.
    cbn [fmap option_fmap option_map default].
    now apply (get2_set2_same dflt level_image d2 d1). }
  assert (- 2 ^ 31 <= snd result < 2 ^ 31)%Z as Hint.
  { subst result. unfold FindZTurnings. cbn [fst snd].
    destruct (scan_count_bound (sample_z uninitialized s m) (cut_z_turnings s)
                (first_state num_steps n_start0 count0)) as [H1 H2].
    cbn [first_state n z_turnings_count] in H1, H2.
    unfold MIN_DIFF_N in *. lia. }
  change (2 ^ 31)%Z with 2147483648%Z in Hint.
  split; [|split; [|split; [|split; [|split; [|split; [|split]]]]]].
  - intros n Hn. apply scan_tested_bounds in Hn.
    cbn [first_state ZTurnings.n] in Hn. unfold MIN_DIFF_N in Hn. lia.
  - subst tested. unfold tested_steps. cbn [snd].
    rewrite scan_tested_head. cbn [first_state n]. unfold MIN_DIFF_N.
    destruct (Z.leb_spec 10 (num_steps - 10 - 1)),
      (Z.leb_spec 21 num_steps); try lia; [f_equal; lia | reflexivity].
  - intros before n n' after E.
    apply scan_tested_next in E. rewrite E. subst counts. unfold MIN_DIFF_N.
    destruct (ZTurnings.counts _ n); lia.
  - intros before n E.
    apply scan_tested_last in E. subst counts. unfold MIN_DIFF_N in E.
    destruct (ZTurnings.counts _ n); lia.
  - intros n j Hn Hc Hj.
    apply (scan_tested_skip _ _ _ n j); [exact Hn | exact Hc|].
    unfold MIN_DIFF_N. lia.
  - apply scan_count.
  - rewrite Ecell. apply double_of_int_spec.
    change (2 ^ 63)%Z with 9223372036854775808%Z. lia.
  - rewrite Ecell. apply double_of_int_exact.
    change (2 ^ 53)%Z with 9007199254740992%Z. lia.
Qed.

End ZTurningsClaim.

(** C8 on the sample trajectory of 60 steps: the scan starts at step 49,
    the turning at step 30 is counted, the scan goes on at step 19 and
    stops after step 10; the cell holds [1.0]. *)
Lemma z_turnings_stride_witness :
  let s := Trajectory.integrator in
  let result := ZTurnings.FindZTurnings 0%float s 0 60 (-1) 0 in
  let tested := ZTurnings.tested_steps 0%float s 0 60 (-1) 0 in
  let counts := ZTurnings.counts (ZTurnings.sample_z 0%float s 0) in
  let cell :=
    Array.get2 0%float
      (ZTurnings.level_array (ZTurnings.image (fst (fst result)))
         (ZTurnings.adaptive_level s))
      (Z.to_nat (ZTurnings.image_offset_z_turnings s)) (Z.to_nat 0) in
  ((forall n, In n tested -> (10 <= n <= 60 - 11)%Z)
   /\ head tested = (if (21 <=? 60)%Z then Some (60 - 11)%Z else None)
   /\ (forall before n n' after,
         tested = before ++ n :: n' :: after ->
         n' = if counts n then (n - 11)%Z else (n - 1)%Z)
   /\ (forall before n,
         tested = before ++ [n] ->
         ((if counts n then n - 11 else n - 1) < 10)%Z)
   /\ (forall n j, In n tested -> counts n = true ->
         (n - 10 <= j < n)%Z -> ~ In j tested)
   /\ snd result = (0 + Z.of_nat (length (List.filter counts tested)))%Z
   /\ Prim2SF cell = binary_normalize prec emax (snd result) 0 false
   /\ match Prim2SF cell with
      | S754_zero sign => sign = false /\ snd result = 0%Z
      | S754_finite sign mant e =>
          (e <= 0)%Z
          /\ (snd result * 2 ^ (- e))%Z
             = (if sign then Z.neg mant else Z.pos mant)
      | _ => False
      end)
  /\ tested = [49; 48; 47; 46; 45; 44; 43; 42; 41; 40; 39; 38; 37; 36; 35; 34;
               33; 32; 31; 30; 19; 18; 17; 16; 15; 14; 13; 12; 11; 10]%Z
  /\ List.filter counts tested = [30%Z]
  /\ snd result = 1%Z
  /\ cell = 1%float.
Proof.
  split.
  - apply (z_turnings_stride 0%float Trajectory.integrator 0 60 (-1) 0
             (Array.mk [0.0; 0.0]%float 1 2 1) 2 1 0%float).
    + reflexivity.
    + vm_compute. auto.
    + vm_compute. lia.
    + vm_compute. lia.
    + vm_compute. discriminate.
    + vm_compute. reflexivity.
  - vm_compute. auto.
Defined.

(** ** The driver *)

Section DriverClaims.
Import Driver.

(** The exit status of [main], path by path. *)
Lemma main_exit_status argv input_reader :
  exit_status (main argv input_reader)
  = if negb (Z.of_nat (length argv) =? 2)%Z then 1%Z
    else match input_reader (nth 1 argv EmptyString) with
         | Constructed => 0%Z
         | Throws_ray_trace_exception _ => 1%Z
         | Throws_other => 0%Z
         end.
Proof.
  unfold main. destruct (negb _); [reflexivity|].
  destruct (input_reader _); reflexivity.
Qed.

(** C1 fails on the code: when the input reader throws anything but a
    [ray_trace_exception], [main] prints its message and returns 0. *)
Lemma main_returns_0_after_unknown_exception :
  main ["ray_trace"; "input.txt"]%string (fun _ => Throws_other)
  = {| standard_output := ["Error: Could not read input file." ++ newline]%string;
       exit_status := 0 |}.
Proof. reflexivity. Qed.

End DriverClaims.

(** ** The driver, path by path *)

Section DriverFacts.
Import Driver.

(** X1.  [main] exits with status 1 exactly when it is not given one
    argument or the input reader throws a [ray_trace_exception]; on every
    other path it exits with status 0. *)
Theorem main_exit_status_1_iff argv input_reader :
  (exit_status (main argv input_reader) = 1%Z
   <-> length argv <> 2
       \/ exists what,
            input_reader (nth 1 argv EmptyString)
            = Throws_ray_trace_exception what)
  /\ (exit_status (main argv input_reader) = 0%Z
      \/ exit_status (main argv input_reader) = 1%Z).
Proof.
  rewrite main_exit_status.
  destruct (Z.eqb_spec (Z.of_nat (length argv)) 2) as [E|E]; cbn [negb].
  - destruct (input_reader _) eqn:Hr; (split; [split|]); auto;
      try discriminate; try (right; eauto; fail).
    + intros [H|[what H]]; [lia | discriminate].
    + intros [H|[what H]]; [lia | discriminate].
  - split; [split|]; auto. intros _. left. lia.
Qed.

(** X2.  With any number of arguments but one, [main] does not construct
    the input reader: whatever the reader would do, the program prints
    the message of usage and exits with status 1. *)
Theorem main_wrong_argument_count argv input_reader :
  length argv <> 2 ->
  main argv input_reader
  = {| standard_output :=
         ["Error: Must give a single input file." ++ newline]%string;
       exit_status := 1 |}.
Proof.
  intros H. unfold main.
  destruct (Z.eqb_spec (Z.of_nat (length argv)) 2) as [E|E]; [lia|].
  reflexivity.
Qed.

(** X3.  What [main] prints.  With any number of arguments but one it
    prints the message of usage; given one argument, it prints nothing
    when the reader is constructed, the message of the exception (as it
    is, with no newline added) when the reader throws a
    [ray_trace_exception], and the message that the file could not be
    read on any other exception.  So it prints no character exactly when
    it is given one argument and the reader is constructed or throws a
    [ray_trace_exception] whose message is empty. *)
Theorem main_output argv input_reader :
  let text := Output.printed (main argv input_reader) in
  let outcome := input_reader (nth 1 argv EmptyString) in
  (length argv <> 2 ->
   text = ("Error: Must give a single input file." ++ newline)%string)
  /\ (length argv = 2 -> outcome = Constructed -> text = EmptyString)
  /\ (forall what,
        length argv = 2 -> outcome = Throws_ray_trace_exception what ->
        text = what)
  /\ (length argv = 2 -> outcome = Throws_other ->
      text = ("Error: Could not read input file." ++ newline)%string)
  /\ (text = EmptyString
      <-> length argv = 2
          /\ (outcome = Constructed
              \/ outcome = Throws_ray_trace_exception EmptyString)).
Proof.
  cbv zeta. unfold Output.printed, main.
  destruct (Z.eqb_spec (Z.of_nat (length argv)) 2) as [E|E]; cbn [negb].
  - assert (length argv = 2) as El by lia.
    destruct (input_reader _) as [|what|] eqn:Hr;
      cbn [standard_output String.concat];
      (split; [|split; [|split; [|split; [|split]]]]);
      try (intros; first [congruence | lia | reflexivity]).
    + intros _. split; [exact El | now left].
    + intros ->. split; [exact El | now right].
    + intros [_ [H|H]]; [discriminate | now inversion H].
    + intros H. simpl in H. discriminate.
    + intros [_ [H|H]]; discriminate.
  - cbn [standard_output String.concat].
    split; [|split; [|split; [|split; [|split]]]];
      try (intros; first [congruence | lia | reflexivity]).
    intros H. simpl in H. discriminate.
Qed.

End DriverFacts.

(** X2 for a call with no argument. *)
Lemma main_wrong_argument_count_witness :
  Driver.main ["ray_trace"%string] (fun _ => Driver.Constructed)
  = {| Driver.standard_output :=
         ["Error: Must give a single input file." ++ Driver.newline]%string;
       Driver.exit_status := 1 |}.
Proof.
  apply (main_wrong_argument_count ["ray_trace"%string]
           (fun _ => Driver.Constructed)).
  simpl. lia.
Defined.

(** ** The formula coefficients: what a call leaves alone, and a later call *)

Section FormulaFacts.
Import FormulaCoefficients.
Context {cmath : CMath}.
Variable RadialGeodesicCoordinate :
  RadiationIntegrator -> float -> float -> float -> float.
Variable uninitialized : float.

Local Abbreviation Calculate :=
  (CalculateFormulaCoefficients RadialGeodesicCoordinate uninitialized).
Local Abbreviation stored_j := (stored_j RadialGeodesicCoordinate uninitialized).
Local Abbreviation stored_alpha :=
  (stored_alpha RadialGeodesicCoordinate uninitialized).

Lemma shaped2_is_shaped2 (a : Array.t float) d2 d1 :
  Array.shaped2 a d2 d1 -> Array.is_shaped2 a d2 d1 = true.
Proof.
  unfold Array.is_shaped2, Array.shaped2.
  rewrite !andb_true_iff, !Nat.eqb_eq. tauto.
Qed.

Lemma coefficients_shaped s :
  well_formed s = true ->
  Array.shaped2 (j_i (Calculate s))
    (Z.to_nat (camera_num_pix s)) (Z.to_nat (geodesic_num_steps s))
  /\ Array.shaped2 (alpha_i (Calculate s))
       (Z.to_nat (camera_num_pix s)) (Z.to_nat (geodesic_num_steps s)).
Proof.
  intros Hwf. destruct (well_formed_allocated uninitialized s Hwf) as [Hj Ha].
  unfold CalculateFormulaCoefficients, with_coefficients; cbn [j_i alpha_i].
  rewrite fst_pixels, snd_pixels.
  split; now apply shaped2_row_writers.
Qed.

Lemma well_formed_shaped s :
  Array.shaped2 (j_i s)
    (Z.to_nat (camera_num_pix s)) (Z.to_nat (geodesic_num_steps s)) ->
  Array.shaped2 (alpha_i s)
    (Z.to_nat (camera_num_pix s)) (Z.to_nat (geodesic_num_steps s)) ->
  forallb
    (fun m => (Array.get1 0 (sample_num s) m <=? geodesic_num_steps s)%Z)
    (upto (camera_num_pix s)) = true ->
  well_formed s = true.
Proof.
  intros Hj Ha Hn. unfold well_formed.
  rewrite Hn, (shaped2_is_shaped2 _ _ _ Hj), (shaped2_is_shaped2 _ _ _ Ha).
  now rewrite orb_true_r.
Qed.

Lemma well_formed_after s :
  well_formed s = true ->
  well_formed (Calculate s) = true
  /\ well_formed (Repeated.clear_first_time (Calculate s)) = true.
Proof.
  intros Hwf. destruct (coefficients_shaped s Hwf) as [Hj Ha].
  assert (forallb
            (fun m => (Array.get1 0 (sample_num s) m <=? geodesic_num_steps s)%Z)
            (upto (camera_num_pix s)) = true) as Hn.
  { unfold well_formed in Hwf. now apply andb_true_iff in Hwf. }
  split; apply well_formed_shaped; assumption.
Qed.

(** X4.  What a call of [CalculateFormulaCoefficients] leaves alone.  Both
    arrays have [camera_num_pix] rows of [geodesic_num_steps] cells after
    it; a cell past the sample count of its pixel, and every cell of a
    pixel with no samples, keeps what it held (on a first call, what the
    allocation left there); and no member but the two arrays changes:
    [first_time] is not cleared. *)
Theorem coefficients_frame (s : RadiationIntegrator) (dflt : float) :
  well_formed s = true ->
  let s' := Calculate s in
  Array.shaped2 (j_i s')
    (Z.to_nat (camera_num_pix s)) (Z.to_nat (geodesic_num_steps s))
  /\ Array.shaped2 (alpha_i s')
       (Z.to_nat (camera_num_pix s)) (Z.to_nat (geodesic_num_steps s))
  /\ (forall m n,
        n < Z.to_nat (geodesic_num_steps s) ->
        ~ (m < Z.to_nat (camera_num_pix s) /\ n < num_samples s m) ->
        Array.get2 dflt (j_i s') m n
        = Array.get2 dflt (fst (allocated uninitialized s)) m n
        /\ Array.get2 dflt (alpha_i s') m n
           = Array.get2 dflt (snd (allocated uninitialized s)) m n)
  /\ with_coefficients s' (j_i s) (alpha_i s) = s
  /\ first_time s' = first_time s.
Proof.
  intros Hwf s'. destruct (coefficients_shaped s Hwf) as [Hj Ha].
  split; [exact Hj|]. split; [exact Ha|]. split; [|split].
  - intros m n Hn Hout.
    destruct (coefficients_after RadialGeodesicCoordinate uninitialized
                dflt s m n Hwf Hn) as [Ej Ea].
    subst s'. rewrite Ej, Ea. rewrite !decide_False by assumption. auto.
  - destruct s; reflexivity.
  - reflexivity.
Qed.

(** The values stored depend on the members the loop reads and on the
    radial coordinate alone. *)
Lemma stored_same_inputs s1 s2 m n :
  Repeated.same_inputs s1 s2 ->
  RadialGeodesicCoordinate s1 = RadialGeodesicCoordinate s2 ->
  stored_j s1 m n = stored_j s2 m n
  /\ stored_alpha s1 m n = stored_alpha s2 m n.
Proof.
  unfold Repeated.same_inputs. intros Hs Hr.
  set (norm := fun s =>
         with_coefficients (Repeated.clear_first_time s)
           (Array.mk [] 0 0 0) (Array.mk [] 0 0 0)) in *.
  change (FormulaCoefficients.stored_j RadialGeodesicCoordinate uninitialized
            s1 m n)
    with (FormulaCoefficients.stored_j (fun _ => RadialGeodesicCoordinate s1)
            uninitialized (norm s1) m n).
  change (FormulaCoefficients.stored_alpha RadialGeodesicCoordinate
            uninitialized s1 m n)
    with (FormulaCoefficients.stored_alpha
            (fun _ => RadialGeodesicCoordinate s1) uninitialized (norm s1) m n).
  change (norm s1 = norm s2) in Hs. rewrite Hs, Hr. split; reflexivity.
Qed.

(** X5.  A second call changes nothing.  Let the radial coordinate read
    neither [first_time] nor the coefficient arrays.  Then calling
    [CalculateFormulaCoefficients] again on the object the first call
    left, once [first_time] is false (as [Integrate] leaves it), leaves
    in every cell of both arrays what the first call left there. *)
Theorem second_call_same_cells (s : RadiationIntegrator) (dflt : float) :
  well_formed s = true ->
  (forall s1 s2, Repeated.same_inputs s1 s2 ->
     RadialGeodesicCoordinate s1 = RadialGeodesicCoordinate s2) ->
  let first := Calculate s in
  let second := Calculate (Repeated.clear_first_time first) in
  forall m n,
    n < Z.to_nat (geodesic_num_steps s) ->
    Array.get2 dflt (j_i second) m n = Array.get2 dflt (j_i first) m n
    /\ Array.get2 dflt (alpha_i second) m n
       = Array.get2 dflt (alpha_i first) m n.
Proof.
  intros Hwf Hr first second m n Hn.
  destruct (well_formed_after s Hwf) as [Hwf1 Hwf2].
  set (t := Repeated.clear_first_time first) in *.
  assert (well_formed t = true) as Hwft by exact Hwf2.
  assert (Repeated.same_inputs t s) as Hsame by reflexivity.
  assert (camera_num_pix t = camera_num_pix s
          /\ geodesic_num_steps t = geodesic_num_steps s
          /\ num_samples t m = num_samples s m) as (Ep & En & Ek)
    by (repeat split; reflexivity).
  destruct (coefficients_after RadialGeodesicCoordinate uninitialized
              dflt s m n Hwf Hn) as [Ej Ea].
  assert (n < Z.to_nat (geodesic_num_steps t)) as Hn' by now rewrite En.
  destruct (coefficients_after RadialGeodesicCoordinate uninitialized
              dflt t m n Hwft Hn') as [Ej' Ea'].
  destruct (stored_same_inputs t s m n Hsame (Hr t s Hsame)) as [Sj Sa].
  rewrite Ep, Ek, Sj in Ej'. rewrite Ep, Ek, Sa in Ea'.
  assert (j_i t = j_i first /\ alpha_i t = alpha_i first) as [Tj Ta]
    by (split; reflexivity).
  subst second. fold first in Ej, Ea. rewrite Ej', Ea', Ej, Ea.
  destruct (decide _) as [Hin|Hout]; [auto|].
  assert (first_time t = false) as Ef by reflexivity.
  unfold allocated at 1 3. rewrite Ef. cbn [fst snd].
  rewrite Tj, Ta, Ej, Ea. auto.
Qed.

End FormulaFacts.

(** X4 on the sample object: pixel 1 has one sample of two steps. *)
Lemma coefficients_frame_witness :
  let s := Platform.emitting in
  let s' := Platform.run s in
  FormulaCoefficients.well_formed s = true
  /\ (Array.shaped2 (FormulaCoefficients.j_i s')
        (Z.to_nat (FormulaCoefficients.camera_num_pix s))
        (Z.to_nat (FormulaCoefficients.geodesic_num_steps s))
      /\ Array.shaped2 (FormulaCoefficients.alpha_i s')
           (Z.to_nat (FormulaCoefficients.camera_num_pix s))
           (Z.to_nat (FormulaCoefficients.geodesic_num_steps s))
      /\ (forall m n,
            n < Z.to_nat (FormulaCoefficients.geodesic_num_steps s) ->
            ~ (m < Z.to_nat (FormulaCoefficients.camera_num_pix s)
               /\ n < FormulaCoefficients.num_samples s m) ->
            Array.get2 0%float (FormulaCoefficients.j_i s') m n
            = Array.get2 0%float
                (fst (FormulaCoefficients.allocated 0%float s)) m n
            /\ Array.get2 0%float (FormulaCoefficients.alpha_i s') m n
               = Array.get2 0%float
                   (snd (FormulaCoefficients.allocated 0%float s)) m n)
      /\ FormulaCoefficients.with_coefficients s'
           (FormulaCoefficients.j_i s) (FormulaCoefficients.alpha_i s) = s
      /\ FormulaCoefficients.first_time s' = FormulaCoefficients.first_time s)
  /\ ~ (1 < Z.to_nat (FormulaCoefficients.camera_num_pix s)
        /\ 1 < FormulaCoefficients.num_samples s 1).
Proof.
  cbv zeta. split; [vm_compute; reflexivity|]. split.
  - apply (@coefficients_frame Platform.special_values
             Platform.RadialGeodesicCoordinate 0%float Platform.emitting
             0%float).
    vm_compute; reflexivity.
  - vm_compute. lia.
Defined.

(** The radial coordinate of the sample platform reads the spin alone. *)
Lemma Platform_radial_coordinate_inputs s1 s2 :
  Repeated.same_inputs s1 s2 ->
  Platform.RadialGeodesicCoordinate s1 = Platform.RadialGeodesicCoordinate s2.
Proof.
  unfold Repeated.same_inputs, Repeated.clear_first_time,
    FormulaCoefficients.with_coefficients; cbn.
  intros H. injection H as _ Ha _. unfold Platform.RadialGeodesicCoordinate.
  now rewrite Ha.
Qed.

(** X5 on the sample object. *)
Lemma second_call_same_cells_witness :
  let first := Platform.run Platform.emitting in
  let second := Platform.run (Repeated.clear_first_time first) in
  FormulaCoefficients.well_formed Platform.emitting = true
  /\ forall m n,
       n < Z.to_nat (FormulaCoefficients.geodesic_num_steps Platform.emitting) ->
       Array.get2 0%float (FormulaCoefficients.j_i second) m n
       = Array.get2 0%float (FormulaCoefficients.j_i first) m n
       /\ Array.get2 0%float (FormulaCoefficients.alpha_i second) m n
          = Array.get2 0%float (FormulaCoefficients.alpha_i first) m n.
Proof.
  cbv zeta. split; [vm_compute; reflexivity|].
  apply (@second_call_same_cells Platform.special_values
           Platform.RadialGeodesicCoordinate 0%float Platform.emitting
           0%float).
  - vm_compute; reflexivity.
  - apply Platform_radial_coordinate_inputs.
Defined.

(** X6 on the sample object, the two pixels taken in the other order. *)
Lemma pixel_order_irrelevant_witness :
  let s := Platform.emitting in
  let order := [1; 0] in
  let c :=
    fold_left
      (@FormulaCoefficients.pixel Platform.special_values
         Platform.RadialGeodesicCoordinate 0%float s)
      order (FormulaCoefficients.allocated 0%float s) in
  (FormulaCoefficients.well_formed s = true
   /\ order ≡ₚ FormulaCoefficients.upto (FormulaCoefficients.camera_num_pix s)
   /\ 1 < Z.to_nat (FormulaCoefficients.geodesic_num_steps s))
  /\ Array.get2 0%float (fst c) 0 1
     = Array.get2 0%float (FormulaCoefficients.j_i (Platform.run s)) 0 1
  /\ Array.get2 0%float (snd c) 0 1
     = Array.get2 0%float (FormulaCoefficients.alpha_i (Platform.run s)) 0 1.
Proof.
  cbv zeta.
  assert ([1; 0] ≡ₚ FormulaCoefficients.upto
                      (FormulaCoefficients.camera_num_pix Platform.emitting))
    as Hperm by (vm_compute; apply perm_swap).
  split.
  - split; [vm_compute; reflexivity|]. split; [exact Hperm | vm_compute; lia].
  - apply (@pixel_order_irrelevant Platform.special_values
             Platform.RadialGeodesicCoordinate 0%float 0%float
             Platform.emitting [1; 0] 0 1).
    + vm_compute; reflexivity.
    + exact Hperm.
    + vm_compute; lia.
Defined.

(** ** The counter of z-turnings: bounds, order and the starting step *)

Section ZTurningsFacts.
Import ZTurnings.
Variable z : Z -> float.
Variable cut : Z.

Local Abbreviation pass := (pass z cut).
Local Abbreviation scan := (scan z cut).
Local Abbreviation counts := (counts z).



Lemma pass_n_start st :
  n_start (pass st)
  = if (0 <=? cut)%Z && (n_start st <? 0)%Z
       && (z_turnings_count (pass st) =? cut + 1)%Z
    then (n (pass st) + 1)%Z else n_start st.
Proof.
  unfold ZTurnings.pass.
  repeat match goal with
         | |- context [if ?b then _ else _] =>
             lazymatch b with
             | (_ <? _)%float => destruct b
             | (_ =? _)%float => destruct b
             end
         end; cbn [n n_start z_turnings_count];
    destruct (_ && _ && _); lia.
Qed.

(** Once set, or with no cut asked for, the starting step stays. *)
Lemma scan_n_start_kept st :
  (0 <= n_start st)%Z \/ (cut < 0)%Z ->
  n_start (fst (scan st)) = n_start st.
Proof.
  funelim (ZTurnings.scan z cut st); simpl; [|reflexivity].
  intros Hk.
  assert (n_start (pass st) = n_start st) as E.
  { rewrite pass_n_start.
    destruct (Z.leb_spec 0 cut), (Z.ltb_spec (n_start st) 0);
      cbn [andb]; try reflexivity; lia. }
  match goal with IH : _ -> n_start _ = _ |- _ => rewrite IH end;
    [assumption | now rewrite E].
Qed.


End ZTurningsFacts.

Section ZTurningsMore.
Import ZTurnings.
Variable uninitialized : float.


(** X8.  The starting step is set at most once: a call that is passed a
    starting step that is not negative, or made with a negative
    [cut_z_turnings], returns the starting step it was passed. *)
Theorem n_start_kept (s : RadiationIntegrator)
    (m num_steps n_start0 count0 : Z) :
  (0 <= n_start0)%Z \/ (cut_z_turnings s < 0)%Z ->
  snd (fst (FindZTurnings uninitialized s m num_steps n_start0 count0))
  = n_start0.
Proof.
  intros H. unfold FindZTurnings. cbn [fst snd].
  now rewrite scan_n_start_kept.
Qed.


(** X10.  [FindZTurnings] writes one cell.  The image of the current
    level keeps its shape and every cell but that of the z-turnings
    channel at the ray; the images of the other levels and the sample
    positions are as they were. *)
Theorem z_turnings_frame (s : RadiationIntegrator)
    (m num_steps n_start0 count0 : Z)
    (level_image : Array.t float) (d2 d1 : nat) (dflt : float) :
  image s !! Z.to_nat (adaptive_level s) = Some level_image ->
  Array.shaped2 level_image d2 d1 ->
  Z.to_nat m < d1 ->
  let s' := fst (fst (FindZTurnings uninitialized s m num_steps n_start0 count0)) in
  Array.shaped2 (level_array (image s') (adaptive_level s)) d2 d1
  /\ (forall i2 i1,
        i1 < d1 ->
        (i2, i1) <> (Z.to_nat (image_offset_z_turnings s), Z.to_nat m) ->
        Array.get2 dflt (level_array (image s') (adaptive_level s)) i2 i1
        = Array.get2 dflt level_image i2 i1)
  /\ (forall level,
        level <> Z.to_nat (adaptive_level s) ->
        image s' !! level = image s !! level)
  /\ length (image s') = length (image s)
  /\ sample_pos s' = sample_pos s.
Proof.
  intros Himage Hshape Hm. cbv zeta. unfold FindZTurnings.
  cbn [fst snd image sample_pos]. unfold level_array.
  set (v := double_of_int _).
  rewrite (nth_lookup _ _ (Array.mk [] 0 0 0)).
  rewrite list_lookup_alter_eq, Himage.
  cbn [fmap option_fmap option_map default].
  split; [now apply shaped2_set2|]. split; [|split; [|split]].
  - intros i2 i1 Hi1 Hne.
    apply (get2_set2_other dflt level_image d2 d1); try assumption.
    congruence.
  - intros level Hne. now rewrite list_lookup_alter_ne.
  - apply length_alter.
  - reflexivity.
Qed.

End ZTurningsMore.

(** X8 on the sample trajectory, entered with the starting step 25. *)
Lemma n_start_kept_witness :
  ((0 <= 25)%Z \/ (ZTurnings.cut_z_turnings Trajectory.integrator < 0)%Z)
  /\ snd (fst (ZTurnings.FindZTurnings 0%float Trajectory.integrator
                 0 60 25 0))
     = 25%Z.
Proof.
  split; [left; lia|].
  apply (n_start_kept 0%float Trajectory.integrator 0 60 25 0). left. lia.
Defined.


(** X10 on the sample trajectory: the light channel of the ray is kept. *)
Lemma z_turnings_frame_witness :
  let s := Trajectory.integrator in
  let s' := fst (fst (ZTurnings.FindZTurnings 0%float s 0 60 (-1) 0)) in
  (Array.shaped2
     (ZTurnings.level_array (ZTurnings.image s') (ZTurnings.adaptive_level s))
     2 1
   /\ (forall i2 i1,
         i1 < 1 ->
         (i2, i1) <> (Z.to_nat (ZTurnings.image_offset_z_turnings s),
                      Z.to_nat 0) ->
         Array.get2 0%float
           (ZTurnings.level_array (ZTurnings.image s')
              (ZTurnings.adaptive_level s)) i2 i1
         = Array.get2 0%float (Array.mk [0.0; 0.0]%float 1 2 1) i2 i1)
   /\ (forall level,
         level <> Z.to_nat (ZTurnings.adaptive_level s) ->
         ZTurnings.image s' !! level = ZTurnings.image s !! level)
   /\ length (ZTurnings.image s') = length (ZTurnings.image s)
   /\ ZTurnings.sample_pos s' = ZTurnings.sample_pos s)
  /\ ZTurnings.image s' = [Array.mk [0.0; 1.0]%float 1 2 1].
Proof.
  cbv zeta. split.
  - apply (z_turnings_frame 0%float Trajectory.integrator 0 60 (-1) 0
             (Array.mk [0.0; 0.0]%float 1 2 1) 2 1 0%float).
    + reflexivity.
    + vm_compute. auto.
    + vm_compute. lia.
  - vm_compute. reflexivity.
Defined.

(** ** The constructor: the object it returns *)

Section ConstructorObject.
Import Exceptions Constructor.

Lemma when_returned b (m : M unit) w u :
  when b m = (w, inr u) -> b = false /\ w = [] \/ b = true /\ m = (w, inr u).
Proof.
  destruct b; cbn [when]; [now right|].
  intros H. apply ret_returned in H as [_ ->]. now left.
Qed.

Lemma when_throw_returned b (e : exception) w u :
  when b (mthrow e) = (w, inr u) -> b = false /\ w = [].
Proof. intros H. apply when_returned in H as [H|[_ H]]; [exact H | discriminate]. Qed.

(** The ten parts of the constructor before the check of the selection,
    each with what it returned and what it warned of. *)
Lemma before_selection_blocks p w b :
  before_selection p = (w, inr b) ->
  let model := model_type (bs_general b) in
  exists w1 w2 w3 w4 w5 w6 w7 w8 w9 w10,
    copy_general_input_data p = (w1, inr (bs_general b))
    /\ copy_checkpoint_parameters p model = (w2, inr (bs_checkpoint b))
    /\ copy_formula_parameters p model = (w3, inr (bs_formula b))
    /\ copy_simulation_parameters p model = (w4, inr (bs_simulation b))
    /\ copy_plasma_parameters p model = (w5, inr (bs_plasma b))
    /\ copy_slow_light_parameters p model (bs_checkpoint b)
       = (w6, inr (bs_slow_light b))
    /\ copy_fallback_parameters p model (bs_plasma b)
       = (w7, inr (bs_fallback b))
    /\ copy_camera_parameters p = (w8, inr (bs_camera b))
    /\ copy_image_parameters p model (bs_plasma b) = (w9, inr (bs_image b))
    /\ copy_rendering_parameters p model = (w10, inr (bs_rendering b))
    /\ w = w1 ++ w2 ++ w3 ++ w4 ++ w5 ++ w6 ++ w7 ++ w8 ++ w9 ++ w10.
Proof.
  unfold before_selection. intros H. returned_inv H.
  apply ret_returned in H as [<- ->]. cbn. subst.
  do 10 eexists. repeat (split; [eassumption|]).
  now rewrite app_nil_r.
Qed.

(** What the constructor has done when it returns. *)
Lemma new_RadiationIntegrator_returned p w obj :
  new_RadiationIntegrator p = (w, inr obj) ->
  exists w0 b w1,
    before_selection p = (w0, inr b)
    /\ selected (bs_image b) (bs_rendering b) = true
    /\ InputReader.ray_flat p = Some (ray_flat obj)
    /\ copy_adaptive_parameters p (bs_image b) (bs_camera b)
       = (w1, inr (adaptive obj))
    /\ general obj = bs_general b /\ checkpoint obj = bs_checkpoint b
    /\ formula_parameters obj = bs_formula b
    /\ simulation_parameters obj = bs_simulation b
    /\ plasma obj = bs_plasma b /\ slow_light obj = bs_slow_light b
    /\ fallback obj = bs_fallback b /\ camera obj = bs_camera b
    /\ image obj = bs_image b /\ rendering obj = bs_rendering b
    /\ w = w0 ++ w1.
Proof.
  unfold new_RadiationIntegrator. intros H.
  apply bind_returned_inv in H as (w0 & b & w0' & Hb & H & ->).
  apply bind_returned_inv in H as (w1 & [] & w1' & Hsel & H & ->).
  apply bind_returned_inv in H as (w2 & flat & w2' & Hflat & H & ->).
  apply bind_returned_inv in H as (w3 & ad & w3' & Had & H & ->).
  apply ret_returned in H as [<- ->]. cbn.
  unfold check_selection in Hsel. apply when_throw_returned in Hsel as [Hsel ->].
  apply negb_false_iff in Hsel.
  apply value_returned in Hflat as [Hflat ->].
  exists w0, b, w3. rewrite app_nil_r. cbn. repeat split; assumption.
Qed.

Lemma copy_general_input_data_fields p w g :
  copy_general_input_data p = (w, inr g) ->
  InputReader.model_type p = Some (model_type g)
  /\ InputReader.num_threads p = Some (num_threads g)
  /\ bh_m g = 1.0%float
  /\ match model_type g with
     | simulation => InputReader.simulation_a p = Some (bh_a g)
     | formula => InputReader.formula_spin p = Some (bh_a g)
     end.
Proof.
  unfold copy_general_input_data. intros H.
  apply bind_returned_inv in H as (w0 & model & w0' & Hm0 & H & ->).
  apply bind_returned_inv in H as (w1 & threads & w1' & Hm1 & H & ->).
  apply bind_returned_inv in H as (w2 & spin & w2' & Hm2 & H & ->).
  apply ret_returned in H as [<- ->]. cbn.
  apply value_returned in Hm0 as [Hm0 _].
  apply value_returned in Hm1 as [Hm1 _].
  repeat (split; [assumption || reflexivity|]).
  destruct model; now apply value_returned in Hm2 as [Hm2 _].
Qed.

Lemma copy_checkpoint_parameters_flags p model w c :
  copy_checkpoint_parameters p model = (w, inr c) ->
  checkpoint_sample_save c && checkpoint_sample_load c = false
  /\ (model = formula ->
      checkpoint_sample_save c = false /\ checkpoint_sample_load c = false).
Proof.
  unfold copy_checkpoint_parameters. intros H. destruct model;
    cbn [is_simulation] in H.
  - apply bind_returned_inv in H as (w0 & save & w0' & _ & H & ->).
    apply bind_returned_inv in H as (w1 & load & w1' & _ & H & ->).
    apply bind_returned_inv in H as (w2 & [] & w2' & Hm & H & ->).
    apply when_throw_returned in Hm as [Hm _].
    apply bind_returned_inv in H as (w3 & file & w3' & _ & H & ->).
    apply ret_returned in H as [<- _]. cbn. split; [exact Hm | discriminate].
  - apply bind_returned_inv in H as (w0 & [] & w0' & _ & H & ->).
    apply bind_returned_inv in H as (w1 & [] & w1' & _ & H & ->).
    apply ret_returned in H as [<- _]. cbn. auto.
Qed.

Lemma copy_slow_light_parameters_returned p model c w sl :
  copy_slow_light_parameters p model c = (w, inr sl) ->
  slow_light_on sl = true ->
  model = simulation
  /\ InputReader.slow_light_on p = Some true
  /\ checkpoint_sample_save c || checkpoint_sample_load c = false.
Proof.
  unfold copy_slow_light_parameters. intros H Hon. cbv zeta in H.
  apply bind_returned_inv in H as (w0 & on & w0' & Hm0 & H & ->).
  apply bind_returned_inv in H as (w1 & [] & w1' & Hm1 & H & ->).
  apply when_throw_returned in Hm1 as [Hm1 _].
  returned_inv H. apply ret_returned in H as [<- _]. cbn in Hon. subst on.
  destruct model; cbn [is_simulation andb] in *.
  - apply value_if_returned in Hm0 as [Hm0 _]. auto.
  - apply ret_returned in Hm0 as [Hm0 _]. discriminate.
Qed.

Lemma copy_fallback_parameters_returned p model pl w fb :
  copy_fallback_parameters p model pl = (w, inr fb) ->
  InputReader.fallback_nan p = Some (fallback_nan fb).
Proof.
  unfold copy_fallback_parameters. intros H. returned_inv H.
  apply ret_returned in H as [<- _]. cbn.
  match goal with
  | E : value (InputReader.fallback_nan p) = _ |- _ =>
      now apply value_returned in E as [E _]
  end.
Qed.

Lemma copy_camera_parameters_fields p w c :
  copy_camera_parameters p = (w, inr c) ->
  InputReader.camera_r p = Some (camera_r c)
  /\ InputReader.camera_resolution p = Some (camera_resolution c).
Proof.
  unfold copy_camera_parameters. intros H.
  apply bind_returned_inv in H as (w0 & r & w0' & Hm0 & H & ->).
  apply bind_returned_inv in H as (w1 & res & w1' & Hm1 & H & ->).
  apply ret_returned in H as [<- _]. cbn.
  apply value_returned in Hm0 as [Hm0 _].
  apply value_returned in Hm1 as [Hm1 _]. auto.
Qed.

Lemma check_plasma_kappa_returned kappa w u :
  check_plasma_kappa kappa = (w, inr u) ->
  ((kappa <? 3.5) || (5.0 <? kappa))%float = false.
Proof.
  unfold check_plasma_kappa.
  destruct ((kappa <? 3.5) || (5.0 <? kappa))%float; [discriminate | auto].
Qed.

(** What the image part has read of the polarization when it returns. *)
Lemma copy_image_parameters_polarization p model pl w im :
  copy_image_parameters p model pl = (w, inr im) ->
  (image_light im = true ->
   InputReader.image_frequency p = Some (image_frequency im))
  /\ (is_simulation model && image_light im = true ->
      InputReader.image_polarization p = Some (image_polarization im))
  /\ (is_simulation model && image_light im = false ->
      image_polarization im = unassigned_bool)
  /\ (image_light im && is_simulation model && image_polarization im
      && neqb (plasma_kappa_frac pl) 0.0 = true ->
      ((plasma_kappa pl <? 3.5) || (5.0 <? plasma_kappa pl))%float = false).
Proof.
  unfold copy_image_parameters. intros H.
  apply bind_returned_inv in H as (w0 & light & w0' & _ & H & ->).
  apply bind_returned_inv in H as (w1 & freq & w1' & Hm1 & H & ->).
  apply bind_returned_inv in H as (w2 & pol & w2' & Hm2 & H & ->).
  apply bind_returned_inv in H as (w3 & [] & w3' & Hm3 & H & ->).
  returned_inv H. apply ret_returned in H as [<- _]. cbn.
  split; [|split; [|split]].
  - intros ->. now apply value_if_returned in Hm1 as [Hm1 _].
  - intros Hc. apply andb_true_iff in Hc as [Hs ->]. rewrite Hs in Hm2.
    now apply value_returned in Hm2 as [Hm2 _].
  - intros Hc. destruct light, (is_simulation model); try discriminate;
      cbn in Hm2;
      apply bind_returned_inv in Hm2 as (? & ? & ? & _ & Hm2 & _);
      now apply ret_returned in Hm2 as [<- _].
  - intros Hc. rewrite Hc in Hm3. cbn [when] in Hm3.
    now apply check_plasma_kappa_returned in Hm3.
Qed.

Lemma check_adaptive_block_size_returned resolution size w u :
  check_adaptive_block_size resolution size = (w, inr u) ->
  (0 < size)%Z /\ Z.rem resolution size = 0%Z.
Proof.
  unfold check_adaptive_block_size. intros H.
  apply bind_returned_inv in H as (w0 & [] & w0' & Hm0 & H & ->).
  apply when_throw_returned in Hm0 as [Hm0 _].
  apply when_throw_returned in H as [H _].
  apply negb_false_iff, Z.eqb_eq in H. apply Z.leb_gt in Hm0. auto.
Qed.

Lemma copy_adaptive_parameters_returned p im cam w ad :
  copy_adaptive_parameters p im cam = (w, inr ad) ->
  InputReader.adaptive_max_level p = Some (adaptive_max_level ad)
  /\ ((0 < adaptive_max_level ad)%Z ->
      image_light im = true
      /\ InputReader.adaptive_block_size p = Some (adaptive_block_size ad)
      /\ (0 < adaptive_block_size ad)%Z
      /\ Z.rem (camera_resolution cam) (adaptive_block_size ad) = 0%Z).
Proof.
  unfold copy_adaptive_parameters. intros H. cbv zeta in H.
  apply bind_returned_inv in H as (w0 & level & w0' & Hm0 & H & ->).
  apply bind_returned_inv in H as (w1 & [] & w1' & Hm1 & H & ->).
  apply bind_returned_inv in H as (w2 & size & w2' & Hm2 & H & ->).
  apply bind_returned_inv in H as (w3 & [] & w3' & Hm3 & H & ->).
  returned_inv H. apply ret_returned in H as [<- _]. cbn.
  apply value_returned in Hm0 as [Hm0 _]. split; [exact Hm0|].
  intros Hpos. apply Z.ltb_lt in Hpos. rewrite Hpos in *.
  cbn [andb when] in *.
  apply when_throw_returned in Hm1 as [Hm1 _]. apply negb_false_iff in Hm1.
  apply value_if_returned in Hm2 as [Hm2 _].
  apply check_adaptive_block_size_returned in Hm3. tauto.
Qed.

End ConstructorObject.

(** ** The constructor: every way it ends *)

Section ConstructorEnds.
Import Exceptions Constructor.

(** X11.  The messages of the constructor.  A [BlacklightException] the
    constructor ends in carries one of eight messages.  (Nothing is said
    here of the exceptions of the standard library: a missing option
    ends the constructor in [bad_optional_access], and an allocation by
    [new] that fails, which the model leaves out, in [std::bad_alloc].) *)
Theorem constructor_exceptions (p : InputReader.t) (what : string) :
  thrown (new_RadiationIntegrator p) = Some (BlacklightException what) ->
  In what
     ["Cannot both save and load a sample checkpoint.";
      "Cannot use sample checkpoints with slow light.";
      "Polarized transport only supports kappa in [3.5, 5].";
      "Must have positive number of features for each rendered image.";
      "No image or rendering selected.";
      "Adaptive ray tracing requires image_light.";
      "Must have positive adaptive_block_size.";
      "Must have adaptive_block_size divide camera_resolution."]%string.
Proof.
  intros H.
  set (messages := [_; _; _; _; _; _; _; _]%string).
  assert (throws_only
            (fun e =>
               e = bad_optional_access
               \/ exists what', e = BlacklightException what' /\ In what' messages)
            (new_RadiationIntegrator p)) as Hall.
  { apply new_RadiationIntegrator_throws;
      try (now left);
      try (right; eexists; split; [reflexivity|]; cbn [In messages]; tauto).
    - intros kappa _. apply check_plasma_kappa_throws; try (now left).
      right; eexists; split; [reflexivity|]; cbn [In messages]; tauto.
    - intros resolution size _ _.
      apply check_adaptive_block_size_throws; try (now left);
        intros; right; eexists; (split; [reflexivity|]); cbn [In messages];
        tauto. }
  destruct (Hall _ H) as [E|(what' & E & Hin)]; [discriminate|].
  injection E as ->. exact Hin.
Qed.

(** X12.  A simulation input that asks both to save and to load a sample
    checkpoint ends the constructor in "Cannot both save and load a
    sample checkpoint.", before any warning, as soon as the general data
    are read. *)
Theorem checkpoint_save_and_load_rejected
    (p : InputReader.t) (threads : Z) (a : float) :
  InputReader.model_type p = Some simulation ->
  InputReader.num_threads p = Some threads ->
  InputReader.simulation_a p = Some a ->
  InputReader.checkpoint_sample_save p = Some true ->
  InputReader.checkpoint_sample_load p = Some true ->
  new_RadiationIntegrator p
  = ([], inl (BlacklightException
                "Cannot both save and load a sample checkpoint.")).
Proof.
  intros Hmodel Hthreads Ha Hsave Hload.
  unfold new_RadiationIntegrator, before_selection, copy_general_input_data.
  rewrite Hmodel, Hthreads. cbn. rewrite Ha. cbn.
  unfold copy_checkpoint_parameters. cbn. rewrite Hsave, Hload. reflexivity.
Qed.

Lemma copy_adaptive_parameters_throws_light (P : exception -> Prop) p im cam :
  P bad_optional_access ->
  (forall level,
     InputReader.adaptive_max_level p = Some level -> (0 < level)%Z ->
     image_light im = false ->
     P (BlacklightException "Adaptive ray tracing requires image_light.")) ->
  (forall size,
     throws_only P (check_adaptive_block_size (camera_resolution cam) size)) ->
  throws_only P (copy_adaptive_parameters p im cam).
Proof.
  intros Hbad H1 H2. unfold copy_adaptive_parameters. cbv zeta.
  apply throws_only_bind; [throws_only_tac|]. intros w0 level Hlevel.
  apply value_returned in Hlevel as [Hlevel _].
  apply throws_only_bind.
  - apply throws_only_when. intros Hc. apply throws_only_throw.
    apply andb_true_iff in Hc as [Hc Hl].
    apply (H1 level); [assumption | now apply Z.ltb_lt |].
    now apply negb_true_iff.
  - intros w1 [] _.
    apply throws_only_bind; [throws_only_tac|]. intros w2 size _.
    apply throws_only_bind; [apply throws_only_when; intros _; apply H2|].
    intros w3 [] _.
    repeat (apply throws_only_bind;
            [now apply copy_criterion_throws|]; intros ? ? _).
    apply throws_only_ret.
Qed.

Lemma copy_adaptive_parameters_fails_light p im cam level :
  InputReader.adaptive_max_level p = Some level -> (0 < level)%Z ->
  image_light im = false ->
  fails_with (fun _ => True) (copy_adaptive_parameters p im cam).
Proof.
  intros Hlevel Hpos Hlight. unfold copy_adaptive_parameters.
  apply (fails_with_value _ _ level); [exact Hlevel|]. cbv zeta.
  replace (0 <? level)%Z with true by (symmetry; now apply Z.ltb_lt).
  rewrite Hlight. cbn [andb negb].
  apply fails_with_bind_l, fails_with_when. now apply fails_with_throw.
Qed.

(** X13.  Adaptive ray tracing needs the image of the light.  With
    [adaptive_max_level > 0], an input with [image_light] false ends the
    constructor in an exception, and with [image_light] true the
    constructor never ends in "Adaptive ray tracing requires
    image_light." *)
Theorem adaptive_requires_image_light
    (p : InputReader.t) (level : Z) (light : bool) :
  InputReader.adaptive_max_level p = Some level -> (0 < level)%Z ->
  InputReader.image_light p = Some light ->
  if light then
    thrown (new_RadiationIntegrator p)
    <> Some (BlacklightException "Adaptive ray tracing requires image_light.")
  else fails (new_RadiationIntegrator p).
Proof.
  intros Hlevel Hpos Hlight.
  assert (forall w b, before_selection p = (w, inr b) ->
            image_light (bs_image b) = light) as Him.
  { intros w b Hb.
    destruct (before_selection_selections p w b Hb) as (w1 & w2 & Hi & _).
    apply copy_image_parameters_returned in Hi as (Hi & _).
    rewrite Hlight in Hi. now injection Hi as <-. }
  destruct light.
  - intros E. revert E.
    set (ex := BlacklightException "Adaptive ray tracing requires image_light.").
    enough (throws_only (fun e => e <> ex) (new_RadiationIntegrator p)) as H
      by (intros E; now apply H in E).
    unfold new_RadiationIntegrator.
    apply throws_only_bind.
    { apply before_selection_throws; try discriminate.
      intros kappa _. apply check_plasma_kappa_throws; discriminate. }
    intros w0 b Hb.
    apply throws_only_bind; [apply check_selection_throws; discriminate|].
    intros w1 [] _.
    apply throws_only_bind; [apply throws_only_value; discriminate|].
    intros w2 flat _.
    apply throws_only_bind; [|intros; apply throws_only_ret].
    apply copy_adaptive_parameters_throws_light; [discriminate | |].
    + intros level' _ _ Hl. rewrite (Him w0 b Hb) in Hl. discriminate.
    + intros size. apply check_adaptive_block_size_throws; discriminate.
  - apply (fails_with_fails (fun _ => True)).
    unfold new_RadiationIntegrator.
    apply fails_with_bind; [apply throws_only_anything|]. intros w0 b Hb.
    apply fails_with_bind; [apply throws_only_anything|]. intros w1 [] _.
    apply fails_with_bind; [apply throws_only_anything|]. intros w2 flat _.
    apply fails_with_bind_l.
    apply (copy_adaptive_parameters_fails_light p _ _ level); try assumption.
    now apply (Him w0 b).
Qed.

Lemma fails_with_for_each {A : Type} (body : nat -> M A) ns i :
  In i ns -> fails_with (fun _ => True) (body i) ->
  fails_with (fun _ => True) (for_each body ns).
Proof.
  induction ns as [|n ns IH]; intros Hin Hi; [destruct Hin|].
  cbn [for_each]. destruct Hin as [->|Hin].
  - now apply fails_with_bind_l.
  - apply fails_with_bind; [apply throws_only_anything|]. intros w a _.
    apply fails_with_bind_l. now apply IH.
Qed.

Lemma copy_render_image_fails p n_i k :
  InputReader.render_num_features p n_i = Some k -> (k <= 0)%Z ->
  fails_with (fun _ => True) (copy_render_image p n_i).
Proof.
  intros Hk Hle. unfold copy_render_image.
  apply (fails_with_value _ _ k); [exact Hk|].
  replace (k <=? 0)%Z with true by (symmetry; now apply Z.leb_le).
  apply fails_with_bind_l, fails_with_when. now apply fails_with_throw.
Qed.

(** X14.  Every rendered image needs a feature.  For the simulation
    model, an input that asks for [render_num_images] images and gives
    one of them a number of features that is not positive ends the
    constructor in an exception. *)
Theorem rendered_images_need_features
    (p : InputReader.t) (images : Z) (n_i : nat) (features : Z) :
  InputReader.model_type p = Some simulation ->
  InputReader.render_num_images p = Some images ->
  (Z.of_nat n_i < images)%Z ->
  InputReader.render_num_features p n_i = Some features ->
  (features <= 0)%Z ->
  fails (new_RadiationIntegrator p).
Proof.
  intros Hmodel Himages Hn Hfeatures Hle.
  apply (fails_with_fails (fun _ => True)).
  unfold new_RadiationIntegrator. apply fails_with_bind_l.
  unfold before_selection.
  apply fails_with_bind; [apply throws_only_anything|]. intros w0 g Hg.
  apply copy_general_input_data_returned in Hg. rewrite Hmodel in Hg.
  injection Hg as <-.
  do 8 (apply fails_with_bind; [apply throws_only_anything|]; intros ? ? _).
  apply fails_with_bind_l. unfold copy_rendering_parameters.
  cbn [is_simulation].
  apply (fails_with_value _ _ images); [exact Himages|].
  replace (0 <? images)%Z with true by (symmetry; apply Z.ltb_lt; lia).
  apply fails_with_bind_l.
  apply (fails_with_for_each _ _ n_i).
  - apply in_seq. lia.
  - now apply (copy_render_image_fails p n_i features).
Qed.

End ConstructorEnds.

(** X11 at an input of the simulation whose adaptive block size is 0. *)
Lemma constructor_exceptions_witness :
  In "Must have positive adaptive_block_size."%string
     ["Cannot both save and load a sample checkpoint.";
      "Cannot use sample checkpoints with slow light.";
      "Polarized transport only supports kappa in [3.5, 5].";
      "Must have positive number of features for each rendered image.";
      "No image or rendering selected.";
      "Adaptive ray tracing requires image_light.";
      "Must have positive adaptive_block_size.";
      "Must have adaptive_block_size divide camera_resolution."]%string.
Proof.
  apply (constructor_exceptions (Inputs.simulation_input false false 4.0 1 0)).
  vm_compute. reflexivity.
Defined.

(** X12 at an input that asks for both. *)
Lemma checkpoint_save_and_load_rejected_witness :
  Constructor.new_RadiationIntegrator (RenderingInput.input true true 1 0)
  = ([], inl (Exceptions.BlacklightException
                "Cannot both save and load a sample checkpoint.")).
Proof.
  apply (checkpoint_save_and_load_rejected
           (RenderingInput.input true true 1 0) 1 0.9375%float);
    reflexivity.
Defined.

(** X13 at an input that asks for adaptive ray tracing and the image of
    the time alone, and at one that asks for the image of the light. *)
Lemma adaptive_requires_image_light_witness :
  Exceptions.fails
    (Constructor.new_RadiationIntegrator (RenderingInput.input false false 1 1))
  /\ Exceptions.thrown
       (Constructor.new_RadiationIntegrator
          (RenderingInput.input false true 1 1))
     <> Some (Exceptions.BlacklightException
                "Adaptive ray tracing requires image_light.").
Proof.
  split.
  - apply (adaptive_requires_image_light
             (RenderingInput.input false false 1 1) 1 false);
      [reflexivity | lia | reflexivity].
  - apply (adaptive_requires_image_light
             (RenderingInput.input false true 1 1) 1 true);
      [reflexivity | lia | reflexivity].
Defined.

(** X14 at an input whose rendered image has no feature. *)
Lemma rendered_images_need_features_witness :
  Exceptions.fails
    (Constructor.new_RadiationIntegrator (RenderingInput.input false true 0 0)).
Proof.
  apply (rendered_images_need_features
           (RenderingInput.input false true 0 0) 1 0 0);
    [reflexivity | reflexivity | lia | reflexivity | lia].
Defined.

(** ** The constructor: invariants of the object it returns *)

(** Opens up an equation [new_RadiationIntegrator p = (w, inr obj)]: the
    parts of the constructor that returned, and the object in their terms. *)
Ltac constructed H :=
  let w0 := fresh "w" in
  let b := fresh "b" in
  let Hb := fresh "Hb" in
  let Hselected := fresh "Hselected" in
  let Hflat := fresh "Hflat" in
  let Hadaptive := fresh "Hadaptive" in
  let E1 := fresh "E" in let E2 := fresh "E" in let E3 := fresh "E" in
  let E4 := fresh "E" in let E5 := fresh "E" in let E6 := fresh "E" in
  let E7 := fresh "E" in let E8 := fresh "E" in let E9 := fresh "E" in
  let E10 := fresh "E" in
  apply new_RadiationIntegrator_returned in H
    as (w0 & b & ? & Hb & Hselected & Hflat & Hadaptive
        & E1 & E2 & E3 & E4 & E5 & E6 & E7 & E8 & E9 & E10 & _);
  rewrite ?E1, ?E2, ?E3, ?E4, ?E5, ?E6, ?E7, ?E8, ?E9, ?E10;
  apply before_selection_blocks in Hb
    as (? & ? & ? & ? & ? & ? & ? & ? & ? & ?
        & Hgeneral & Hcheckpoint & Hformula & Hsimulation & Hplasma
        & Hslow & Hfallback & Hcamera & Himage & Hrendering & _);
  cbv zeta in *.

Section ConstructedObject.
Import Exceptions Constructor.

Lemma for_each_returned {A : Type} (body : nat -> M A) ns : forall w l,
  for_each body ns = (w, inr l) ->
  Forall2 (fun n a => exists w', body n = (w', inr a)) ns l.
Proof.
  induction ns as [|n ns IH]; intros w l H; cbn [for_each] in H.
  - apply ret_returned in H as [<- _]. constructor.
  - apply bind_returned_inv in H as (w0 & a & w0' & Ha & H & ->).
    apply bind_returned_inv in H as (w1 & l' & w1' & Hl & H & ->).
    apply ret_returned in H as [<- _]. constructor; eauto.
Qed.

Lemma copy_render_image_returned p n_i w l :
  copy_render_image p n_i = (w, inr l) ->
  exists features,
    InputReader.render_num_features p n_i = Some features
    /\ (0 < features)%Z /\ length l = Z.to_nat features.
Proof.
  unfold copy_render_image. intros H.
  apply bind_returned_inv in H as (w0 & features & w0' & Hm0 & H & ->).
  apply bind_returned_inv in H as (w1 & [] & w1' & Hm1 & H & ->).
  apply value_returned in Hm0 as [Hm0 _].
  apply when_throw_returned in Hm1 as [Hm1 _]. apply Z.leb_gt in Hm1.
  apply for_each_returned, Forall2_length in H.
  exists features. unfold upto in H. rewrite length_seq in H. auto.
Qed.

Lemma copy_rendering_parameters_shape p model w r :
  copy_rendering_parameters p model = (w, inr r) ->
  length (render_features r) = Z.to_nat (render_num_images r)
  /\ forall n_i l,
       render_features r !! n_i = Some l ->
       exists features,
         InputReader.render_num_features p n_i = Some features
         /\ (0 < features)%Z /\ length l = Z.to_nat features.
Proof.
  unfold copy_rendering_parameters. intros H.
  apply bind_returned_inv in H as (w0 & images & w0' & _ & H & ->).
  apply bind_returned_inv in H as (w1 & features & w1' & Hm1 & H & ->).
  apply ret_returned in H as [<- _]. cbn.
  destruct (Z.ltb_spec 0 images) as [Hpos|Hle].
  - apply for_each_returned in Hm1. split.
    + apply Forall2_length in Hm1. unfold upto in Hm1.
      now rewrite length_seq in Hm1.
    + intros n_i l Hl.
      destruct (Forall2_lookup_r _ _ _ _ _ Hm1 Hl) as (n & Hn & w' & Hi).
      unfold upto in Hn. apply lookup_seq in Hn as [-> _].
      now apply copy_render_image_returned in Hi.
  - apply ret_returned in Hm1 as [<- _]. split.
    + cbn. lia.
    + intros n_i l Hl. discriminate.
Qed.

Lemma copy_formula_parameters_returned p w f :
  copy_formula_parameters p formula = (w, inr f) ->
  InputReader.formula_mass p = Some (formula_mass f)
  /\ InputReader.formula_r0 p = Some (formula_r0 f)
  /\ InputReader.formula_h p = Some (formula_h f)
  /\ InputReader.formula_l0 p = Some (formula_l0 f)
  /\ InputReader.formula_q p = Some (formula_q f)
  /\ InputReader.formula_nup p = Some (formula_nup f)
  /\ InputReader.formula_cn0 p = Some (formula_cn0 f)
  /\ InputReader.formula_alpha p = Some (formula_alpha f)
  /\ InputReader.formula_a p = Some (formula_a f)
  /\ InputReader.formula_beta p = Some (formula_beta f).
Proof.
  unfold copy_formula_parameters. cbn [is_formula]. intros H.
  returned_inv H. apply ret_returned in H as [<- _]. cbn.
  repeat match goal with
         | E : value_if true _ _ = _ |- _ =>
             apply value_if_returned in E as [E _]
         end.
  repeat split; assumption.
Qed.

(** X15.  The object holds what the input gives.  When the constructor
    returns, the options read on every path were present and the object
    has their values: the model type, the number of threads, the fallback
    flag, the camera radius and resolution, the six image selections of
    both models, the flat-ray flag and the adaptive level; the mass of
    the black hole is 1 and its spin is [simulation_a] or [formula_spin]
    by the model; and for the formula model the ten parameters of the
    formula were present and are in the object. *)
Theorem constructed_object_holds_input
    (p : InputReader.t) (w : list string) (obj : RadiationIntegrator) :
  new_RadiationIntegrator p = (w, inr obj) ->
  InputReader.model_type p = Some (model_type (general obj))
  /\ InputReader.num_threads p = Some (num_threads (general obj))
  /\ bh_m (general obj) = 1.0%float
  /\ match model_type (general obj) with
     | simulation => InputReader.simulation_a p = Some (bh_a (general obj))
     | formula =>
         InputReader.formula_spin p = Some (bh_a (general obj))
         /\ InputReader.formula_mass p
            = Some (formula_mass (formula_parameters obj))
         /\ InputReader.formula_r0 p
            = Some (formula_r0 (formula_parameters obj))
         /\ InputReader.formula_h p
            = Some (formula_h (formula_parameters obj))
         /\ InputReader.formula_l0 p
            = Some (formula_l0 (formula_parameters obj))
         /\ InputReader.formula_q p
            = Some (formula_q (formula_parameters obj))
         /\ InputReader.formula_nup p
            = Some (formula_nup (formula_parameters obj))
         /\ InputReader.formula_cn0 p
            = Some (formula_cn0 (formula_parameters obj))
         /\ InputReader.formula_alpha p
            = Some (formula_alpha (formula_parameters obj))
         /\ InputReader.formula_a p
            = Some (formula_a (formula_parameters obj))
         /\ InputReader.formula_beta p
            = Some (formula_beta (formula_parameters obj))
     end
  /\ InputReader.fallback_nan p = Some (fallback_nan (fallback obj))
  /\ InputReader.camera_r p = Some (camera_r (camera obj))
  /\ InputReader.camera_resolution p = Some (camera_resolution (camera obj))
  /\ InputReader.image_light p = Some (image_light (image obj))
  /\ InputReader.image_time p = Some (image_time (image obj))
  /\ InputReader.image_length p = Some (image_length (image obj))
  /\ InputReader.image_lambda p = Some (image_lambda (image obj))
  /\ InputReader.image_emission p = Some (image_emission (image obj))
  /\ InputReader.image_tau p = Some (image_tau (image obj))
  /\ InputReader.ray_flat p = Some (ray_flat obj)
  /\ InputReader.adaptive_max_level p
     = Some (adaptive_max_level (adaptive obj)).
Proof.
  intros H. constructed H.
  apply copy_general_input_data_fields in Hgeneral
    as (Hmodel & Hthreads & Hm & Hspin).
  apply copy_fallback_parameters_returned in Hfallback.
  apply copy_camera_parameters_fields in Hcamera as [Hr Hres].
  apply copy_image_parameters_returned in Himage
    as (Hlight & Htime & Hlength & Hlambda & Hemission & Htau & _).
  apply copy_adaptive_parameters_returned in Hadaptive as [Hlevel _].
  repeat (split; [assumption|]).
  split; [|repeat (split; [assumption|]); assumption].
  destruct (model_type (bs_general b)); [assumption|].
  split; [assumption|]. now apply copy_formula_parameters_returned in Hformula.
Qed.

(** X16.  What holds of every object the constructor returns.  An image
    or a rendering is selected; an object of the simulation model never
    both saves and loads a sample checkpoint and, with slow light, does
    neither; where the polarized transport of a simulation uses the
    kappa distribution, kappa is neither below 3.5 nor above 5; and an
    object of the formula model has none of the three averaged or
    integrated images and no rendering, whatever the input asks for.
    (For the formula model the constructor assigns neither the checkpoint
    flags nor [slow_light_on]; nothing is said of them.) *)
Theorem constructed_object_invariants
    (p : InputReader.t) (w : list string) (obj : RadiationIntegrator) :
  new_RadiationIntegrator p = (w, inr obj) ->
  selected (image obj) (rendering obj) = true
  /\ (model_type (general obj) = simulation ->
      checkpoint_sample_save (checkpoint obj)
      && checkpoint_sample_load (checkpoint obj) = false
      /\ (slow_light_on (slow_light obj) = true ->
          checkpoint_sample_save (checkpoint obj)
          || checkpoint_sample_load (checkpoint obj) = false))
  /\ (image_light (image obj) && is_simulation (model_type (general obj))
      && image_polarization (image obj)
      && neqb (plasma_kappa_frac (plasma obj)) 0.0 = true ->
      ((plasma_kappa (plasma obj) <? 3.5)
       || (5.0 <? plasma_kappa (plasma obj)))%float = false)
  /\ (model_type (general obj) = formula ->
      image_lambda_ave (image obj) = false
      /\ image_emission_ave (image obj) = false
      /\ image_tau_int (image obj) = false
      /\ render_num_images (rendering obj) = 0%Z).
Proof.
  intros H. constructed H.
  apply copy_checkpoint_parameters_flags in Hcheckpoint as [Hboth Hnone].
  pose proof (copy_slow_light_parameters_returned _ _ _ _ _ Hslow) as Hon.
  apply copy_image_parameters_polarization in Himage as Hpol.
  destruct Hpol as (_ & _ & _ & Hkappa).
  apply copy_image_parameters_returned in Himage as (_ & _ & _ & _ & _ & _ & Hi).
  apply copy_rendering_parameters_returned in Hrendering.
  split; [assumption|]. split; [|split; [assumption|]].
  - intros _. split; [assumption|].
    intros Eon. destruct (Hon Eon) as (? & _ & ?). auto.
  - intros Hmodel. rewrite Hmodel in *.
    repeat (split; [tauto|]). tauto.
Qed.

(** X17.  The rendered images of the object.  When the constructor
    returns, the object has [render_num_images] lists of features, or
    none when that number is negative, and the list of image [n_i] has
    as many features as the input's [render_num_features[n_i]], which is
    positive. *)
Theorem constructed_rendering
    (p : InputReader.t) (w : list string) (obj : RadiationIntegrator) :
  new_RadiationIntegrator p = (w, inr obj) ->
  length (render_features (rendering obj))
  = Z.to_nat (render_num_images (rendering obj))
  /\ forall n_i l,
       render_features (rendering obj) !! n_i = Some l ->
       exists features,
         InputReader.render_num_features p n_i = Some features
         /\ (0 < features)%Z /\ length l = Z.to_nat features.
Proof.
  intros H. constructed H.
  now apply copy_rendering_parameters_shape in Hrendering.
Qed.

(** X18.  The blocks of the adaptive refinement tile the image.  When
    the constructor returns an object with [adaptive_max_level > 0], the
    image of the light is selected, the block size is positive and the
    [linear_root_blocks] blocks of a row cover the [camera_resolution]
    pixels exactly; each thread gets one array of image blocks; for the
    simulation model the polarization flag that sizes these arrays was
    read from the input; and when the resolution is positive and the
    number of pixels of the image fits an [int], so do the products the
    constructor forms, and [block_counts[0]] blocks of [block_num_pix]
    pixels make up the whole image. *)
Theorem constructed_adaptive_blocks
    (p : InputReader.t) (w : list string) (obj : RadiationIntegrator) :
  new_RadiationIntegrator p = (w, inr obj) ->
  (0 < adaptive_max_level (adaptive obj))%Z ->
  exists blocks,
    Allocation.allocate_adaptive obj = Some blocks
    /\ image_light (image obj) = true
    /\ (0 < adaptive_block_size (adaptive obj))%Z
    /\ (Allocation.linear_root_blocks blocks
        * adaptive_block_size (adaptive obj)
        = camera_resolution (camera obj))%Z
    /\ Allocation.refinement_flags_0 blocks = Allocation.block_counts_0 blocks
    /\ length (Allocation.image_blocks blocks)
       = Z.to_nat (num_threads (general obj))
    /\ (model_type (general obj) = simulation ->
        InputReader.image_polarization p
        = Some (image_polarization (image obj)))
    /\ ((0 < camera_resolution (camera obj))%Z ->
        (camera_resolution (camera obj) * camera_resolution (camera obj)
         < 2 ^ 31)%Z ->
        (Allocation.block_num_pix blocks
         = adaptive_block_size (adaptive obj)
           * adaptive_block_size (adaptive obj))%Z
        /\ (Allocation.block_counts_0 blocks
            = Allocation.linear_root_blocks blocks
              * Allocation.linear_root_blocks blocks)%Z
        /\ (Allocation.block_counts_0 blocks * Allocation.block_num_pix blocks
            = camera_resolution (camera obj)
              * camera_resolution (camera obj))%Z).
Proof.
  intros H Hpos. constructed H.
  apply copy_adaptive_parameters_returned in Hadaptive as [_ Had].
  destruct (Had Hpos) as (Hlight & _ & Hsize & Hrem).
  apply copy_image_parameters_polarization in Himage as (_ & Hpol & _).
  unfold Allocation.allocate_adaptive.
  repeat match goal with
         | Eq : _ obj = _ |- _ => progress rewrite Eq
         end.
  replace (0 <? adaptive_max_level _)%Z with true
    by (symmetry; now apply Z.ltb_lt).
  eexists. split; [reflexivity|].
  cbn [Allocation.linear_root_blocks Allocation.block_num_pix
       Allocation.block_counts_0 Allocation.refinement_flags_0
       Allocation.image_blocks].
  set (R := camera_resolution (bs_camera b)) in *.
  set (B := adaptive_block_size _) in *.
  assert (R ÷ B * B = R)%Z as Hq.
  { pose proof (Z.quot_rem' R B) as Eq. rewrite Hrem in Eq. lia. }
  split; [assumption|]. split; [assumption|]. split; [exact Hq|].
  split; [reflexivity|]. split; [|split].
  - rewrite length_map. unfold upto. now rewrite length_seq.
  - intros Hmodel. apply Hpol. now rewrite Hmodel, Hlight.
  - intros HR Hfit. set (L := (R ÷ B)%Z) in *.
    change (2 ^ 31)%Z with 2147483648%Z in Hfit.
    assert (0 < L)%Z as HL.
    { destruct (Z.le_gt_cases L 0) as [Hle|Hgt]; [|lia].
      pose proof (Z.mul_nonpos_nonneg L B Hle ltac:(lia)). lia. }
    assert (L <= R /\ B <= R)%Z as [HLR HBR].
    { rewrite <- Hq. split.
      - rewrite <- (Z.mul_1_r L) at 1. apply Z.mul_le_mono_nonneg_l; lia.
      - rewrite <- (Z.mul_1_l B) at 1. apply Z.mul_le_mono_nonneg_r; lia. }
    assert (L * L <= R * R)%Z as HLL by (apply Z.mul_le_mono_nonneg; lia).
    assert (B * B <= R * R)%Z as HBB by (apply Z.mul_le_mono_nonneg; lia).
    assert (0 < L * L)%Z as HLL0 by (apply Z.mul_pos_pos; lia).
    assert (0 < B * B)%Z as HBB0 by (apply Z.mul_pos_pos; lia).
    assert (Allocation.int_mul B B = B * B)%Z as EB.
    { unfold Allocation.int_mul, Allocation.wrap_int.
      change (2 ^ 31)%Z with 2147483648%Z.
      change (2 ^ 32)%Z with 4294967296%Z.
      rewrite Z.mod_small; lia. }
    assert (Allocation.int_mul L L = L * L)%Z as EL.
    { unfold Allocation.int_mul, Allocation.wrap_int.
      change (2 ^ 31)%Z with 2147483648%Z.
      change (2 ^ 32)%Z with 4294967296%Z.
      rewrite Z.mod_small; lia. }
    rewrite EB, EL. split; [reflexivity|]. split; [reflexivity|].
    transitivity ((L * B) * (L * B))%Z; [ring | now rewrite Hq].
Qed.

End ConstructedObject.

(** X15 at a formula input: the spin of the object is the input's
    [formula_spin]. *)
Lemma constructed_object_holds_input_witness :
  exists w obj,
    Constructor.new_RadiationIntegrator (Inputs.formula_input true false)
    = (w, inr obj)
    /\ InputReader.model_type (Inputs.formula_input true false)
       = Some (Constructor.model_type (Constructor.general obj))
    /\ InputReader.num_threads (Inputs.formula_input true false)
       = Some (Constructor.num_threads (Constructor.general obj))
    /\ Constructor.bh_m (Constructor.general obj) = 1.0%float.
Proof.
  destruct (Constructor.new_RadiationIntegrator
              (Inputs.formula_input true false)) as [w [e|obj]] eqn:E;
    [vm_compute in E; discriminate|].
  exists w, obj. split; [reflexivity|].
  destruct (constructed_object_holds_input
              (Inputs.formula_input true false) w obj E) as (H1 & H2 & H3 & _).
  auto.
Defined.

(** X16 at an input of the simulation that saves a sample checkpoint. *)
Lemma constructed_object_invariants_witness :
  exists w obj,
    Constructor.new_RadiationIntegrator (RenderingInput.input false true 2 0)
    = (w, inr obj)
    /\ Constructor.model_type (Constructor.general obj) = simulation
    /\ Constructor.selected (Constructor.image obj) (Constructor.rendering obj)
       = true
    /\ Constructor.checkpoint_sample_save (Constructor.checkpoint obj)
       && Constructor.checkpoint_sample_load (Constructor.checkpoint obj)
       = false.
Proof.
  destruct (Constructor.new_RadiationIntegrator
              (RenderingInput.input false true 2 0)) as [w [e|obj]] eqn:E;
    [vm_compute in E; discriminate|].
  assert (Constructor.model_type (Constructor.general obj) = simulation)
    as Hmodel.
  { pose proof E as E'. vm_compute in E'. injection E' as _ <-. reflexivity. }
  exists w, obj. split; [reflexivity|]. split; [exact Hmodel|].
  destruct (constructed_object_invariants
              (RenderingInput.input false true 2 0) w obj E) as (H1 & H2 & _).
  destruct (H2 Hmodel) as [H3 _]. auto.
Defined.

(** X17 at an input with one rendered image of two features. *)
Lemma constructed_rendering_witness :
  exists w obj,
    Constructor.new_RadiationIntegrator (RenderingInput.input false true 2 0)
    = (w, inr obj)
    /\ length (Constructor.render_features (Constructor.rendering obj))
       = Z.to_nat (Constructor.render_num_images (Constructor.rendering obj))
    /\ forall n_i l,
         Constructor.render_features (Constructor.rendering obj) !! n_i
         = Some l ->
         exists features,
           InputReader.render_num_features
             (RenderingInput.input false true 2 0) n_i = Some features
           /\ (0 < features)%Z /\ length l = Z.to_nat features.
Proof.
  destruct (Constructor.new_RadiationIntegrator
              (RenderingInput.input false true 2 0)) as [w [e|obj]] eqn:E;
    [vm_compute in E; discriminate|].
  exists w, obj. split; [reflexivity|].
  apply (constructed_rendering (RenderingInput.input false true 2 0) w obj E).
Defined.

(** X18 at a 64 x 64 camera with blocks of 16: four blocks in a row,
    sixteen blocks of 256 pixels. *)
Lemma constructed_adaptive_blocks_witness :
  exists w obj,
    Constructor.new_RadiationIntegrator
      (Inputs.simulation_input false false 4.0 2 16)
    = (w, inr obj)
    /\ (0 < Constructor.adaptive_max_level (Constructor.adaptive obj))%Z
    /\ exists blocks,
         Allocation.allocate_adaptive obj = Some blocks
         /\ Allocation.linear_root_blocks blocks = 4%Z
         /\ Allocation.block_num_pix blocks = 256%Z
         /\ Allocation.block_counts_0 blocks = 16%Z
         /\ Constructor.image_light (Constructor.image obj) = true
         /\ (0 < Constructor.adaptive_block_size (Constructor.adaptive obj))%Z
         /\ (Allocation.linear_root_blocks blocks
             * Constructor.adaptive_block_size (Constructor.adaptive obj)
             = Constructor.camera_resolution (Constructor.camera obj))%Z
         /\ length (Allocation.image_blocks blocks)
            = Z.to_nat (Constructor.num_threads (Constructor.general obj))
         /\ (Allocation.block_counts_0 blocks * Allocation.block_num_pix blocks
             = Constructor.camera_resolution (Constructor.camera obj)
               * Constructor.camera_resolution (Constructor.camera obj))%Z.
Proof.
  destruct (Constructor.new_RadiationIntegrator
              (Inputs.simulation_input false false 4.0 2 16))
    as [w [e|obj]] eqn:E; [vm_compute in E; discriminate|].
  assert (0 < Constructor.adaptive_max_level (Constructor.adaptive obj))%Z
    as Hpos.
  { pose proof E as E'. vm_compute in E'. injection E' as _ <-. reflexivity. }
  assert (Constructor.camera_resolution (Constructor.camera obj) = 64%Z)
    as HR.
  { pose proof E as E'. vm_compute in E'. injection E' as _ <-. reflexivity. }
  assert (Constructor.adaptive_block_size (Constructor.adaptive obj) = 16%Z)
    as HB.
  { pose proof E as E'. vm_compute in E'. injection E' as _ <-. reflexivity. }
  exists w, obj. split; [reflexivity|]. split; [exact Hpos|].
  destruct (constructed_adaptive_blocks
              (Inputs.simulation_input false false 4.0 2 16) w obj E Hpos)
    as (blocks & Hb & Hlight & Hsize & Hrow & _ & Hthreads & _ & Hfit).
  rewrite HR in Hfit.
  destruct (Hfit ltac:(lia) ltac:(reflexivity)) as (Hpix & Hcounts & Htile).
  exists blocks. rewrite HR, HB in *.
  assert (Allocation.linear_root_blocks blocks = 4%Z) as HL by lia.
  rewrite HL in *.
  repeat split; try assumption; lia.
Defined.

(** ** The end of the constructor: the layout of the image *)

(** Evaluates the numbering once the selections are known. *)
Ltac layout_fields :=
  lazy beta iota zeta delta
    [Allocation.number_image_quantities Allocation.count_light
     Allocation.count_time Allocation.count_length Allocation.count_lambda
     Allocation.count_emission Allocation.count_tau
     Allocation.count_lambda_ave Allocation.count_emission_ave
     Allocation.count_tau_int Allocation.starting_at Allocation.width
     Allocation.image_num_quantities Allocation.image_offset_time
     Allocation.image_offset_length Allocation.image_offset_lambda
     Allocation.image_offset_emission Allocation.image_offset_tau
     Allocation.image_offset_lambda_ave Allocation.image_offset_emission_ave
     Allocation.image_offset_tau_int
     Constructor.image_light Constructor.image_polarization
     Constructor.image_time Constructor.image_length Constructor.image_lambda
     Constructor.image_emission Constructor.image_tau
     Constructor.image_lambda_ave Constructor.image_emission_ave
     Constructor.image_tau_int].

Section ImageLayoutFacts.
Import Constructor Allocation.

(** X19.  The quantities of the image lie one after the other.  Let the
    counter and the eight offsets all hold [first] before the constructor
    numbers the quantities.  Then the light starts at [first] and each
    quantity that follows starts where the one before it ends: an
    offset is the offset before it plus the width of the quantity before
    it, where a quantity that is not selected has width 0, the light has
    width 4 for a polarized simulation and 1 otherwise, the next five
    have width 1 and the last three [num_cell_values]; and the counter is
    the end of the last. *)
Theorem image_quantities_layout
    (num_cell_values first : Z) (model : ModelType) (im : ImageParameters) :
  let l := number_image_quantities num_cell_values model im (starting_at first) in
  let polarized := is_simulation model && image_polarization im in
  image_offset_time l
  = (first + width (image_light im) (if polarized then 4 else 1))%Z
  /\ image_offset_length l
     = (image_offset_time l + width (image_time im) 1)%Z
  /\ image_offset_lambda l
     = (image_offset_length l + width (image_length im) 1)%Z
  /\ image_offset_emission l
     = (image_offset_lambda l + width (image_lambda im) 1)%Z
  /\ image_offset_tau l
     = (image_offset_emission l + width (image_emission im) 1)%Z
  /\ image_offset_lambda_ave l
     = (image_offset_tau l + width (image_tau im) 1)%Z
  /\ image_offset_emission_ave l
     = (image_offset_lambda_ave l
        + width (image_lambda_ave im) num_cell_values)%Z
  /\ image_offset_tau_int l
     = (image_offset_emission_ave l
        + width (image_emission_ave im) num_cell_values)%Z
  /\ image_num_quantities l
     = (image_offset_tau_int l + width (image_tau_int im) num_cell_values)%Z.
Proof.
  cbv zeta.
  destruct im as [light frequency polarization time length lambda emission
                    tau lambda_ave emission_ave tau_int].
  cbn [image_light image_polarization image_time image_length image_lambda
         image_emission image_tau image_lambda_ave image_emission_ave
         image_tau_int].
  destruct light, time, length, lambda, emission, tau, lambda_ave,
    emission_ave, tau_int; layout_fields; repeat split; lia.
Qed.

(** The counter after the numbering: the widths of the selected
    quantities added up. *)
Lemma image_quantities_total
    (num_cell_values first : Z) (model : ModelType) (im : ImageParameters) :
  let l := number_image_quantities num_cell_values model im (starting_at first) in
  image_num_quantities l
  = (first
     + width (image_light im)
         (if is_simulation model && image_polarization im then 4 else 1)
     + width (image_time im) 1 + width (image_length im) 1
     + width (image_lambda im) 1 + width (image_emission im) 1
     + width (image_tau im) 1
     + width (image_lambda_ave im) num_cell_values
     + width (image_emission_ave im) num_cell_values
     + width (image_tau_int im) num_cell_values)%Z.
Proof.
  cbv zeta.
  destruct im as [light frequency polarization time length lambda emission
                    tau lambda_ave emission_ave tau_int].
  cbn [image_light image_polarization image_time image_length image_lambda
         image_emission image_tau image_lambda_ave image_emission_ave
         image_tau_int].
  destruct light, time, length, lambda, emission, tau, lambda_ave,
    emission_ave, tau_int; layout_fields; lia.
Qed.

(** X20.  The image of an object the constructor returned.  With the
    counter and the offsets at 0 before the numbering and
    [num_cell_values] positive, the image of an object that renders
    nothing has at least one quantity, and for the formula model it has
    none of the quantities of width [num_cell_values]: at most six planes
    in all. *)
Theorem constructed_image_quantities
    (p : InputReader.t) (w : list string) (obj : RadiationIntegrator)
    (num_cell_values : Z) :
  new_RadiationIntegrator p = (w, inr obj) ->
  (0 < num_cell_values)%Z ->
  let l :=
    number_image_quantities num_cell_values (model_type (general obj))
      (image obj) (starting_at 0) in
  ((render_num_images (rendering obj) <= 0)%Z ->
   (0 < image_num_quantities l)%Z)
  /\ (model_type (general obj) = formula ->
      (image_num_quantities l <= 6)%Z).
Proof.
  intros H Hpos. cbv zeta.
  pose proof (image_quantities_total num_cell_values 0
                (model_type (general obj)) (image obj)) as Htotal.
  cbv zeta in Htotal. rewrite Htotal. clear Htotal.
  constructed H.
  apply copy_image_parameters_returned in Himage
    as (_ & _ & _ & _ & _ & _ & Hmodel).
  unfold selected in Hselected. unfold width. split.
  - intros Hrender.
    assert ((0 <? render_num_images (bs_rendering b))%Z = false) as Hr
      by now apply Z.ltb_ge.
    rewrite Hr in Hselected.
    destruct (image_light (bs_image b)), (image_time (bs_image b)),
      (image_length (bs_image b)), (image_lambda (bs_image b)),
      (image_emission (bs_image b)), (image_tau (bs_image b)),
      (image_lambda_ave (bs_image b)), (image_emission_ave (bs_image b)),
      (image_tau_int (bs_image b)),
      (is_simulation (model_type (bs_general b))
       && image_polarization (bs_image b));
      try discriminate Hselected; lia.
  - intros Hformula'. rewrite Hformula' in *.
    destruct Hmodel as (-> & -> & ->). cbn [is_simulation andb].
    destruct (image_light (bs_image b)), (image_time (bs_image b)),
      (image_length (bs_image b)), (image_lambda (bs_image b)),
      (image_emission (bs_image b)), (image_tau (bs_image b)); lia.
Qed.

End ImageLayoutFacts.

(** X20 at a formula input that selects the light alone, with five cell
    values: the image has one plane. *)
Lemma constructed_image_quantities_witness :
  exists w obj,
    Constructor.new_RadiationIntegrator (Inputs.formula_input true false)
    = (w, inr obj)
    /\ (0 < 5)%Z
    /\ ((Constructor.render_num_images (Constructor.rendering obj) <= 0)%Z ->
        (0 < Allocation.image_num_quantities
               (Allocation.number_image_quantities 5
                  (Constructor.model_type (Constructor.general obj))
                  (Constructor.image obj) (Allocation.starting_at 0)))%Z)
    /\ (Constructor.model_type (Constructor.general obj) = formula ->
        (Allocation.image_num_quantities
           (Allocation.number_image_quantities 5
              (Constructor.model_type (Constructor.general obj))
              (Constructor.image obj) (Allocation.starting_at 0)) <= 6)%Z).
Proof.
  destruct (Constructor.new_RadiationIntegrator
              (Inputs.formula_input true false)) as [w [e|obj]] eqn:E;
    [vm_compute in E; discriminate|].
  exists w, obj. split; [reflexivity|]. split; [lia|].
  apply (constructed_image_quantities
           (Inputs.formula_input true false) w obj 5 E). lia.
Defined.

(** ** The top-level function: calls, levels and timers *)

Section IntegrateFacts.
Import Constructor Integration.

Lemma In_call_if b f g : In g (call_if b f) <-> b = true /\ g = f.
Proof.
  unfold call_if. destruct b; cbn [In].
  - split; [intros [<-|[]]; auto | intros [_ ->]; auto].
  - split; [intros [] | intros [H _]; discriminate].
Qed.

Lemma In_singleton (f g : call) : In g [f] <-> g = f.
Proof. cbn [In]. split; [intros [<-|[]]; auto | intros ->; auto]. Qed.

(** The calls of lines 727-742, one by one with the condition of each. *)
Lemma In_sample_calls s pr snapshot c :
  In c (sample_calls s pr snapshot)
  <-> (c = ObtainGridData /\ first_time pr = true)
      \/ (c = CalculateSimulationSampling snapshot
          /\ ((0 < adaptive_level pr)%Z
              \/ (first_time pr = true
                  /\ checkpoint_sample_load (checkpoint s) = false)
              \/ (first_time pr = false
                  /\ slow_light_on (slow_light s) = true)))
      \/ (c = LoadSampling
          /\ first_time pr = true /\ (adaptive_level pr <= 0)%Z
          /\ checkpoint_sample_load (checkpoint s) = true)
      \/ (c = SaveSampling
          /\ first_time pr = true /\ (adaptive_level pr <= 0)%Z
          /\ checkpoint_sample_save (checkpoint s) = true)
      \/ c = SampleSimulation.
Proof.
  unfold sample_calls. rewrite !in_app_iff, In_call_if, In_singleton.
  destruct (Z.ltb_spec 0 (adaptive_level pr)) as [Hl|Hl].
  - rewrite In_singleton.
    destruct (first_time pr); intuition (try discriminate; try lia).
  - destruct (first_time pr).
    + rewrite in_app_iff, In_call_if.
      destruct (checkpoint_sample_load (checkpoint s));
        rewrite In_singleton; intuition (try discriminate; try lia).
    + rewrite In_call_if. intuition (try discriminate; try lia).
Qed.

(** The calls of lines 750-757. *)
Lemma In_simulation_calls s c :
  In c (simulation_calls s)
  <-> c = CalculateSimulationCoefficients
      \/ (c = IntegratePolarizedRadiation
          /\ image_light (image s) && image_polarization (image s) = true)
      \/ (c = IntegrateUnpolarizedRadiation
          /\ image_light (image s) && image_polarization (image s) = false
          /\ image_light (image s) || image_time (image s)
             || image_length (image s) || image_lambda (image s)
             || image_emission (image s) || image_tau (image s)
             || image_lambda_ave (image s) || image_emission_ave (image s)
             || image_tau_int (image s) = true)
      \/ (c = Render /\ (0 < render_num_images (rendering s))%Z).
Proof.
  unfold simulation_calls. rewrite !in_app_iff, In_call_if, In_singleton.
  rewrite Z.ltb_lt.
  destruct (image_light (image s) && image_polarization (image s)).
  - rewrite In_singleton. intuition discriminate.
  - rewrite In_call_if. intuition discriminate.
Qed.

(** The calls of [Integrate]. *)
Lemma In_Integrate_calls s pr snapshot time_sample time_integrate
    omp_get_wtime adaptive_check c :
  In c (calls (Integrate s pr snapshot time_sample time_integrate
                 omp_get_wtime adaptive_check))
  <-> match model_type (general s) with
      | simulation =>
          In c (sample_calls s pr snapshot) \/ In c (simulation_calls s)
      | formula =>
          c = CalculateFormulaCoefficients
          \/ c = IntegrateUnpolarizedRadiation
      end
      \/ (c = CheckAdaptiveRefinement
          /\ (0 < adaptive_max_level (adaptive s))%Z).
Proof.
  unfold Integrate. cbn [calls]. rewrite in_app_iff, In_call_if, Z.ltb_lt.
  destruct (model_type (general s)); cbn [is_simulation].
  - rewrite in_app_iff. tauto.
  - cbn [In]. intuition congruence.
Qed.

Ltac In_calls := rewrite ?In_Integrate_calls, ?In_sample_calls, ?In_simulation_calls.

(** X21.  What [Integrate] samples.  For the simulation model a call
    obtains the grid data exactly on the first call; it loads the
    sampling, and it saves it, only on the first call at refinement level
    0, when the object is set to; it calculates the sampling of the
    snapshot it is passed, and of no other, exactly at a refinement level
    above 0, on a first call that does not load it, and on a later call
    with slow light: a later call at level 0 without slow light reuses
    the sampling it has; and it always samples the simulation.  For the
    formula model it makes none of these calls. *)
Theorem integrate_sampling (s : RadiationIntegrator) (pr : Progress)
    (snapshot : Z) (time_sample time_integrate : float)
    (omp_get_wtime : nat -> float) (adaptive_check : bool) :
  let made :=
    calls (Integrate s pr snapshot time_sample time_integrate omp_get_wtime
             adaptive_check) in
  match model_type (general s) with
  | simulation =>
      (In ObtainGridData made <-> first_time pr = true)
      /\ (In LoadSampling made
          <-> first_time pr = true /\ (adaptive_level pr <= 0)%Z
              /\ checkpoint_sample_load (checkpoint s) = true)
      /\ (In SaveSampling made
          <-> first_time pr = true /\ (adaptive_level pr <= 0)%Z
              /\ checkpoint_sample_save (checkpoint s) = true)
      /\ (forall n,
            In (CalculateSimulationSampling n) made
            <-> n = snapshot
                /\ ((0 < adaptive_level pr)%Z
                    \/ (first_time pr = true
                        /\ checkpoint_sample_load (checkpoint s) = false)
                    \/ (first_time pr = false
                        /\ slow_light_on (slow_light s) = true)))
      /\ In SampleSimulation made
  | formula =>
      ~ In ObtainGridData made /\ ~ In LoadSampling made
      /\ ~ In SaveSampling made /\ ~ In SampleSimulation made
      /\ forall n, ~ In (CalculateSimulationSampling n) made
  end.
Proof.
  cbv zeta.
  destruct (model_type (general s)) eqn:Hmodel.
  - (split; [|split; [|split; [|split]]]); try intros n;
      In_calls; rewrite Hmodel; In_calls;
      intuition (try discriminate; try congruence).
  - (split; [|split; [|split; [|split; [|intros n]]]]); intros H;
      apply In_Integrate_calls in H; rewrite Hmodel in H;
      intuition discriminate.
Qed.

(** The integrating and rendering calls of the simulation model. *)
Lemma In_Integrate_simulation s pr snapshot time_sample time_integrate
    omp_get_wtime adaptive_check :
  model_type (general s) = simulation ->
  let made :=
    calls (Integrate s pr snapshot time_sample time_integrate omp_get_wtime
             adaptive_check) in
  (In IntegratePolarizedRadiation made
   <-> image_light (image s) && image_polarization (image s) = true)
  /\ (In IntegrateUnpolarizedRadiation made
      <-> image_light (image s) && image_polarization (image s) = false
          /\ image_light (image s) || image_time (image s)
             || image_length (image s) || image_lambda (image s)
             || image_emission (image s) || image_tau (image s)
             || image_lambda_ave (image s) || image_emission_ave (image s)
             || image_tau_int (image s) = true)
  /\ (In Render made <-> (0 < render_num_images (rendering s))%Z)
  /\ (In LoadSampling made
      <-> first_time pr = true /\ (adaptive_level pr <= 0)%Z
          /\ checkpoint_sample_load (checkpoint s) = true)
  /\ (In SaveSampling made
      <-> first_time pr = true /\ (adaptive_level pr <= 0)%Z
          /\ checkpoint_sample_save (checkpoint s) = true).
Proof.
  intros Hmodel. cbv zeta.
  (split; [|split; [|split; [|split]]]);
    rewrite In_Integrate_calls, Hmodel, In_sample_calls, In_simulation_calls;
    intuition (try discriminate; try congruence).
Qed.

(** X22.  [Integrate] on an object the constructor returned.  Every call
    integrates or renders: it calls [IntegratePolarizedRadiation],
    [IntegrateUnpolarizedRadiation] or [Render], and never both
    integrators; it never both loads and saves the sampling, and with
    slow light it does neither; it renders only for the simulation
    model; it integrates polarized radiation only where the input
    selects [image_polarization]; and it checks for refinement exactly
    when [adaptive_max_level > 0]. *)
Theorem integrate_of_constructed
    (p : InputReader.t) (w : list string) (s : RadiationIntegrator)
    (pr : Progress) (snapshot : Z) (time_sample time_integrate : float)
    (omp_get_wtime : nat -> float) (adaptive_check : bool) :
  new_RadiationIntegrator p = (w, inr s) ->
  let made :=
    calls (Integrate s pr snapshot time_sample time_integrate omp_get_wtime
             adaptive_check) in
  (In IntegratePolarizedRadiation made
   \/ In IntegrateUnpolarizedRadiation made \/ In Render made)
  /\ ~ (In IntegratePolarizedRadiation made
        /\ In IntegrateUnpolarizedRadiation made)
  /\ ~ (In LoadSampling made /\ In SaveSampling made)
  /\ (slow_light_on (slow_light s) = true ->
      ~ In LoadSampling made /\ ~ In SaveSampling made)
  /\ (In Render made -> model_type (general s) = simulation)
  /\ (In IntegratePolarizedRadiation made ->
      InputReader.image_polarization p = Some true)
  /\ (In CheckAdaptiveRefinement made
      <-> (0 < adaptive_max_level (adaptive s))%Z).
Proof.
  intros H. cbv zeta.
  assert (selected (image s) (rendering s) = true
          /\ checkpoint_sample_save (checkpoint s)
             && checkpoint_sample_load (checkpoint s) = false
          /\ (slow_light_on (slow_light s) = true ->
              checkpoint_sample_save (checkpoint s)
              || checkpoint_sample_load (checkpoint s) = false)
          /\ (is_simulation (model_type (general s))
              && image_light (image s) = true ->
              InputReader.image_polarization p
              = Some (image_polarization (image s))))
    as (Hsel & Hboth & Hslowlight & Hpol).
  { constructed H.
    apply copy_checkpoint_parameters_flags in Hcheckpoint as [Hboth _].
    pose proof (copy_slow_light_parameters_returned _ _ _ _ _ Hslow) as Hon.
    apply copy_image_parameters_polarization in Himage as (_ & Hpol & _).
    repeat split; try assumption.
    intros Eon. now destruct (Hon Eon) as (_ & _ & ?). }
  assert (In CheckAdaptiveRefinement
            (calls (Integrate s pr snapshot time_sample time_integrate
                      omp_get_wtime adaptive_check))
          <-> (0 < adaptive_max_level (adaptive s))%Z) as Hcheck.
  { rewrite In_Integrate_calls.
    destruct (model_type (general s));
      rewrite ?In_sample_calls, ?In_simulation_calls;
      intuition (try discriminate; try congruence). }
  destruct (model_type (general s)) eqn:Hmodel.
  - destruct (In_Integrate_simulation s pr snapshot time_sample time_integrate
                omp_get_wtime adaptive_check Hmodel)
      as (HP & HU & HR & HL & HS).
    rewrite HP, HU, HR, HL, HS, Hcheck. clear HP HU HR HL HS Hcheck.
    unfold selected in Hsel. cbn [is_simulation andb] in Hpol.
    set (any_image :=
           image_light (image s) || image_time (image s)
           || image_length (image s) || image_lambda (image s)
           || image_emission (image s) || image_tau (image s)
           || image_lambda_ave (image s) || image_emission_ave (image s)
           || image_tau_int (image s)) in *.
    clearbody any_image. rewrite <- Z.ltb_lt.
    destruct (image_light (image s)), (image_polarization (image s)),
      any_image, (0 <? render_num_images (rendering s))%Z,
      (checkpoint_sample_load (checkpoint s)),
      (checkpoint_sample_save (checkpoint s)),
      (slow_light_on (slow_light s));
      cbn [andb orb] in *;
      try discriminate Hsel; try discriminate Hboth;
      try (specialize (Hslowlight eq_refl); discriminate Hslowlight);
      try (specialize (Hpol eq_refl));
      repeat split; try tauto; try (intros; discriminate);
      try (intros [? ?]; discriminate); try (intuition discriminate).
  - rewrite Hcheck. clear Hcheck.
    (split; [|split; [|split; [|split; [|split; [|split]]]]]);
      try reflexivity; rewrite ?In_Integrate_calls, Hmodel.
    + right. left. left. now right.
    + intuition discriminate.
    + intuition discriminate.
    + intros _. intuition discriminate.
    + intuition discriminate.
    + intuition discriminate.
Qed.

Lemma Integrate_progress s pr snapshot time_sample time_integrate
    omp_get_wtime adaptive_check :
  let o := Integrate s pr snapshot time_sample time_integrate omp_get_wtime
             adaptive_check in
  let complete :=
    if (0 <? adaptive_max_level (adaptive s))%Z then adaptive_check else true in
  returned o = complete
  /\ progress o
     = {| first_time := false;
          adaptive_level := if complete then 0%Z else (adaptive_level pr + 1)%Z;
          adaptive_num_levels :=
            if complete then adaptive_level pr else adaptive_num_levels pr |}.
Proof. split; reflexivity. Qed.

(** X23.  The refinement levels of a snapshot.  Let the object refine
    ([adaptive_max_level > 0]) and [Integrate] be called [k + 1] times in
    a row, [CheckAdaptiveRefinement] asking for more on the first [k]
    calls and for none on the last.  Then the first [k] calls return
    false and the last returns true; call [i] leaves the refinement level
    one higher than it found it; and the last call leaves the level at 0
    and in [adaptive_num_levels] the level it found, which is [k] when
    the first call starts at level 0; [first_time] is false after it. *)
Theorem integrate_refinement_levels (s : RadiationIntegrator)
    (pr : Progress) (snapshot : Z) (time_sample time_integrate : float)
    (clocks : list (nat -> float)) (k : nat) :
  (0 < adaptive_max_level (adaptive s))%Z ->
  length clocks = S k ->
  let outs :=
    Integrate_each s pr snapshot time_sample time_integrate clocks
      (replicate k false ++ [true]) in
  map returned outs = replicate k false ++ [true]
  /\ (forall i o,
        outs !! i = Some o -> i < k ->
        adaptive_level (progress o) = (adaptive_level pr + Z.of_nat (S i))%Z)
  /\ (forall o,
        last outs = Some o ->
        progress o
        = {| first_time := false; adaptive_level := 0;
             adaptive_num_levels := (adaptive_level pr + Z.of_nat k)%Z |}).
Proof.
  intros Hmax Hlen. apply Z.ltb_lt in Hmax.
  revert pr time_sample time_integrate clocks Hlen.
  induction k as [|k IH]; intros pr time_sample time_integrate clocks Hlen.
  - destruct clocks as [|clock [|? ?]]; try discriminate Hlen.
    cbn [replicate app Integrate_each map].
    destruct (Integrate_progress s pr snapshot time_sample time_integrate
                clock true) as [Hr Hp].
    cbv zeta in Hr, Hp. rewrite Hmax in Hr, Hp.
    split; [now rewrite Hr|]. split.
    + intros i o _ Hi. lia.
    + intros o Ho. injection Ho as <-. rewrite Hp. f_equal. lia.
  - destruct clocks as [|clock clocks]; [discriminate Hlen|].
    injection Hlen as Hlen.
    cbn [replicate app Integrate_each map].
    set (o := Integrate s pr snapshot time_sample time_integrate clock false).
    destruct (Integrate_progress s pr snapshot time_sample time_integrate
                clock false) as [Hr Hp].
    cbv zeta in Hr, Hp. rewrite Hmax in Hr, Hp. fold o in Hr, Hp.
    destruct (IH (progress o) (Integration.time_sample o)
                (Integration.time_integrate o) clocks Hlen)
      as (IHr & IHl & IHlast).
    cbv zeta in IHr, IHl, IHlast.
    set (rest := Integrate_each s (progress o) snapshot
                   (Integration.time_sample o) (Integration.time_integrate o)
                   clocks (replicate k false ++ [true])) in *.
    assert (adaptive_level (progress o) = (adaptive_level pr + 1)%Z) as Hlevel
      by now rewrite Hp.
    split; [now rewrite Hr, IHr|]. split.
    + intros [|i] o' Ho' Hi.
      * injection Ho' as <-. rewrite Hlevel. lia.
      * cbn in Ho'. rewrite (IHl i o' Ho') by lia. rewrite Hlevel. lia.
    + intros o' Ho'. rewrite last_cons in Ho'.
      destruct (last rest) as [o''|] eqn:Hlast.
      * injection Ho' as <-. rewrite (IHlast o'' eq_refl), Hlevel.
        f_equal. lia.
      * apply last_None in Hlast. apply (f_equal (@length bool)) in IHr.
        rewrite Hlast in IHr. cbn in IHr.
        rewrite length_app in IHr. cbn in IHr. lia.
Qed.

(** X24.  Without refinement one call completes the snapshot.  With
    [adaptive_max_level <= 0], [Integrate] returns true whatever
    [CheckAdaptiveRefinement] would answer, does not call it, leaves the
    refinement level at 0 and [first_time] false, and puts the level it
    found in [adaptive_num_levels]. *)
Theorem integrate_without_refinement (s : RadiationIntegrator)
    (pr : Progress) (snapshot : Z) (time_sample time_integrate : float)
    (omp_get_wtime : nat -> float) (adaptive_check : bool) :
  (adaptive_max_level (adaptive s) <= 0)%Z ->
  let o := Integrate s pr snapshot time_sample time_integrate omp_get_wtime
             adaptive_check in
  returned o = true
  /\ ~ In CheckAdaptiveRefinement (calls o)
  /\ progress o
     = {| first_time := false; adaptive_level := 0;
          adaptive_num_levels := adaptive_level pr |}
  /\ o = Integrate s pr snapshot time_sample time_integrate omp_get_wtime
           (negb adaptive_check).
Proof.
  intros Hmax. cbv zeta.
  destruct (Integrate_progress s pr snapshot time_sample time_integrate
              omp_get_wtime adaptive_check) as [Hr Hp].
  cbv zeta in Hr, Hp.
  assert ((0 <? adaptive_max_level (adaptive s))%Z = false) as Hb
    by now apply Z.ltb_ge.
  rewrite Hb in Hr, Hp.
  split; [exact Hr|]. split; [|split; [exact Hp|]].
  - rewrite In_Integrate_calls.
    destruct (model_type (general s));
      rewrite ?In_sample_calls, ?In_simulation_calls;
      intuition (try discriminate; try lia).
  - unfold Integrate. now rewrite Hb.
Qed.

(** X25.  The timers accumulate.  After calls of [Integrate] in a row,
    each passed the timers the one before left, the timers hold what the
    first call was passed plus, call after call, what each call measured.
    For the simulation model a call adds to the sample timer the time
    from its first reading of the clock to its second and to the
    integration timer the time from the second to the third; for the
    formula model it adds [0.0 - 0.0] to the sample timer and to the
    integration timer the time from its first reading to its second. *)
Theorem integrate_timers_accumulate (s : RadiationIntegrator)
    (pr : Progress) (snapshot : Z) (time_sample time_integrate : float)
    (clocks : list (nat -> float)) (checks : list bool) :
  length clocks = length checks ->
  let outs :=
    Integrate_each s pr snapshot time_sample time_integrate clocks checks in
  let simulation_model := is_simulation (model_type (general s)) in
  length outs = length clocks
  /\ forall o,
       last outs = Some o ->
       Integration.time_sample o
       = fold_left
           (fun t clock =>
              if simulation_model then (t + (clock 1%nat - clock 0%nat))%float
              else (t + (0.0 - 0.0))%float)
           clocks time_sample
       /\ Integration.time_integrate o
          = fold_left
              (fun t clock =>
                 if simulation_model then (t + (clock 2%nat - clock 1%nat))%float
                 else (t + (clock 1%nat - clock 0%nat))%float)
              clocks time_integrate.
Proof.
  intros Hlen. cbv zeta.
  set (simulation_model := is_simulation (model_type (general s))).
  assert (is_simulation (model_type (general s)) = simulation_model) as Hmodel
    by reflexivity.
  clearbody simulation_model.
  revert checks pr time_sample time_integrate Hlen.
  induction clocks as [|clock clocks IH];
    intros checks pr time_sample time_integrate Hlen.
  - cbn. split; [reflexivity | discriminate].
  - destruct checks as [|check checks]; [discriminate Hlen|].
    injection Hlen as Hlen. cbn [Integrate_each fold_left].
    set (o := Integrate s pr snapshot time_sample time_integrate clock check).
    destruct (IH checks (progress o) (Integration.time_sample o)
                (Integration.time_integrate o) Hlen) as [IHlen IHlast].
    cbv zeta in IHlen, IHlast.
    set (rest := Integrate_each s (progress o) snapshot
                   (Integration.time_sample o) (Integration.time_integrate o)
                   clocks checks) in *.
    assert (Integration.time_sample o
            = (if simulation_model
               then (time_sample + (clock 1%nat - clock 0%nat))%float
               else (time_sample + (0.0 - 0.0))%float)
            /\ Integration.time_integrate o
               = (if simulation_model
                  then (time_integrate + (clock 2%nat - clock 1%nat))%float
                  else (time_integrate + (clock 1%nat - clock 0%nat))%float))
      as [Es Ei].
    { subst o. unfold Integrate. cbn [Integration.time_sample
                                       Integration.time_integrate].
      rewrite Hmodel. destruct simulation_model; split; reflexivity. }
    split; [cbn; now rewrite IHlen|].
    intros o' Ho'. rewrite last_cons in Ho'.
    destruct (last rest) as [o''|] eqn:Hlast.
    + injection Ho' as <-. rewrite <- Es, <- Ei. now apply IHlast.
    + injection Ho' as <-. apply last_None in Hlast. rewrite Hlast in IHlen.
      destruct clocks; [|discriminate IHlen]. cbn [fold_left]. auto.
Qed.

End IntegrateFacts.

(** X22 at the first call on the object of a polarized simulation. *)
Lemma integrate_of_constructed_witness :
  exists w s,
    Constructor.new_RadiationIntegrator
      (Inputs.simulation_input false false 4.0 0 0)
    = (w, inr s)
    /\ let made :=
         Integration.calls
           (Integration.Integrate s
              {| Integration.first_time := true;
                 Integration.adaptive_level := 0;
                 Integration.adaptive_num_levels := 0 |}
              0 0%float 0%float (fun _ => 0%float) true) in
       (In Integration.IntegratePolarizedRadiation made
        \/ In Integration.IntegrateUnpolarizedRadiation made
        \/ In Integration.Render made)
       /\ ~ (In Integration.IntegratePolarizedRadiation made
             /\ In Integration.IntegrateUnpolarizedRadiation made)
       /\ ~ (In Integration.LoadSampling made
             /\ In Integration.SaveSampling made)
       /\ (Constructor.slow_light_on (Constructor.slow_light s) = true ->
           ~ In Integration.LoadSampling made
           /\ ~ In Integration.SaveSampling made)
       /\ (In Integration.Render made ->
           Constructor.model_type (Constructor.general s) = simulation)
       /\ (In Integration.IntegratePolarizedRadiation made ->
           InputReader.image_polarization
             (Inputs.simulation_input false false 4.0 0 0)
           = Some true)
       /\ (In Integration.CheckAdaptiveRefinement made
           <-> (0 < Constructor.adaptive_max_level (Constructor.adaptive s))%Z).
Proof.
  destruct (Constructor.new_RadiationIntegrator
              (Inputs.simulation_input false false 4.0 0 0))
    as [w [e|s]] eqn:E; [vm_compute in E; discriminate|].
  exists w, s. split; [reflexivity|].
  apply (integrate_of_constructed
           (Inputs.simulation_input false false 4.0 0 0) w s _ _ _ _ _ _ E).
Defined.

(** X23 at two refinements of a 64 x 64 image: the third call returns
    true and leaves 2 in [adaptive_num_levels]. *)
Lemma integrate_refinement_levels_witness :
  exists w s,
    Constructor.new_RadiationIntegrator
      (Inputs.simulation_input false false 4.0 2 16)
    = (w, inr s)
    /\ (0 < Constructor.adaptive_max_level (Constructor.adaptive s))%Z
    /\ let pr :=
         {| Integration.first_time := true; Integration.adaptive_level := 0;
            Integration.adaptive_num_levels := 0 |} in
       let clocks := replicate 3 (fun _ : nat => 0%float) in
       let outs :=
         Integration.Integrate_each s pr 0 0%float 0%float clocks
           (replicate 2 false ++ [true]) in
       length clocks = 3
       /\ map Integration.returned outs = replicate 2 false ++ [true]
       /\ (forall i o,
             outs !! i = Some o -> i < 2 ->
             Integration.adaptive_level (Integration.progress o)
             = (Integration.adaptive_level pr + Z.of_nat (S i))%Z)
       /\ (forall o,
             last outs = Some o ->
             Integration.progress o
             = {| Integration.first_time := false;
                  Integration.adaptive_level := 0;
                  Integration.adaptive_num_levels :=
                    (Integration.adaptive_level pr + Z.of_nat 2)%Z |}).
Proof.
  destruct (Constructor.new_RadiationIntegrator
              (Inputs.simulation_input false false 4.0 2 16))
    as [w [e|s]] eqn:E; [vm_compute in E; discriminate|].
  assert (0 < Constructor.adaptive_max_level (Constructor.adaptive s))%Z
    as Hpos.
  { pose proof E as E'. vm_compute in E'. injection E' as _ <-. reflexivity. }
  exists w, s. split; [reflexivity|]. split; [exact Hpos|].
  cbv zeta. split; [reflexivity|].
  apply (integrate_refinement_levels s _ 0 0%float 0%float
           (replicate 3 (fun _ : nat => 0%float)) 2 Hpos).
  reflexivity.
Defined.

(** X24 at an object that does not refine. *)
Lemma integrate_without_refinement_witness :
  exists w s,
    Constructor.new_RadiationIntegrator (Inputs.formula_input true false)
    = (w, inr s)
    /\ (Constructor.adaptive_max_level (Constructor.adaptive s) <= 0)%Z
    /\ let pr :=
         {| Integration.first_time := true; Integration.adaptive_level := 0;
            Integration.adaptive_num_levels := 0 |} in
       let o :=
         Integration.Integrate s pr 0 0%float 0%float (fun _ => 0%float)
           false in
       Integration.returned o = true
       /\ ~ In Integration.CheckAdaptiveRefinement (Integration.calls o)
       /\ Integration.progress o
          = {| Integration.first_time := false;
               Integration.adaptive_level := 0;
               Integration.adaptive_num_levels :=
                 Integration.adaptive_level pr |}
       /\ o = Integration.Integrate s pr 0 0%float 0%float
                (fun _ => 0%float) (negb false).
Proof.
  destruct (Constructor.new_RadiationIntegrator
              (Inputs.formula_input true false))
    as [w [e|s]] eqn:E; [vm_compute in E; discriminate|].
  assert (Constructor.adaptive_max_level (Constructor.adaptive s) <= 0)%Z
    as Hmax.
  { pose proof E as E'. vm_compute in E'. injection E' as _ <-.
    vm_compute. discriminate. }
  exists w, s. split; [reflexivity|]. split; [exact Hmax|].
  apply (integrate_without_refinement s _ 0 0%float 0%float
           (fun _ => 0%float) false Hmax).
Defined.

(** X25 at two calls on a formula object, the clock reading 1 and 3 in the
    first and 10 and 15 in the second: the integration timer ends at 7. *)
Lemma integrate_timers_accumulate_witness :
  exists w s,
    Constructor.new_RadiationIntegrator (Inputs.formula_input true false)
    = (w, inr s)
    /\ let pr :=
         {| Integration.first_time := true; Integration.adaptive_level := 0;
            Integration.adaptive_num_levels := 0 |} in
       let clocks :=
         [fun k => nth k [1.0; 3.0]%float 0.0%float;
          fun k => nth k [10.0; 15.0]%float 0.0%float] in
       let checks := [true; true] in
       let outs :=
         Integration.Integrate_each s pr 0 0%float 0%float clocks checks in
       let simulation_model :=
         Constructor.is_simulation
           (Constructor.model_type (Constructor.general s)) in
       length clocks = length checks
       /\ (length outs = length clocks
           /\ forall o,
                last outs = Some o ->
                Integration.time_sample o
                = fold_left
                    (fun t clock =>
                       if simulation_model
                       then (t + (clock 1%nat - clock 0%nat))%float
                       else (t + (0.0 - 0.0))%float)
                    clocks 0%float
                /\ Integration.time_integrate o
                   = fold_left
                       (fun t clock =>
                          if simulation_model
                          then (t + (clock 2%nat - clock 1%nat))%float
                          else (t + (clock 1%nat - clock 0%nat))%float)
                       clocks 0%float)
       /\ option_map Integration.time_integrate (last outs) = Some 7.0%float.
Proof.
  destruct (Constructor.new_RadiationIntegrator
              (Inputs.formula_input true false))
    as [w [e|s]] eqn:E; [vm_compute in E; discriminate|].
  exists w, s. split; [reflexivity|]. cbv zeta. split; [reflexivity|]. split.
  - apply (integrate_timers_accumulate s _ 0 0%float 0%float
             [fun k => nth k [1.0; 3.0]%float 0.0%float;
              fun k => nth k [10.0; 15.0]%float 0.0%float] [true; true]).
    reflexivity.
  - vm_compute in E. injection E as _ <-. vm_compute. reflexivity.
Defined.

(** ** The sign of a difference of doubles *)

Section SubSign.
Import Sign.
Local Open Scope Z_scope.

Lemma bounded_mantissa m e :
  bounded prec emax m e = true ->
  emin <= e /\ Z.pos m < 2 ^ 53 /\ (emin < e -> 2 ^ 52 <= Z.pos m).
Proof.
  unfold bounded, canonical_mantissa, fexp. intros H.
  apply andb_true_iff in H as [H _]. apply Z.eqb_eq in H.
  change (IntDef.Z.max) with Z.max in H.
  change prec with 53 in *.
  pose proof (digits2_pos_bounds m) as [Hlo Hhi].
  set (d := Z.pos (digits2_pos m)) in *.
  assert (0 < d) by (subst d; lia).
  split; [lia|]. split.
  - assert (d <= 53) by lia.
    apply Z.lt_le_trans with (2 ^ d); [assumption|].
    apply Z.pow_le_mono_r; lia.
  - intros He. assert (d = 53) as -> by lia. exact Hlo.
Qed.


Lemma round_true_SFnp m e l :
  Heights.SFnp (binary_round_aux prec emax true m e l).
Proof.
  destruct (round_sign true m e l) as [E|[E|[E|(m' & e' & E)]]];
    rewrite E; exact I.
Qed.

Lemma normalize_SFnn D e :
  0 <= D -> SFnn (binary_normalize prec emax D e false).
Proof.
  intros H. destruct D as [|p|p]; [exact I | | lia].
  cbn [binary_normalize]. unfold binary_round.
  destruct (shl_align _ _ _) as [mz ez]. apply SFsc_SFnn, round_SFsc.
Qed.

Lemma normalize_SFnp D e :
  D <= 0 -> Heights.SFnp (binary_normalize prec emax D e false).
Proof.
  intros H. destruct D as [|p|p]; [exact I | lia |].
  cbn [binary_normalize]. unfold binary_round.
  destruct (shl_align _ _ _) as [mz ez]. apply round_true_SFnp.
Qed.

(** The comparison of two doubles is that of their values. *)
Lemma SFcompare_values sA mA eA sB mB eB :
  bounded prec emax mA eA = true -> bounded prec emax mB eB = true ->
  SFcompare (S754_finite sA mA eA) (S754_finite sB mB eB) = Some Lt
  \/ SFcompare (S754_finite sA mA eA) (S754_finite sB mB eB) = Some Eq ->
  let ez := Z.min eA eB in
  cond_Zopp sA (Z.pos (fst (shl_align mA eA ez)))
  <= cond_Zopp sB (Z.pos (fst (shl_align mB eB ez))).
Proof.
  intros HA HB Hc ez.
  apply bounded_mantissa in HA as (HeA & HAhi & HAlo).
  apply bounded_mantissa in HB as (HeB & HBhi & HBlo).
  rewrite !shl_align_value by (subst ez; lia).
  cbn [SFcompare] in Hc.
  change (PosDef.Pos.compare_cont Eq mA mB) with (Pos.compare mA mB) in Hc.
  assert (0 < 2 ^ (eA - ez) /\ 0 < 2 ^ (eB - ez)) as [HpA HpB]
    by (split; apply Z.pow_pos_nonneg; subst ez; lia).
  destruct sA, sB; cbn [cond_Zopp]; try nia.
  - (* both negative *)
    destruct (Z.compare_spec eA eB) as [E|E|E].
    + subst eB. replace (eA - ez) with 0 in * by (subst ez; lia).
      destruct (Pos.compare_spec mA mB) as [Em|Em|Em];
        cbn [CompOpp] in Hc; try (destruct Hc; discriminate);
        rewrite Z.pow_0_r; lia.
    + destruct Hc; discriminate.
    + replace (eB - ez) with 0 in * by (subst ez; lia).
      assert (2 ^ 1 <= 2 ^ (eA - ez)) by (apply Z.pow_le_mono_r; subst ez; lia).
      specialize (HAlo ltac:(lia)). rewrite Z.pow_0_r.
      change (2 ^ 1) with 2 in *. change (2 ^ 52) with 4503599627370496 in *.
      change (2 ^ 53) with 9007199254740992 in *. nia.
  - destruct Hc; discriminate.
  - (* both positive *)
    destruct (Z.compare_spec eA eB) as [E|E|E].
    + subst eB. replace (eA - ez) with 0 in * by (subst ez; lia).
      destruct (Pos.compare_spec mA mB) as [Em|Em|Em];
        try (destruct Hc; discriminate); rewrite Z.pow_0_r; lia.
    + replace (eA - ez) with 0 in * by (subst ez; lia).
      assert (2 ^ 1 <= 2 ^ (eB - ez)) by (apply Z.pow_le_mono_r; subst ez; lia).
      specialize (HBlo ltac:(lia)). rewrite Z.pow_0_r.
      change (2 ^ 1) with 2 in *. change (2 ^ 52) with 4503599627370496 in *.
      change (2 ^ 53) with 9007199254740992 in *. nia.
    + destruct Hc; discriminate.
Qed.

(** The sign of a difference of doubles follows their order. *)
Lemma SFsub_sign A B :
  valid_binary A = true -> valid_binary B = true ->
  SFcompare A B = Some Lt \/ SFcompare A B = Some Eq ->
  SFnn (SF64sub B A) /\ Heights.SFnp (SF64sub A B).
Proof.
  intros HA HB Hc.
  destruct A as [sA|sA| |sA mA eA], B as [sB|sB| |sB mB eB];
    try (destruct Hc as [Hc|Hc]; discriminate Hc);
    try (destruct sA, sB; cbn in *;
         try (destruct Hc as [Hc|Hc]; discriminate Hc); tauto).
  cbn [valid_binary SpecFloat.valid_binary] in HA, HB.
  pose proof (SFcompare_values _ _ _ _ _ _ HA HB Hc) as Hle.
  cbv zeta in Hle. unfold SF64sub, SFsub.
  change IntDef.Z.min with Z.min. split.
  - rewrite (Z.min_comm eB eA). apply normalize_SFnn. lia.
  - apply normalize_SFnp. lia.
Qed.

End SubSign.

Section SubOrder.
Import Sign.
Local Open Scope float_scope.

Lemma leb_compare a b :
  (a <=? b) = true ->
  SFcompare (Prim2SF a) (Prim2SF b) = Some Lt
  \/ SFcompare (Prim2SF a) (Prim2SF b) = Some Eq.
Proof.
  rewrite leb_spec. unfold SFleb.
  destruct (SFcompare _ _) as [[]|]; auto; discriminate.
Qed.

Lemma sub_sign a b :
  (a <=? b) = true ->
  SFnn (Prim2SF (b - a)) /\ Heights.SFnp (Prim2SF (a - b)).
Proof.
  intros H. rewrite !sub_spec.
  apply SFsub_sign; [apply Prim2SF_valid.. | now apply leb_compare].
Qed.

Lemma SFmul_SFnp x y : Heights.SFnp x -> Heights.SFnp y -> SFnn (SF64mul x y).
Proof.
  destruct x as [[]|[]| |[] mx ex], y as [[]|[]| |[] my ey];
    simpl; try tauto; intros _ _; apply SFsc_SFnn, round_SFsc.
Qed.

End SubOrder.


(** ** Rays without a z-turning *)

Section MonotoneRays.
Import ZTurnings Heights Sign.
Local Open Scope float_scope.

Lemma mul_of_differences (a b c d : float) :
  ((a <=? b) = true /\ (c <=? d) = true)
  \/ ((b <=? a) = true /\ (d <=? c) = true) ->
  ((b - a) * (d - c) <? 0) = false.
Proof.
  intros H. apply not_negative_spec. rewrite mul_spec.
  destruct H as [[H1 H2]|[H1 H2]].
  - apply SFmul_SFnn; now apply sub_sign.
  - apply SFmul_SFnp; now apply sub_sign.
Qed.

Lemma filter_none {A : Type} (f : A -> bool) (l : list A) :
  (forall x, In x l -> f x = false) -> List.filter f l = [].
Proof.
  induction l as [|x l IH]; intros H; [reflexivity|].
  cbn [List.filter]. rewrite (H x) by now left.
  apply IH. intros y Hy. apply H. now right.
Qed.

(** Checking every pair of heights decides that a ray never goes down. *)
Lemma is_non_decreasing_correct (z : Z -> float) (num_steps : Z) :
  is_non_decreasing z num_steps = true -> non_decreasing z num_steps.
Proof.
  unfold is_non_decreasing. intros H j k Hj Hjk Hk.
  rewrite forallb_forall in H.
  specialize (H (Z.to_nat j)). rewrite forallb_forall in H.
  specialize (H ltac:(apply in_seq; lia) (Z.to_nat k)).
  rewrite !Z2Nat.id in H by lia. apply H. apply in_seq. lia.
Qed.

Variable uninitialized : float.

(** X26.  A ray that never turns has no z-turning.  If the heights of
    the samples of a ray never go down from one step to a later one, or
    never go up, no step the scan tests counts a turning and the call
    returns the count it was passed, whatever rounding does to the
    differences. *)
Theorem monotone_ray_has_no_z_turnings (s : RadiationIntegrator)
    (m num_steps n_start0 count0 : Z) :
  non_decreasing (sample_z uninitialized s m) num_steps
  \/ non_increasing (sample_z uninitialized s m) num_steps ->
  let result := FindZTurnings uninitialized s m num_steps n_start0 count0 in
  let tested := tested_steps uninitialized s m num_steps n_start0 count0 in
  (forall n, In n tested -> counts (sample_z uninitialized s m) n = false)
  /\ snd result = count0.
Proof.
  intros Hz. cbv zeta.
  assert (forall n,
            In n (tested_steps uninitialized s m num_steps n_start0 count0) ->
            counts (sample_z uninitialized s m) n = false) as Hnone.
  { intros n Hn. unfold tested_steps in Hn. apply scan_tested_bounds in Hn.
    cbn [first_state ZTurnings.n] in Hn. unfold MIN_DIFF_N in Hn.
    unfold counts, find_1, find_n, MIN_DIFF_N.
    rewrite !mul_of_differences; [now rewrite andb_false_r | |].
    - destruct Hz as [Hz|Hz]; [left | right]; split; apply Hz; lia.
    - destruct Hz as [Hz|Hz]; [left | right]; split; apply Hz; lia. }
  split; [exact Hnone|].
  unfold FindZTurnings. cbn [fst snd]. rewrite scan_count.
  unfold tested_steps in Hnone. rewrite (filter_none _ _ Hnone).
  cbn [first_state z_turnings_count length]. lia.
Qed.

End MonotoneRays.

(** X26 on the rising ray of 25 samples: five steps are tested and none
    counts. *)
Lemma monotone_ray_has_no_z_turnings_witness :
  let z := ZTurnings.sample_z 0%float Heights.rising 0 in
  let result := ZTurnings.FindZTurnings 0%float Heights.rising 0 25 (-1) 0 in
  let tested := ZTurnings.tested_steps 0%float Heights.rising 0 25 (-1) 0 in
  (Heights.non_decreasing z 25 \/ Heights.non_increasing z 25)
  /\ ((forall n, In n tested -> ZTurnings.counts z n = false)
      /\ snd result = 0%Z)
  /\ tested = [14; 13; 12; 11; 10]%Z.
Proof.
  cbv zeta.
  assert (Heights.non_decreasing
            (ZTurnings.sample_z 0%float Heights.rising 0) 25) as Hz
    by (apply is_non_decreasing_correct; vm_compute; reflexivity).
  split; [now left|]. split.
  - apply (monotone_ray_has_no_z_turnings 0%float Heights.rising 0 25 (-1) 0).
    now left.
  - vm_compute. reflexivity.
Defined.

(** ** The constructor: the warnings of the formula model *)

Section SilentFacts.
Import Exceptions Constructor Warnings.

Lemma silent_ret {A : Type} (a : A) : silent (mret a : M A).
Proof. intros w a' H. now apply ret_returned in H. Qed.

Lemma silent_throw {A : Type} (e : exception) : silent (mthrow e : M A).
Proof. intros w a H. discriminate H. Qed.

Lemma silent_value {A : Type} (o : option A) : silent (value o).
Proof. intros w a H. now apply value_returned in H. Qed.

Lemma silent_value_if {A : Type} c (o : option A) d : silent (value_if c o d).
Proof. destruct c; [apply silent_value | apply silent_ret]. Qed.

Lemma silent_when b (m : M unit) : silent m -> silent (when b m).
Proof. intros H. destruct b; [exact H | apply silent_ret]. Qed.

Lemma silent_bind {A B : Type} (m : M A) (f : A -> M B) :
  silent m -> (forall a, silent (f a)) -> silent (m ≫= f).
Proof.
  intros Hm Hf w b H.
  apply bind_returned_inv in H as (w1 & a & w2 & H1 & H2 & ->).
  now rewrite (Hm _ _ H1), (Hf _ _ _ H2).
Qed.

Lemma silent_for_each {A : Type} (body : nat -> M A) ns :
  (forall n, silent (body n)) -> silent (for_each body ns).
Proof.
  intros H. induction ns as [|n ns IH]; cbn [for_each].
  - apply silent_ret.
  - apply silent_bind; [apply H|]. intros a.
    apply silent_bind; [exact IH|]. intros l. apply silent_ret.
Qed.

End SilentFacts.

Ltac silent_step :=
  lazymatch goal with
  | |- Warnings.silent (mret _) => apply silent_ret
  | |- Warnings.silent (mthrow _) => apply silent_throw
  | |- Warnings.silent (_ ≫= _) => apply silent_bind; [ | intros ? ]
  | |- Warnings.silent (Exceptions.value _) => apply silent_value
  | |- Warnings.silent (Exceptions.value_if _ _ _) => apply silent_value_if
  | |- Warnings.silent (Exceptions.when false _) => exact (silent_ret tt)
  | |- Warnings.silent (Exceptions.when _ _) => apply silent_when
  | |- Warnings.silent (if ?b then _ else _) => destruct b
  | |- Warnings.silent (match ?x with _ => _ end) => destruct x
  end.

Ltac silent_tac :=
  cbv zeta;
  repeat (silent_step;
          cbv zeta;
          cbn [Constructor.is_simulation Constructor.is_formula andb]).

Section FormulaWarnings.
Import Exceptions Constructor Warnings.

Lemma copy_general_input_data_silent p : silent (copy_general_input_data p).
Proof. unfold copy_general_input_data. silent_tac. Qed.

Lemma copy_formula_parameters_silent p model :
  silent (copy_formula_parameters p model).
Proof. unfold copy_formula_parameters. silent_tac. Qed.

Lemma copy_simulation_parameters_silent p model :
  silent (copy_simulation_parameters p model).
Proof. unfold copy_simulation_parameters. silent_tac. Qed.

Lemma copy_plasma_parameters_silent p :
  silent (copy_plasma_parameters p formula).
Proof.
  unfold copy_plasma_parameters. cbn [is_simulation andb]. silent_tac.
Qed.

Lemma copy_slow_light_parameters_silent p model c :
  silent (copy_slow_light_parameters p model c).
Proof. unfold copy_slow_light_parameters. silent_tac. Qed.

Lemma copy_fallback_parameters_silent p model pl :
  silent (copy_fallback_parameters p model pl).
Proof. unfold copy_fallback_parameters. silent_tac. Qed.

Lemma copy_camera_parameters_silent p : silent (copy_camera_parameters p).
Proof. unfold copy_camera_parameters. silent_tac. Qed.

Lemma copy_adaptive_parameters_silent p im cam :
  silent (copy_adaptive_parameters p im cam).
Proof.
  unfold copy_adaptive_parameters, check_adaptive_block_size, copy_criterion.
  silent_tac.
Qed.

(** [if (o.has_value() and o.value()) BlacklightWarning(message);] *)
Lemma ignoring_returned (b : bool) message w u :
  when b (BlacklightWarning message) = (w, inr u) ->
  w = if b then [message] else [].
Proof. destruct b; cbn; intros H; now inversion H. Qed.

Lemma copy_checkpoint_parameters_warnings p w c :
  copy_checkpoint_parameters p formula = (w, inr c) ->
  w = (if has_value_and_value (InputReader.checkpoint_sample_save p)
       then ["Ignoring checkpoint_sample_save selection."%string] else [])
      ++ (if has_value_and_value (InputReader.checkpoint_sample_load p)
          then ["Ignoring checkpoint_sample_load selection."%string] else []).
Proof.
  unfold copy_checkpoint_parameters. cbn [is_simulation]. intros H.
  apply bind_returned_inv in H as (w0 & [] & w0' & Hm0 & H & ->).
  apply bind_returned_inv in H as (w1 & [] & w1' & Hm1 & H & ->).
  apply ret_returned in H as [_ ->].
  apply ignoring_returned in Hm0, Hm1. subst. now rewrite app_nil_r.
Qed.

Lemma copy_image_parameters_warnings p pl w im :
  copy_image_parameters p formula pl = (w, inr im) ->
  w = (if has_value_and_value (InputReader.image_polarization p)
       then ["Ignoring image_polarization selection."%string] else [])
      ++ (if has_value_and_value (InputReader.image_lambda_ave p)
          then ["Ignoring image_lambda_ave selection."%string] else [])
      ++ (if has_value_and_value (InputReader.image_emission_ave p)
          then ["Ignoring image_emission_ave selection."%string] else [])
      ++ (if has_value_and_value (InputReader.image_tau_int p)
          then ["Ignoring image_tau_int selection."%string] else []).
Proof.
  unfold copy_image_parameters. cbn [is_simulation]. intros H.
  apply bind_returned_inv in H as (w0 & light & w0' & Hm0 & H & ->).
  apply bind_returned_inv in H as (w1 & freq & w1' & Hm1 & H & ->).
  apply bind_returned_inv in H as (w2 & pol & w2' & Hm2 & H & ->).
  apply bind_returned_inv in H as (w3 & [] & w3' & Hm3 & H & ->).
  apply bind_returned_inv in H as (w4 & ? & w4' & Hm4 & H & ->).
  apply bind_returned_inv in H as (w5 & ? & w5' & Hm5 & H & ->).
  apply bind_returned_inv in H as (w6 & ? & w6' & Hm6 & H & ->).
  apply bind_returned_inv in H as (w7 & ? & w7' & Hm7 & H & ->).
  apply bind_returned_inv in H as (w8 & ? & w8' & Hm8 & H & ->).
  apply bind_returned_inv in H as (w9 & ? & w9' & Hm9 & H & ->).
  apply bind_returned_inv in H as (w10 & ? & w10' & Hm10 & H & ->).
  apply bind_returned_inv in H as (w11 & ? & w11' & Hm11 & H & ->).
  apply ret_returned in H as [_ ->].
  apply silent_value in Hm0, Hm4, Hm5, Hm6, Hm7, Hm8.
  apply silent_value_if in Hm1.
  assert (w3 = []) as ->.
  { destruct light; cbn [andb when] in Hm3; now apply ret_returned in Hm3. }
  assert (w2 = if has_value_and_value (InputReader.image_polarization p)
               then ["Ignoring image_polarization selection."%string]
               else []) as ->.
  { destruct light;
      apply bind_returned_inv in Hm2 as (? & [] & ? & Hm2 & Hr & ->);
      apply ret_returned in Hr as [_ ->];
      apply ignoring_returned in Hm2; subst; now rewrite app_nil_r. }
  apply bind_returned_inv in Hm9 as (? & [] & ? & Hm9 & Hr9 & ->).
  apply ret_returned in Hr9 as [_ ->]. apply ignoring_returned in Hm9.
  apply bind_returned_inv in Hm10 as (? & [] & ? & Hm10 & Hr10 & ->).
  apply ret_returned in Hr10 as [_ ->]. apply ignoring_returned in Hm10.
  apply bind_returned_inv in Hm11 as (? & [] & ? & Hm11 & Hr11 & ->).
  apply ret_returned in Hr11 as [_ ->]. apply ignoring_returned in Hm11.
  subst. cbn [app]. now rewrite !app_nil_r.
Qed.

Lemma copy_rendering_parameters_warnings p w r :
  copy_rendering_parameters p formula = (w, inr r) ->
  w = if match InputReader.render_num_images p with
         | Some n => (0 <? n)%Z
         | None => false
         end
      then ["Ignoring request for rendering."%string] else [].
Proof.
  unfold copy_rendering_parameters. cbn [is_simulation]. intros H.
  apply bind_returned_inv in H as (w0 & images & w0' & Hm0 & H & ->).
  apply bind_returned_inv in Hm0 as (? & [] & ? & Hm0 & Hr & ->).
  apply ret_returned in Hr as [<- ->]. apply ignoring_returned in Hm0.
  cbn in H. apply ret_returned in H as [_ ->]. subst. now rewrite !app_nil_r.
Qed.

(** X27.  The warnings of a formula run.  When the constructor returns
    for the formula model, it has given exactly one warning for each
    selection of the simulation that the input sets and it ignores, in
    this order: saving and loading a sample checkpoint, the polarization,
    the three averaged or integrated images, and a positive number of
    rendered images; and no other warning. *)
Theorem formula_constructor_warnings
    (p : InputReader.t) (w : list string) (obj : RadiationIntegrator) :
  new_RadiationIntegrator p = (w, inr obj) ->
  InputReader.model_type p = Some formula ->
  w = (if has_value_and_value (InputReader.checkpoint_sample_save p)
       then ["Ignoring checkpoint_sample_save selection."%string] else [])
      ++ (if has_value_and_value (InputReader.checkpoint_sample_load p)
          then ["Ignoring checkpoint_sample_load selection."%string] else [])
      ++ (if has_value_and_value (InputReader.image_polarization p)
          then ["Ignoring image_polarization selection."%string] else [])
      ++ (if has_value_and_value (InputReader.image_lambda_ave p)
          then ["Ignoring image_lambda_ave selection."%string] else [])
      ++ (if has_value_and_value (InputReader.image_emission_ave p)
          then ["Ignoring image_emission_ave selection."%string] else [])
      ++ (if has_value_and_value (InputReader.image_tau_int p)
          then ["Ignoring image_tau_int selection."%string] else [])
      ++ (if match InputReader.render_num_images p with
             | Some n => (0 <? n)%Z
             | None => false
             end
          then ["Ignoring request for rendering."%string] else []).
Proof.
  intros H Hmodel.
  apply new_RadiationIntegrator_returned in H
    as (w0 & b & w1 & Hb & _ & _ & Hadaptive & _ & _ & _ & _ & _ & _ & _ & _
        & _ & _ & ->).
  apply copy_adaptive_parameters_silent in Hadaptive as ->.
  apply before_selection_blocks in Hb
    as (x1 & x2 & x3 & x4 & x5 & x6 & x7 & x8 & x9 & x10
        & Hgeneral & Hcheckpoint & Hformula & Hsimulation & Hplasma
        & Hslow & Hfallback & Hcamera & Himage & Hrendering & ->).
  cbv zeta in *.
  pose proof (copy_general_input_data_returned _ _ _ Hgeneral) as Hm.
  rewrite Hmodel in Hm. injection Hm as Hm. rewrite <- Hm in *.
  apply copy_general_input_data_silent in Hgeneral as ->.
  apply copy_checkpoint_parameters_warnings in Hcheckpoint as ->.
  apply copy_formula_parameters_silent in Hformula as ->.
  apply copy_simulation_parameters_silent in Hsimulation as ->.
  apply copy_plasma_parameters_silent in Hplasma as ->.
  apply copy_slow_light_parameters_silent in Hslow as ->.
  apply copy_fallback_parameters_silent in Hfallback as ->.
  apply copy_camera_parameters_silent in Hcamera as ->.
  apply copy_image_parameters_warnings in Himage as ->.
  apply copy_rendering_parameters_warnings in Hrendering as ->.
  cbn [app]. rewrite !app_nil_r. now rewrite <- !app_assoc.
Qed.

End FormulaWarnings.

(** X27 at a formula input that selects [image_lambda_ave]: one warning. *)
Lemma formula_constructor_warnings_witness :
  exists w obj,
    Constructor.new_RadiationIntegrator (Inputs.formula_input true true)
    = (w, inr obj)
    /\ InputReader.model_type (Inputs.formula_input true true) = Some formula
    /\ w = ["Ignoring image_lambda_ave selection."%string].
Proof.
  destruct (Constructor.new_RadiationIntegrator
              (Inputs.formula_input true true)) as [w [e|obj]] eqn:E;
    [vm_compute in E; discriminate|].
  exists w, obj. split; [reflexivity|]. split; [reflexivity|].
  rewrite (formula_constructor_warnings
             (Inputs.formula_input true true) w obj E eq_refl).
  reflexivity.
Defined.

(** ** The constructor: what a formula run depends on *)

Section FormulaOptionsFacts.
Import Exceptions Constructor FormulaOptions.

Lemma outcome_bind {A B : Type} (m : M A) (f : A -> M B) :
  outcome (m ≫= f)
  = match outcome m with
    | inl e => inl e
    | inr a => outcome (f a)
    end.
Proof.
  unfold outcome. destruct m as [w [e|a]]; cbn; [reflexivity|].
  now destruct (f a).
Qed.

Lemma outcome_bind_eq {A B : Type} (m m' : M A) (f f' : A -> M B) :
  outcome m = outcome m' ->
  (forall a, outcome m' = inr a -> outcome (f a) = outcome (f' a)) ->
  outcome (m ≫= f) = outcome (m' ≫= f').
Proof.
  intros Hm Hf. rewrite !outcome_bind, Hm.
  destruct (outcome m') as [e|a]; [reflexivity|]. now apply Hf.
Qed.

Lemma outcome_ignoring {B : Type} b message (f : unit -> M B) :
  outcome (when b (BlacklightWarning message) ≫= f) = outcome (f tt).
Proof. rewrite outcome_bind. now destruct b. Qed.

Lemma outcome_returned {A : Type} (m : M A) a :
  outcome m = inr a -> exists w, m = (w, inr a).
Proof. destruct m as [w r]. unfold outcome. cbn. intros ->. eauto. Qed.

Ltac outcome_step :=
  lazymatch goal with
  | |- outcome (when _ (BlacklightWarning _) ≫= _) = _ =>
      rewrite outcome_ignoring
  | |- _ = outcome (when _ (BlacklightWarning _) ≫= _) =>
      rewrite outcome_ignoring
  | |- outcome (_ ≫= _) = outcome (_ ≫= _) =>
      apply outcome_bind_eq; [ | intros ? _ ]
  | |- outcome (if ?b then _ else _) = outcome (if ?b then _ else _) =>
      destruct b
  | |- _ => reflexivity
  end.

(** For the formula model no image is rendered, whatever the input asks. *)
Lemma copy_rendering_parameters_formula p :
  outcome (copy_rendering_parameters p formula)
  = inr {| render_num_images := 0; render_features := [] |}.
Proof.
  unfold copy_rendering_parameters. cbn [is_simulation].
  rewrite outcome_bind, outcome_ignoring. reflexivity.
Qed.

(** X28.  A formula run reads no option of the simulation.  For the
    formula model, two inputs that agree on the options the constructor
    reads for it (the general data and the spin, the ten parameters of
    the formula, the fallback flag, the camera, the light and its
    frequency, the five other images of both models, the flat-ray flag
    and the adaptive parameters) end the constructor alike: in the same
    exception or in the same object.  The options of the checkpoints, the
    simulation, the plasma, slow light, the fallback values, the
    polarization, the three averaged or integrated images and the
    rendering change the warnings at most. *)
Theorem formula_ignores_simulation_options (p q : InputReader.t) :
  InputReader.model_type p = Some formula -> same p q ->
  outcome (new_RadiationIntegrator p) = outcome (new_RadiationIntegrator q).
Proof.
  intros Hmodel Hsame. unfold same in Hsame.
  repeat match type of Hsame with
         | _ /\ _ => let E := fresh "E" in destruct Hsame as [E Hsame]
         end.
  pose proof Hmodel as Hmodel'.
  match goal with
  | E : InputReader.model_type p = InputReader.model_type q |- _ =>
      rewrite E in Hmodel'
  end.
  assert (outcome (copy_general_input_data p)
          = outcome (copy_general_input_data q)) as Hgeneral.
  { unfold copy_general_input_data. rewrite Hmodel, Hmodel'. cbn.
    repeat match goal with
           | E : _ p = _ q |- _ => progress rewrite E
           end.
    reflexivity. }
  unfold new_RadiationIntegrator, before_selection.
  apply outcome_bind_eq;
    [apply outcome_bind_eq; [exact Hgeneral|] | intros b _].
  - intros g Hg. apply outcome_returned in Hg as [w Hg].
    apply copy_general_input_data_returned in Hg. rewrite Hmodel' in Hg.
    injection Hg as <-.
    do 8 (apply outcome_bind_eq;
          [ unfold copy_checkpoint_parameters, copy_formula_parameters,
              copy_simulation_parameters, copy_plasma_parameters,
              copy_slow_light_parameters, copy_fallback_parameters,
              copy_camera_parameters, copy_image_parameters;
            cbn [is_simulation is_formula andb value_if];
            repeat match goal with
                   | E : _ p = _ q |- _ => progress rewrite E
                   end;
            repeat outcome_step
          | intros ? _ ]).
    rewrite !outcome_bind, !copy_rendering_parameters_formula. reflexivity.
  - unfold copy_adaptive_parameters.
    repeat match goal with
           | E : _ p = _ q |- _ => progress rewrite E
           end.
    reflexivity.
Qed.

End FormulaOptionsFacts.

(** X28 at two formula inputs that differ in [image_lambda_ave], which the
    formula model ignores. *)
Lemma formula_ignores_simulation_options_witness :
  (InputReader.model_type (Inputs.formula_input true false) = Some formula
   /\ FormulaOptions.same (Inputs.formula_input true false)
        (Inputs.formula_input true true))
  /\ FormulaOptions.outcome
       (Constructor.new_RadiationIntegrator (Inputs.formula_input true false))
     = FormulaOptions.outcome
         (Constructor.new_RadiationIntegrator (Inputs.formula_input true true))
  /\ InputReader.image_lambda_ave (Inputs.formula_input true false)
     <> InputReader.image_lambda_ave (Inputs.formula_input true true).
Proof.
  assert (FormulaOptions.same (Inputs.formula_input true false)
            (Inputs.formula_input true true)) as Hsame
    by (unfold FormulaOptions.same; repeat split; reflexivity).
  split; [split; [reflexivity | exact Hsame]|]. split.
  - apply (formula_ignores_simulation_options
             (Inputs.formula_input true false) (Inputs.formula_input true true));
      [reflexivity | exact Hsame].
  - discriminate.
Defined.

(** ** The constructor: the warnings of the simulation model *)

(** Reads off what each statement that returned has warned of. *)
Ltac warnings_inv :=
  repeat match goal with
         | H : Exceptions.value _ = (_, inr _) |- _ =>
             apply silent_value in H
         | H : Exceptions.value_if _ _ _ = (_, inr _) |- _ =>
             apply silent_value_if in H
         | H : Exceptions.when _ (Exceptions.BlacklightWarning _) = (_, inr _)
           |- _ => apply ignoring_returned in H
         | H : Exceptions.when _ (mthrow _) = (_, inr _) |- _ =>
             apply when_throw_returned in H as [_ H]
         end.

Section SimulationWarnings.
Import Exceptions Constructor Warnings.

Lemma copy_plasma_parameters_warnings p w pl :
  copy_plasma_parameters p simulation = (w, inr pl) ->
  plasma_thermal_frac pl
  = (1.0 - (plasma_power_frac pl + plasma_kappa_frac pl))%float
  /\ w = (if outside_unit_interval (plasma_power_frac pl)
          then ["Fraction of power-law electrons outside [0, 1]."%string]
          else [])
         ++ (if outside_unit_interval (plasma_kappa_frac pl)
             then ["Fraction of kappa-distribution electrons outside [0, 1]."%string]
             else [])
         ++ (if outside_unit_interval (plasma_thermal_frac pl)
             then ["Fraction of thermal electrons outside [0, 1]."%string]
             else []).
Proof.
  unfold copy_plasma_parameters. cbn [is_simulation andb]. intros H.
  returned_inv H. apply ret_returned in H as [<- ->]. cbn.
  warnings_inv. subst. split; [reflexivity|].
  cbn [app]. now rewrite !app_nil_r.
Qed.


Lemma check_plasma_kappa_warnings kappa w u :
  check_plasma_kappa kappa = (w, inr u) ->
  w = if neqb kappa 3.5 && neqb kappa 4.0 && neqb kappa 4.5 && neqb kappa 5.0
      then ["Polarized transport will interpolate formulas based on kappa."%string]
      else [].
Proof.
  unfold check_plasma_kappa.
  destruct ((kappa <? 3.5) || (5.0 <? kappa))%float; [discriminate|].
  destruct (neqb kappa 3.5 && neqb kappa 4.0 && neqb kappa 4.5
            && neqb kappa 5.0); intros H; now inversion H.
Qed.

Lemma copy_image_parameters_simulation_warnings p pl w im :
  copy_image_parameters p simulation pl = (w, inr im) ->
  w = if image_light im then
        if image_polarization im && neqb (plasma_kappa_frac pl) 0.0
           && neqb (plasma_kappa pl) 3.5 && neqb (plasma_kappa pl) 4.0
           && neqb (plasma_kappa pl) 4.5 && neqb (plasma_kappa pl) 5.0
        then ["Polarized transport will interpolate formulas based on kappa."%string]
        else []
      else if has_value_and_value (InputReader.image_polarization p)
           then ["Ignoring image_polarization selection."%string]
           else [].
Proof.
  unfold copy_image_parameters. cbn [is_simulation]. intros H.
  apply bind_returned_inv in H as (w0 & light & w0' & Hm0 & H & ->).
  apply bind_returned_inv in H as (w1 & freq & w1' & Hm1 & H & ->).
  apply bind_returned_inv in H as (w2 & pol & w2' & Hm2 & H & ->).
  apply bind_returned_inv in H as (w3 & [] & w3' & Hm3 & H & ->).
  returned_inv H. apply ret_returned in H as [<- ->]. cbn.
  warnings_inv. subst. cbn [app]. rewrite !app_nil_r.
  destruct light; cbn [andb] in Hm3.
  - apply silent_value in Hm2 as ->. cbn [app].
    destruct pol; cbn [andb when] in *;
      [|now apply ret_returned in Hm3 as [_ ->]].
    destruct (neqb (plasma_kappa_frac pl) 0.0); cbn [andb when] in *;
      [|now apply ret_returned in Hm3 as [_ ->]].
    now apply check_plasma_kappa_warnings in Hm3.
  - cbn [when] in Hm3. apply ret_returned in Hm3 as [_ ->].
    apply bind_returned_inv in Hm2 as (? & [] & ? & Hm2 & Hr & ->).
    apply ret_returned in Hr as [_ ->]. apply ignoring_returned in Hm2.
    subst. now rewrite !app_nil_r.
Qed.

Lemma copy_checkpoint_parameters_silent p :
  silent (copy_checkpoint_parameters p simulation).
Proof.
  unfold copy_checkpoint_parameters. cbn [is_simulation]. silent_tac.
Qed.

Lemma copy_rendering_parameters_silent p :
  silent (copy_rendering_parameters p simulation).
Proof.
  unfold copy_rendering_parameters. cbn [is_simulation].
  apply silent_bind; [apply silent_value|]. intros images.
  apply silent_bind; [|intros; apply silent_ret].
  destruct (0 <? images)%Z; [|apply silent_ret].
  apply silent_for_each. intros n_i. unfold copy_render_image.
  apply silent_bind; [apply silent_value|]. intros features.
  apply silent_bind; [apply silent_when, silent_throw|]. intros [].
  apply silent_for_each. intros n_f. unfold copy_render_feature. silent_tac.
Qed.

(** X29.  The warnings of a simulation run.  When the constructor
    returns for the simulation model, the thermal fraction of the object
    is [1 - (plasma_power_frac + plasma_kappa_frac)], and the warnings it
    has given are exactly these, in this order: one for each of the three
    fractions of electrons that is below 0 or above 1; then, with the
    image of the light, the warning of interpolation where the polarized
    transport uses a kappa that is none of 3.5, 4, 4.5 and 5, and without
    it the warning that a selection of the polarization is ignored. *)
Theorem simulation_constructor_warnings
    (p : InputReader.t) (w : list string) (obj : RadiationIntegrator) :
  new_RadiationIntegrator p = (w, inr obj) ->
  InputReader.model_type p = Some simulation ->
  plasma_thermal_frac (plasma obj)
  = (1.0 - (plasma_power_frac (plasma obj)
            + plasma_kappa_frac (plasma obj)))%float
  /\ w = (if outside_unit_interval (plasma_power_frac (plasma obj))
          then ["Fraction of power-law electrons outside [0, 1]."%string]
          else [])
         ++ (if outside_unit_interval (plasma_kappa_frac (plasma obj))
             then ["Fraction of kappa-distribution electrons outside [0, 1]."%string]
             else [])
         ++ (if outside_unit_interval (plasma_thermal_frac (plasma obj))
             then ["Fraction of thermal electrons outside [0, 1]."%string]
             else [])
         ++ (if image_light (image obj) then
               if image_polarization (image obj)
                  && neqb (plasma_kappa_frac (plasma obj)) 0.0
                  && neqb (plasma_kappa (plasma obj)) 3.5
                  && neqb (plasma_kappa (plasma obj)) 4.0
                  && neqb (plasma_kappa (plasma obj)) 4.5
                  && neqb (plasma_kappa (plasma obj)) 5.0
               then ["Polarized transport will interpolate formulas based on kappa."%string]
               else []
             else if has_value_and_value (InputReader.image_polarization p)
                  then ["Ignoring image_polarization selection."%string]
                  else []).
Proof.
  intros H Hmodel.
  apply new_RadiationIntegrator_returned in H
    as (w0 & b & w1 & Hb & _ & _ & Hadaptive & _ & _ & _ & _ & -> & _ & _ & _
        & -> & _ & ->).
  apply copy_adaptive_parameters_silent in Hadaptive as ->.
  apply before_selection_blocks in Hb
    as (x1 & x2 & x3 & x4 & x5 & x6 & x7 & x8 & x9 & x10
        & Hgeneral & Hcheckpoint & Hformula & Hsimulation & Hplasma
        & Hslow & Hfallback & Hcamera & Himage & Hrendering & ->).
  cbv zeta in *.
  pose proof (copy_general_input_data_returned _ _ _ Hgeneral) as Hm.
  rewrite Hmodel in Hm. injection Hm as Hm. rewrite <- Hm in *.
  apply copy_general_input_data_silent in Hgeneral as ->.
  apply copy_checkpoint_parameters_silent in Hcheckpoint as ->.
  apply copy_formula_parameters_silent in Hformula as ->.
  apply copy_simulation_parameters_silent in Hsimulation as ->.
  apply copy_plasma_parameters_warnings in Hplasma as [Hthermal ->].
  apply copy_slow_light_parameters_silent in Hslow as ->.
  apply copy_fallback_parameters_silent in Hfallback as ->.
  apply copy_camera_parameters_silent in Hcamera as ->.
  apply copy_image_parameters_simulation_warnings in Himage as ->.
  apply copy_rendering_parameters_silent in Hrendering as ->.
  split; [exact Hthermal|].
  cbn [app]. rewrite !app_nil_r. now rewrite <- !app_assoc.
Qed.

End SimulationWarnings.


(** X29 at a polarized simulation with kappa = 3.75: the one warning is
    that of interpolation. *)
Lemma simulation_constructor_warnings_witness :
  exists w obj,
    Constructor.new_RadiationIntegrator
      (Inputs.simulation_input false false 3.75 0 0)
    = (w, inr obj)
    /\ InputReader.model_type (Inputs.simulation_input false false 3.75 0 0)
       = Some simulation
    /\ Constructor.plasma_thermal_frac (Constructor.plasma obj)
       = (1.0 - (Constructor.plasma_power_frac (Constructor.plasma obj)
                 + Constructor.plasma_kappa_frac (Constructor.plasma obj)))%float
    /\ w = ["Polarized transport will interpolate formulas based on kappa."%string].
Proof.
  destruct (Constructor.new_RadiationIntegrator
              (Inputs.simulation_input false false 3.75 0 0))
    as [w [e|obj]] eqn:E; [vm_compute in E; discriminate|].
  exists w, obj. split; [reflexivity|]. split; [reflexivity|].
  destruct (simulation_constructor_warnings
              (Inputs.simulation_input false false 3.75 0 0) w obj E eq_refl)
    as [Hthermal Hw].
  split; [exact Hthermal|].
  vm_compute in E. now injection E as <- _.
Defined.
